(** * CentauriCarbon OTA container tools: a shallow embedding

    This development embeds the two Python tools

      - [tools/cc_swu_encrypt.py]  (packs a ZIP into an OTA [.bin] container)
      - [tools/cc_swu_decrypt.py]  (recovers the ZIP from a container)

    and proves properties of the container format.  The tools read and
    write files and call the [openssl] binary; the embedding therefore
    threads an explicit world (a flat file system plus the log of [openssl]
    runs) through a small state-and-exception monad.  The two library
    primitives the tools rely on, [hashlib.md5] and AES-256-CBC as run by
    [openssl enc -nopad], are written out in full (RFC 1321, FIPS 197,
    SP 800-38A) and checked against the published test vectors.

    Console output ([print]) is not part of the model. *)

From Stdlib Require Import ZArith List Lia Bool.
From Stdlib Require Import Strings.Byte Strings.Ascii Strings.String.
From stdpp Require Import base option list strings gmap.

Local Open Scope Z_scope.

(** ** Bytes *)

(** A Python [bytes] object: an immutable sequence of integers in 0..255. *)
Abbreviation bytes := (list byte).

#[global] Instance byte_eq_dec : EqDecision byte := Byte.byte_eq_dec.

Definition Z_of_byte (b : byte) : Z := Z.of_N (Byte.to_N b).

(** The byte holding the low eight bits of an integer. *)
Definition byte_of_Z (z : Z) : byte :=
  default x00 (Byte.of_N (Z.to_N (Z.land z 0xFF))).

Definition zeros (n : nat) : bytes := replicate n x00.


(** Little-endian integer codecs ([struct.pack("<I", _)] and friends). *)
Fixpoint le_bytes (n : nat) (z : Z) : bytes :=
  match n with
  | O => []
  | S n' => byte_of_Z z :: le_bytes n' (z / 256)
  end.

Fixpoint le_int (bs : bytes) : Z :=
  match bs with
  | [] => 0
  | b :: rest => Z_of_byte b + 256 * le_int rest
  end.

(** ** [hashlib.md5]: the MD5 message digest (RFC 1321) *)

Module MD5.

Definition wrap32 (z : Z) : Z := z mod 2 ^ 32.
Definition not32 (x : Z) : Z := Z.lxor x 0xffffffff.
Definition rotl32 (x c : Z) : Z :=
  Z.lor (wrap32 (Z.shiftl x c)) (Z.shiftr x (32 - c)).

(** Per-round left-rotation amounts. *)
Definition shifts : list Z :=
  [ 7; 12; 17; 22;  7; 12; 17; 22;  7; 12; 17; 22;  7; 12; 17; 22;
    5;  9; 14; 20;  5;  9; 14; 20;  5;  9; 14; 20;  5;  9; 14; 20;
    4; 11; 16; 23;  4; 11; 16; 23;  4; 11; 16; 23;  4; 11; 16; 23;
    6; 10; 15; 21;  6; 10; 15; 21;  6; 10; 15; 21;  6; 10; 15; 21 ].

(** [floor (2^32 * abs (sin (i + 1)))] for [i = 0 .. 63]. *)
Definition sines : list Z :=
  [ 0xd76aa478; 0xe8c7b756; 0x242070db; 0xc1bdceee;
    0xf57c0faf; 0x4787c62a; 0xa8304613; 0xfd469501;
    0x698098d8; 0x8b44f7af; 0xffff5bb1; 0x895cd7be;
    0x6b901122; 0xfd987193; 0xa679438e; 0x49b40821;
    0xf61e2562; 0xc040b340; 0x265e5a51; 0xe9b6c7aa;
    0xd62f105d; 0x02441453; 0xd8a1e681; 0xe7d3fbc8;
    0x21e1cde6; 0xc33707d6; 0xf4d50d87; 0x455a14ed;
    0xa9e3e905; 0xfcefa3f8; 0x676f02d9; 0x8d2a4c8a;
    0xfffa3942; 0x8771f681; 0x6d9d6122; 0xfde5380c;
    0xa4beea44; 0x4bdecfa9; 0xf6bb4b60; 0xbebfbc70;
    0x289b7ec6; 0xeaa127fa; 0xd4ef3085; 0x04881d05;
    0xd9d4d039; 0xe6db99e5; 0x1fa27cf8; 0xc4ac5665;
    0xf4292244; 0x432aff97; 0xab9423a7; 0xfc93a039;
    0x655b59c3; 0x8f0ccc92; 0xffeff47d; 0x85845dd1;
    0x6fa87e4f; 0xfe2ce6e0; 0xa3014314; 0x4e0811a1;
    0xf7537e82; 0xbd3af235; 0x2ad7d2bb; 0xeb86d391 ].

(** The four chaining words A, B, C, D. *)
Record state := State { sA : Z; sB : Z; sC : Z; sD : Z }.

Definition init : state :=
  State 0x67452301 0xefcdab89 0x98badcfe 0x10325476.

(** One of the 64 operations on the message words [M] of a chunk. *)
Definition step (M : list Z) (st : state) (i : nat) : state :=
  let '(State A B C D) := st in
  let iz := Z.of_nat i in
  let '(F, g) :=
    if (i <? 16)%nat then
      (Z.lor (Z.land B C) (Z.land (not32 B) D), iz)
    else if (i <? 32)%nat then
      (Z.lor (Z.land D B) (Z.land (not32 D) C), (5 * iz + 1) mod 16)
    else if (i <? 48)%nat then
      (Z.lxor B (Z.lxor C D), (3 * iz + 5) mod 16)
    else
      (Z.lxor C (Z.lor B (not32 D)), (7 * iz) mod 16) in
  let F' := wrap32 (F + A + nth i sines 0 + nth (Z.to_nat g) M 0) in
  State D (wrap32 (B + rotl32 F' (nth i shifts 0))) B C.

Definition words_of_chunk (chunk : bytes) : list Z :=
  map le_int (reshape (replicate 16 4%nat) chunk).

Definition compress (st : state) (chunk : bytes) : state :=
  let st' := fold_left (step (words_of_chunk chunk)) (seq 0 64) st in
  State (wrap32 (sA st + sA st')) (wrap32 (sB st + sB st'))
        (wrap32 (sC st + sC st')) (wrap32 (sD st + sD st')).

(** Message padding: a single 1 bit, zeros up to 56 modulo 64 bytes, then
    the message length in bits as a 64-bit little-endian integer. *)
Definition pad (msg : bytes) : bytes :=
  let n := Z.of_nat (length msg) in
  msg ++ [x80] ++ zeros (Z.to_nat ((55 - n) mod 64))
      ++ le_bytes 8 ((8 * n) mod 2 ^ 64).

Definition digest (msg : bytes) : bytes :=
  let padded := pad msg in
  let chunks := reshape (replicate (length padded / 64) 64%nat) padded in
  let st := fold_left compress chunks init in
  le_bytes 4 (sA st) ++ le_bytes 4 (sB st)
    ++ le_bytes 4 (sC st) ++ le_bytes 4 (sD st).

End MD5.

(** ** AES-256 (FIPS 197) in CBC mode (SP 800-38A), as run by
    [openssl enc -aes-256-cbc -nopad] *)

Module AES.

(** *** The field GF(2^8) *)

Definition bxor (a b : byte) : byte :=
  byte_of_Z (Z.lxor (Z_of_byte a) (Z_of_byte b)).

(** Multiplication by the polynomial [x], reduced by [x^8+x^4+x^3+x+1]. *)
Definition xtime (a : byte) : byte :=
  let z := 2 * Z_of_byte a in
  byte_of_Z (if 256 <=? z then Z.lxor z 0x11b else z).

Fixpoint gmul_bits (n : nat) (a : byte) (b : Z) : byte :=
  match n with
  | O => x00
  | S n' => bxor (if Z.odd b then a else x00) (gmul_bits n' (xtime a) (b / 2))
  end.

Definition gmul (a b : byte) : byte := gmul_bits 8 a (Z_of_byte b).

Fixpoint gpow (a : byte) (n : nat) : byte :=
  match n with
  | O => x01
  | S n' => gmul a (gpow a n')
  end.

(** The multiplicative inverse, with the inverse of 0 taken to be 0. *)
Definition ginv (a : byte) : byte := gpow a 254.

Definition rotl8 (a : byte) (n : Z) : byte :=
  let z := Z_of_byte a in
  byte_of_Z (Z.lor (Z.shiftl z n) (Z.shiftr z (8 - n))).

(** *** The S-box and its inverse (FIPS 197, 5.1.1 and 5.3.2) *)

Definition sbox_formula (a : byte) : byte :=
  let x := ginv a in
  bxor x (bxor (rotl8 x 1) (bxor (rotl8 x 2) (bxor (rotl8 x 3)
       (bxor (rotl8 x 4) x63)))).

Definition inv_sbox_formula (a : byte) : byte :=
  ginv (bxor (rotl8 a 1) (bxor (rotl8 a 3) (bxor (rotl8 a 6) x05))).

Definition all_bytes : list byte :=
  Eval vm_compute in map (fun n => byte_of_Z (Z.of_nat n)) (seq 0 256).

Definition sbox_table : list byte :=
  Eval vm_compute in map sbox_formula all_bytes.

Definition inv_sbox_table : list byte :=
  Eval vm_compute in map inv_sbox_formula all_bytes.

Definition sbox (a : byte) : byte := nth (Byte.to_nat a) sbox_table x00.
Definition inv_sbox (a : byte) : byte := nth (Byte.to_nat a) inv_sbox_table x00.

(** *** Words, states and the round transformations *)

(** A word is a column of four bytes; a state is four columns. *)
Definition word : Type := byte * byte * byte * byte.
Definition state : Type := word * word * word * word.

Definition map_word (f : byte -> byte) (w : word) : word :=
  let '(a, b, c, d) := w in (f a, f b, f c, f d).

Definition xor_word (v w : word) : word :=
  let '(a, b, c, d) := v in
  let '(a', b', c', d') := w in
  (bxor a a', bxor b b', bxor c c', bxor d d').

Definition map_state (f : word -> word) (s : state) : state :=
  let '(c0, c1, c2, c3) := s in (f c0, f c1, f c2, f c3).

Definition sub_bytes : state -> state := map_state (map_word sbox).
Definition inv_sub_bytes : state -> state := map_state (map_word inv_sbox).

(** Row [r] of the state is rotated left by [r] columns. *)
Definition shift_rows (s : state) : state :=
  let '((a0, a1, a2, a3), (b0, b1, b2, b3),
        (c0, c1, c2, c3), (d0, d1, d2, d3)) := s in
  ((a0, b1, c2, d3), (b0, c1, d2, a3), (c0, d1, a2, b3), (d0, a1, b2, c3)).

Definition inv_shift_rows (s : state) : state :=
  let '((a0, a1, a2, a3), (b0, b1, b2, b3),
        (c0, c1, c2, c3), (d0, d1, d2, d3)) := s in
  ((a0, d1, c2, b3), (b0, a1, d2, c3), (c0, b1, a2, d3), (d0, c1, b2, a3)).

Definition xor4 (a b c d : byte) : byte := bxor (bxor a b) (bxor c d).

Definition mix_column (w : word) : word :=
  let '(a, b, c, d) := w in
  (xor4 (gmul a x02) (gmul b x03) c d,
   xor4 a (gmul b x02) (gmul c x03) d,
   xor4 a b (gmul c x02) (gmul d x03),
   xor4 (gmul a x03) b c (gmul d x02)).

Definition inv_mix_column (w : word) : word :=
  let '(a, b, c, d) := w in
  (xor4 (gmul a x0e) (gmul b x0b) (gmul c x0d) (gmul d x09),
   xor4 (gmul a x09) (gmul b x0e) (gmul c x0b) (gmul d x0d),
   xor4 (gmul a x0d) (gmul b x09) (gmul c x0e) (gmul d x0b),
   xor4 (gmul a x0b) (gmul b x0d) (gmul c x09) (gmul d x0e)).

Definition mix_columns : state -> state := map_state mix_column.
Definition inv_mix_columns : state -> state := map_state inv_mix_column.

Definition add_round_key (k s : state) : state :=
  let '(c0, c1, c2, c3) := s in
  let '(k0, k1, k2, k3) := k in
  (xor_word c0 k0, xor_word c1 k1, xor_word c2 k2, xor_word c3 k3).

(** *** Key expansion for a 256-bit key (Nk = 8, Nr = 14) *)

Definition zero_word : word := (x00, x00, x00, x00).
Definition zero_state : state := (zero_word, zero_word, zero_word, zero_word).

Definition rot_word (w : word) : word :=
  let '(a, b, c, d) := w in (b, c, d, a).

Definition rcon (j : nat) : word := (gpow x02 (j - 1), x00, x00, x00).

(** [ws] holds the words produced so far, most recent first. *)
Fixpoint expand (n i : nat) (ws : list word) : list word :=
  match n with
  | O => rev ws
  | S n' =>
      let temp := nth 0 ws zero_word in
      let temp' :=
        if (i mod 8 =? 0)%nat then
          xor_word (map_word sbox (rot_word temp)) (rcon (i / 8))
        else if (i mod 8 =? 4)%nat then map_word sbox temp
        else temp in
      expand n' (S i) (xor_word (nth 7 ws zero_word) temp' :: ws)
  end.

Fixpoint words_of_bytes (bs : bytes) : list word :=
  match bs with
  | a :: b :: c :: d :: rest => (a, b, c, d) :: words_of_bytes rest
  | _ => []
  end.

Fixpoint states_of_words (ws : list word) : list state :=
  match ws with
  | c0 :: c1 :: c2 :: c3 :: rest => (c0, c1, c2, c3) :: states_of_words rest
  | _ => []
  end.

(** The fifteen round keys of a 32-byte cipher key. *)
Definition key_schedule (key : bytes) : list state :=
  states_of_words (expand 52 8 (rev (words_of_bytes (take 32 key)))).

(** *** Cipher and inverse cipher (FIPS 197, Fig. 5 and Fig. 12) *)

Definition round (k s : state) : state :=
  add_round_key k (mix_columns (shift_rows (sub_bytes s))).

Definition final_round (k s : state) : state :=
  add_round_key k (shift_rows (sub_bytes s)).

Definition inv_round (k s : state) : state :=
  inv_sub_bytes (inv_shift_rows (inv_mix_columns (add_round_key k s))).

Definition inv_final_round (k s : state) : state :=
  inv_sub_bytes (inv_shift_rows (add_round_key k s)).

(** The rounds after the initial key addition: every key but the last
    drives a full round, the last one the final round. *)
Fixpoint rounds (ks : list state) (s : state) : state :=
  match ks with
  | [] => s
  | [k] => final_round k s
  | k :: ks' => rounds ks' (round k s)
  end.

Fixpoint inv_rounds (ks : list state) (s : state) : state :=
  match ks with
  | [] => s
  | [k] => inv_final_round k s
  | k :: ks' => inv_round k (inv_rounds ks' s)
  end.

Definition cipher (ks : list state) (s : state) : state :=
  match ks with
  | [] => s
  | k0 :: ks' => rounds ks' (add_round_key k0 s)
  end.

Definition inv_cipher (ks : list state) (s : state) : state :=
  match ks with
  | [] => s
  | k0 :: ks' => add_round_key k0 (inv_rounds ks' s)
  end.

(** *** Blocks of a byte string and CBC chaining *)

Definition bytes_of_word (w : word) : bytes :=
  let '(a, b, c, d) := w in [a; b; c; d].

Definition bytes_of_state (s : state) : bytes :=
  let '(c0, c1, c2, c3) := s in
  bytes_of_word c0 ++ bytes_of_word c1 ++ bytes_of_word c2 ++ bytes_of_word c3.

(** The complete 16-byte blocks of a byte string; an incomplete tail is
    dropped. *)
Definition blocks (bs : bytes) : list state :=
  states_of_words (words_of_bytes bs).

Definition unblocks (ss : list state) : bytes :=
  flat_map bytes_of_state ss.

Fixpoint cbc_encrypt (ks : list state) (iv : state) (ps : list state)
  : list state :=
  match ps with
  | [] => []
  | p :: ps' =>
      let c := cipher ks (add_round_key iv p) in
      c :: cbc_encrypt ks c ps'
  end.

Fixpoint cbc_decrypt (ks : list state) (iv : state) (cs : list state)
  : list state :=
  match cs with
  | [] => []
  | c :: cs' => add_round_key iv (inv_cipher ks c) :: cbc_decrypt ks c cs'
  end.

Definition iv_state (iv : bytes) : state :=
  nth 0 (blocks (take 16 iv)) zero_state.

Definition encrypt_cbc (key iv data : bytes) : bytes :=
  unblocks (cbc_encrypt (key_schedule key) (iv_state iv) (blocks data)).

Definition decrypt_cbc (key iv data : bytes) : bytes :=
  unblocks (cbc_decrypt (key_schedule key) (iv_state iv) (blocks data)).

End AES.

(** ** The world the tools run in *)

(** Python slicing [l[a:b]] for [0 <= a <= b]. *)
Definition slice {A} (a b : nat) (l : list A) : list A := take (b - a) (drop a l).

(** [str.encode()] for the ASCII strings used here. *)
Definition bytes_of_string (s : string) : bytes := String.list_byte_of_string s.

(** [s.endswith(suffix)]. *)
Definition endswith (s suffix : string) : bool :=
  let n := String.length s in
  let k := String.length suffix in
  (k <=? n)%nat && String.eqb (String.substring (n - k) k s) suffix.

Inductive direction := Encrypt | Decrypt.

(** One invocation of [openssl enc -e|-d -aes-256-cbc -in .. -out .. -K ..
    -iv .. -nopad]. *)
Record run := Run {
  run_direction : direction;
  run_in : string;
  run_out : string;
  run_key : string;
  run_iv : string
}.

(** A flat file system and the log of [openssl] runs, oldest first.  There
    are no directories and no permissions: every path can be opened for
    writing, and [openssl] is installed.  What the tools do when a file
    cannot be created is outside this model. *)
Record world := World {
  files : gmap string bytes;
  runs : list run
}.

(** The exceptions the tools can raise.  The source raises [ValueError]
    with four different messages; each message is its own constructor and
    carries the values the message prints.  Two more [ValueError]s come
    from the library: [bytes] refuses an integer outside [range(0, 256)],
    and [zipfile] refuses a file last modified before 1980. *)
Inductive exn :=
  | FileNotFoundError (path : string)
  | ValueError_file_too_small (n : nat)
  | ValueError_bad_magic (magic : bytes)
  | ValueError_md5_mismatch (stored calculated : bytes)
  | ValueError_not_a_zip (magic : bytes)
  | ValueError_bytes_range
  | ValueError_zip_timestamp
  | RuntimeError_openssl_encryption_failed
  | RuntimeError_openssl_decryption_failed
  | struct_error
  | AssertionError.

Inductive outcome (A : Type) :=
  | Return (a : A)
  | Raise (e : exn).
Arguments Return {A} a.
Arguments Raise {A} e.

(** State and exceptions. *)
Definition M (A : Type) : Type := world -> world * outcome A.

Definition ret {A} (a : A) : M A := fun w => (w, Return a).
Definition raise {A} (e : exn) : M A := fun w => (w, Raise e).
Definition bind {A B} (c : M A) (k : A -> M B) : M B :=
  fun w =>
    match c w with
    | (w', Return a) => k a w'
    | (w', Raise e) => (w', Raise e)
    end.

Declare Scope py_scope.
Delimit Scope py_scope with py.
Notation "x <- c1 ;; c2" := (bind c1 (fun x => c2))
  (at level 100, c1 at next level, right associativity) : py_scope.
Notation "c1 ;; c2" := (bind c1 (fun _ => c2))
  (at level 100, right associativity) : py_scope.
Open Scope py_scope.

(** [try: body finally: cleanup].  The cleanup runs on every exit of the
    body; an exception of the cleanup replaces the body's outcome. *)
Definition try_finally {A} (body : M A) (cleanup : M unit) : M A :=
  fun w =>
    let '(w1, r) := body w in
    match cleanup w1 with
    | (w2, Return _) => (w2, r)
    | (w2, Raise e) => (w2, Raise e)
    end.

Definition when (b : bool) (c : M unit) : M unit := if b then c else ret tt.

(** [open(path, "rb").read()] *)
Definition read_file (path : string) : M bytes :=
  fun w =>
    match files w !! path with
    | Some data => (w, Return data)
    | None => (w, Raise (FileNotFoundError path))
    end.

(** [open(path, "wb").write(data)]: creates or truncates the file. *)
Definition write_file (path : string) (data : bytes) : M unit :=
  fun w => (World (<[path := data]> (files w)) (runs w), Return tt).

(** [os.path.exists(path)] *)
Definition path_exists (path : string) : M bool :=
  fun w => (w, Return (bool_decide (is_Some (files w !! path)))).

(** [os.unlink(path)] *)
Definition unlink (path : string) : M unit :=
  fun w =>
    match files w !! path with
    | Some _ => (World (delete path (files w)) (runs w), Return tt)
    | None => (w, Raise (FileNotFoundError path))
    end.

(** [struct.pack("<I", n)]: fails outside the range of an unsigned
    32-bit integer. *)
Definition struct_pack_I (n : Z) : M bytes :=
  if (0 <=? n) && (n <? 2 ^ 32) then ret (le_bytes 4 n) else raise struct_error.

(** [struct.unpack_from("<I", buf, offset)[0]]: fails when the buffer holds
    fewer than four bytes from [offset] on. *)
Definition struct_unpack_from_I (buf : bytes) (offset : nat) : M Z :=
  if (offset + 4 <=? length buf)%nat then ret (le_int (slice offset (offset + 4) buf))
  else raise struct_error.

(** [bytes([x, ...])] of a list of integers: [ValueError] unless every one
    of them is in [range(0, 256)]. *)
Definition bytes_of_ints (xs : list Z) : M bytes :=
  if forallb (fun x => (0 <=? x) && (x <? 256)) xs then ret (map byte_of_Z xs)
  else raise ValueError_bytes_range.

(** ** The [zipfile] library *)

(** What [ZipFile.write] makes of one file: the bytes of the archive, or
    one of the two errors of the library for a file whose modification
    time does not fit a ZIP header ([ValueError] before 1980,
    [struct.error] after 2107). *)
Inductive zip_result :=
  | Archive (data : bytes)
  | TimestampBefore1980
  | TimestampAfter2107.

(** [zipfile.ZipFile(buf, "w", zipfile.ZIP_DEFLATED)], one
    [write(path, arcname)] and [buf.getvalue()], as a function of the path
    of the file, the name of the entry and the content of the file.  The
    library also reads the modification time and the mode of the file,
    which the flat file system does not record: they go with the path. *)
Definition zip_writer : Type := string -> string -> bytes -> zip_result.

Definition zip_outcome (r : zip_result) : outcome bytes :=
  match r with
  | Archive data => Return data
  | TimestampBefore1980 => Raise ValueError_zip_timestamp
  | TimestampAfter2107 => Raise struct_error
  end.

(** ** The [openssl enc] command *)

Module openssl.

Definition hexval (c : ascii) : option Z :=
  let n := Z.of_nat (nat_of_ascii c) in
  if (48 <=? n) && (n <=? 57) then Some (n - 48)
  else if (97 <=? n) && (n <=? 102) then Some (n - 87)
  else if (65 <=? n) && (n <=? 70) then Some (n - 55)
  else None.

Fixpoint pair_nibbles (ns : list Z) : bytes :=
  match ns with
  | h :: l :: rest => byte_of_Z (16 * h + l) :: pair_nibbles rest
  | _ => []
  end.

(** The [-K] and [-iv] arguments: excess hex digits are ignored, a short
    string is padded with zero digits, a non-hex digit is an error. *)
Definition set_hex (s : string) (size : nat) : option bytes :=
  match mapM hexval (take (2 * size) (list_ascii_of_string s)) with
  | Some ns => Some (pair_nibbles (ns ++ replicate (2 * size - length ns) 0))
  | None => None
  end.

(** [openssl enc -e|-d -aes-256-cbc -in inp -out out -K key -iv iv -nopad],
    returning the exit status.  The input is opened first; then the output
    is created or truncated; then key and IV are parsed.  Without padding,
    the complete blocks are processed and written, and an incomplete last
    block makes the command fail at the end.  The tools never pass the
    same path for input and output. *)
Definition enc (d : direction) (inp out key iv : string) : M Z :=
  fun w =>
    let log := runs w ++ [Run d inp out key iv] in
    match files w !! inp with
    | None => (World (files w) log, Return 1)
    | Some data =>
        match set_hex key 32, set_hex iv 16 with
        | Some k, Some v =>
            let result :=
              match d with
              | Encrypt => AES.encrypt_cbc k v data
              | Decrypt => AES.decrypt_cbc k v data
              end in
            (World (<[out := result]> (files w)) log,
             Return (if (length data mod 16 =? 0)%nat then 0 else 1))
        | _, _ => (World (<[out := []]> (files w)) log, Return 1)
        end
    end.

End openssl.

(** ** [tools/cc_swu_encrypt.py] *)

Module cc_swu_encrypt.

Definition _KEY : string :=
  "78B6A614B6B6E361DC84D705B7FDDA33C967DDF2970A689F8156F78EFE0B1FCE".
Definition _IV : string := "54E37626B9A699403064111F77858049".

Definition OTA_MAGIC : bytes := [x14; x17; x0b; x17].
Definition CUSTOM_INFO : bytes := [x01; x00; x00; x00].

(** [_pad16]: pad data to the next 16-byte AES block boundary with zero
    bytes.  Python's [if remainder:] is the test [remainder <> 0]. *)
Definition _pad16 (data : bytes) : bytes :=
  let remainder := (length data mod 16)%nat in
  if (remainder =? 0)%nat then data
  else data ++ zeros (16 - remainder).

Section zipfile.

(** The archive writer belongs to the Python library and stays a
    parameter. *)
Variable zipfile_write : zip_writer.

(** [zf.write] looks the file up first ([FileNotFoundError] when it is
    missing), then checks its modification time, then reads and
    compresses it. *)
Definition _wrap_swu_in_zip (swu_path : string) : M bytes :=
  content <- read_file swu_path ;;
  (fun w => (w, zip_outcome (zipfile_write swu_path "update/update.swu" content))).

Definition encrypt (inpath outpath : string) (major minor patch board : Z)
  : M unit :=
  (* 1. Obtain ZIP bytes *)
  zip_bytes <-
    (if endswith inpath ".swu" then _wrap_swu_in_zip inpath
     else
       zip_bytes <- read_file inpath ;;
       when (negb (bool_decide (slice 0 2 zip_bytes = bytes_of_string "PK")))
         (raise (ValueError_not_a_zip (slice 0 4 zip_bytes))) ;;
       ret zip_bytes) ;;
  (* 2. Pad to the AES block size *)
  let zip_padded := _pad16 zip_bytes in
  (* 3. Encrypt with AES-256-CBC *)
  let tmp_plain := (outpath ++ ".plain.tmp")%string in
  let tmp_enc := (outpath ++ ".enc.tmp")%string in
  encrypted <-
    try_finally
      (write_file tmp_plain zip_padded ;;
       returncode <- openssl.enc Encrypt tmp_plain tmp_enc _KEY _IV ;;
       when (negb (returncode =? 0))
         (raise RuntimeError_openssl_encryption_failed) ;;
       read_file tmp_enc)
      (ex1 <- path_exists tmp_plain ;;
       when ex1 (unlink tmp_plain) ;;
       ex2 <- path_exists tmp_enc ;;
       when ex2 (unlink tmp_enc)) ;;
  (* 4. MD5 of the encrypted payload *)
  let md5_digest := MD5.digest encrypted in
  (* 5. Build the 32-byte header *)
  firmware_info <-
    bytes_of_ints [Z.land major 0xFF; Z.land minor 0xFF;
                   Z.land patch 0xFF; Z.land board 0xFF] ;;
  enc_len <- struct_pack_I (Z.of_nat (length encrypted)) ;;
  let header := OTA_MAGIC ++ firmware_info ++ CUSTOM_INFO ++ enc_len ++ md5_digest in
  when (negb (length header =? 0x20)%nat) (raise AssertionError) ;;
  (* 6. Write output *)
  write_file outpath (header ++ encrypted).

End zipfile.

End cc_swu_encrypt.

(** ** [tools/cc_swu_decrypt.py] *)

Module cc_swu_decrypt.

Definition _KEY : string :=
  "78B6A614B6B6E361DC84D705B7FDDA33C967DDF2970A689F8156F78EFE0B0928".
Definition _IV : string := "54E37626B9A699403064111F77858049".

Definition HEADER_SIZE : nat := 0x20.
Definition OTA_MAGIC : bytes := [x14; x17; x0b; x17].

Definition decrypt (inpath outpath : string) : M unit :=
  data <- read_file inpath ;;
  when (length data <? HEADER_SIZE)%nat
    (raise (ValueError_file_too_small (length data))) ;;
  let magic := slice 0x00 0x04 data in
  let firmware_ver := slice 0x04 0x08 data in
  let custom_info := slice 0x08 0x0C data in
  enc_len <- struct_unpack_from_I data 0x0C ;;
  let stored_md5 := slice 0x10 0x20 data in
  let payload := drop 0x20 data in
  when (negb (bool_decide (magic = OTA_MAGIC)))
    (raise (ValueError_bad_magic magic)) ;;
  let calc_md5 := MD5.digest payload in
  when (negb (bool_decide (calc_md5 = stored_md5)))
    (raise (ValueError_md5_mismatch stored_md5 calc_md5)) ;;
  (* Write the payload to a temporary file, then decrypt with openssl *)
  let tmpfile := (outpath ++ ".stage1.tmp")%string in
  try_finally
    (write_file tmpfile payload ;;
     returncode <- openssl.enc Decrypt tmpfile outpath _KEY _IV ;;
     when (negb (returncode =? 0))
       (raise RuntimeError_openssl_decryption_failed))
    (ex <- path_exists tmpfile ;;
     when ex (unlink tmpfile)).

End cc_swu_decrypt.

(** ** What the tools compute, as functions of the input bytes *)

(** The 32-byte key and 16-byte IV each tool hands to [openssl]. *)
Definition encrypt_key : bytes :=
  Eval vm_compute in default [] (openssl.set_hex cc_swu_encrypt._KEY 32).
Definition encrypt_iv : bytes :=
  Eval vm_compute in default [] (openssl.set_hex cc_swu_encrypt._IV 16).
Definition decrypt_key : bytes :=
  Eval vm_compute in default [] (openssl.set_hex cc_swu_decrypt._KEY 32).
Definition decrypt_iv : bytes :=
  Eval vm_compute in default [] (openssl.set_hex cc_swu_decrypt._IV 16).

(** The payload [decrypt] hands to [openssl], and what comes back. *)
Definition payload_of (data : bytes) : bytes := drop 0x20 data.
Definition stored_md5_of (data : bytes) : bytes := slice 0x10 0x20 data.
Definition declared_length_of (data : bytes) : Z := le_int (slice 0x0C 0x10 data).

Definition decrypt_run (outpath : string) : run :=
  Run Decrypt (outpath ++ ".stage1.tmp") outpath
      cc_swu_decrypt._KEY cc_swu_decrypt._IV.

(** The world after [decrypt] has run [openssl] on [payload]. *)
Definition decrypted_world (w : world) (outpath : string) (payload : bytes)
  : world :=
  World (delete (outpath ++ ".stage1.tmp")%string
           (<[outpath := AES.decrypt_cbc decrypt_key decrypt_iv payload]>
              (files w)))
        (runs w ++ [decrypt_run outpath]).

Definition openssl_outcome (e : exn) (payload : bytes) : outcome unit :=
  if (length payload mod 16 =? 0)%nat then Return tt else Raise e.

(** The archive bytes [encrypt] obtains in its first step: a [.swu] input
    is wrapped, any other input must start with the ZIP signature. *)
Definition input_archive (zipf : zip_writer)
    (w : world) (inpath : string) : outcome bytes :=
  match files w !! inpath with
  | None => Raise (FileNotFoundError inpath)
  | Some content =>
      if endswith inpath ".swu" then
        zip_outcome (zipf inpath "update/update.swu" content)
      else if bool_decide (slice 0 2 content = bytes_of_string "PK") then
        Return content
      else Raise (ValueError_not_a_zip (slice 0 4 content))
  end.

(** The encrypted payload [encrypt] builds for given archive bytes. *)
Definition encrypted_payload (zip_bytes : bytes) : bytes :=
  AES.encrypt_cbc encrypt_key encrypt_iv (cc_swu_encrypt._pad16 zip_bytes).

Definition firmware_info (major minor patch board : Z) : bytes :=
  [byte_of_Z (Z.land major 0xFF); byte_of_Z (Z.land minor 0xFF);
   byte_of_Z (Z.land patch 0xFF); byte_of_Z (Z.land board 0xFF)].

Definition header_for (payload : bytes) (major minor patch board : Z) : bytes :=
  cc_swu_encrypt.OTA_MAGIC ++ firmware_info major minor patch board
    ++ cc_swu_encrypt.CUSTOM_INFO
    ++ le_bytes 4 (Z.of_nat (length payload)) ++ MD5.digest payload.

(** The container [encrypt] writes for given archive bytes (steps 2 to 5 of
    the source), when the payload length fits the 32-bit length field. *)
Definition pack (zip_bytes : bytes) (major minor patch board : Z) : bytes :=
  header_for (encrypted_payload zip_bytes) major minor patch board
    ++ encrypted_payload zip_bytes.

Definition encrypt_run (outpath : string) : run :=
  Run Encrypt (outpath ++ ".plain.tmp") (outpath ++ ".enc.tmp")
      cc_swu_encrypt._KEY cc_swu_encrypt._IV.

(** The files left once the two temporary files of [encrypt] are gone. *)
Definition cleaned_files (w : world) (outpath : string) : gmap string bytes :=
  delete (outpath ++ ".enc.tmp")%string
    (delete (outpath ++ ".plain.tmp")%string (files w)).

(** Steps 2 to 6 of [encrypt], once the archive bytes are known. *)
Definition encrypt_tail (zip_bytes : bytes) (outpath : string)
    (major minor patch board : Z) : M unit :=
  let zip_padded := cc_swu_encrypt._pad16 zip_bytes in
  let tmp_plain := (outpath ++ ".plain.tmp")%string in
  let tmp_enc := (outpath ++ ".enc.tmp")%string in
  encrypted <-
    try_finally
      (write_file tmp_plain zip_padded ;;
       returncode <- openssl.enc Encrypt tmp_plain tmp_enc
                       cc_swu_encrypt._KEY cc_swu_encrypt._IV ;;
       when (negb (returncode =? 0))
         (raise RuntimeError_openssl_encryption_failed) ;;
       read_file tmp_enc)
      (ex1 <- path_exists tmp_plain ;;
       when ex1 (unlink tmp_plain) ;;
       ex2 <- path_exists tmp_enc ;;
       when ex2 (unlink tmp_enc)) ;;
  let md5_digest := MD5.digest encrypted in
  firmware_info <-
    bytes_of_ints [Z.land major 0xFF; Z.land minor 0xFF;
                   Z.land patch 0xFF; Z.land board 0xFF] ;;
  enc_len <- struct_pack_I (Z.of_nat (length encrypted)) ;;
  let header := cc_swu_encrypt.OTA_MAGIC ++ firmware_info
                  ++ cc_swu_encrypt.CUSTOM_INFO ++ enc_len ++ md5_digest in
  when (negb (length header =? 0x20)%nat) (raise AssertionError) ;;
  write_file outpath (header ++ encrypted).

(** [encrypt] followed by [decrypt] of the file it wrote. *)
Definition roundtrip (zipf : zip_writer)
    (inpath binpath outpath : string) (major minor patch board : Z)
  : M unit :=
  cc_swu_encrypt.encrypt zipf inpath binpath major minor patch board ;;
  cc_swu_decrypt.decrypt binpath outpath.

(** ** Sample inputs *)

(** A ZIP archive as Python's [zipfile] writes it with [ZIP_DEFLATED]: the
    single entry [update/update.swu] holding the four bytes [swu!]. *)
Definition sample_swu : bytes := bytes_of_string "swu!".

Definition sample_zip : bytes :=
  Eval vm_compute in default [] (openssl.set_hex
    "504b030414000000080000002158563351170600000004000000110000007570646174652f7570646174652e7377752b2e2f550400504b01021403140000000800000021585633511706000000040000001100000000000000000000008001000000007570646174652f7570646174652e737775504b050600000000010001003f000000350000000000"
    138).

(** What [ZipFile.write] of Python 3.11 makes of a file with the content
    [swu!], mode 0644, last modified on 2024-01-01 at 00:00:00, under the
    entry name [update/update.swu]: [sample_zip] up to the external
    attributes of the entry, which carry the mode of the file. *)
Definition sample_wrapped_swu : bytes :=
  Eval vm_compute in default [] (openssl.set_hex
    "504b030414000000080000002158563351170600000004000000110000007570646174652f7570646174652e7377752b2e2f550400504b0102140314000000080000002158563351170600000004000000110000000000000000000000a481000000007570646174652f7570646174652e737775504b050600000000010001003f000000350000000000"
    138).

(** The archive writer of a sample environment: the files holding [swu!]
    are as just described; every other file was last modified before
    1980, so that the library refuses it. *)
Definition sample_zipfile : zip_writer :=
  fun path arcname content =>
    if bool_decide (arcname = "update/update.swu"%string /\ content = sample_swu)
    then Archive sample_wrapped_swu
    else TimestampBefore1980.

(** The container [encrypt] writes for the sample archive, version 1.1.46,
    board 0. *)
Definition sample_container : bytes :=
  Eval vm_compute in pack sample_zip 1 1 46 0.

(** The sample container with every header field that [decrypt] does not
    check replaced: version 2.0.7, board 1, custom info AA BB CC DD and a
    declared payload length of [0xFFFFFFFF]. *)
Definition sample_container_other_header : bytes :=
  take 4 sample_container
    ++ [x02; x00; x07; x01] ++ [xaa; xbb; xcc; xdd] ++ [xff; xff; xff; xff]
    ++ drop 16 sample_container.

(** Checking a predicate on all 256 bytes. *)
Definition for_all_bytes (P : byte -> bool) : bool := forallb P AES.all_bytes.

(** Flipping bit [i] of a byte string, bits counted from the least
    significant bit of the first byte. *)
Definition flip_bit_of_byte (j : nat) (b : byte) : byte :=
  byte_of_Z (Z.lxor (Z_of_byte b) (Z.shiftl 1 (Z.of_nat j))).

Fixpoint flip_bit (i : nat) (bs : bytes) : bytes :=
  match bs with
  | [] => []
  | b :: rest =>
      if (i <? 8)%nat then flip_bit_of_byte i b :: rest
      else b :: flip_bit (i - 8) rest
  end.

(** A container with bit [i] of its payload region flipped. *)
Definition tamper (i : nat) (data : bytes) : bytes :=
  take 0x20 data ++ flip_bit i (payload_of data).

(** Hexadecimal notation for byte strings in test vectors. *)
Definition unhex (s : string) : bytes :=
  default [] (openssl.set_hex s (String.length s / 2)).

(** ** Further sample inputs *)

(** A container that passes the checks of [decrypt] although its payload
    holds 20 bytes: the first 20 payload bytes of the sample container
    under their own digest. *)
Definition sample_misaligned_container : bytes :=
  take 16 sample_container
    ++ MD5.digest (take 20 (payload_of sample_container))
    ++ take 20 (payload_of sample_container).

(** ** The command-line entry points *)

(** How a run of [main] ends: it returns, it calls [sys.exit], an
    exception of the tool function propagates, or [int] rejects a version
    argument. *)
Inductive exit_status :=
  | Finished
  | SystemExit (code : Z)
  | Uncaught (e : exn)
  | Uncaught_int_ValueError (arg : string).

(** [os.path.isfile(path)] on the flat file system. *)
Definition isfile (w : world) (path : string) : bool :=
  bool_decide (is_Some (files w !! path)).

Definition run_tool (c : M unit) (w : world) : world * exit_status :=
  match c w with
  | (w', Return _) => (w', Finished)
  | (w', Raise e) => (w', Uncaught e)
  end.

(** [sys.argv[k]] *)
Definition argv_at (argv : list string) (k : nat) : string :=
  nth k argv ""%string.

Module cc_swu_decrypt_main.

Definition main (argv : list string) (w : world) : world * exit_status :=
  if negb (length argv =? 3)%nat then (w, SystemExit 1)
  else
    let inpath := argv_at argv 1 in
    let outpath := argv_at argv 2 in
    if negb (isfile w inpath) then (w, SystemExit 1)
    else run_tool (cc_swu_decrypt.decrypt inpath outpath) w.

End cc_swu_decrypt_main.

Module cc_swu_encrypt_main.

Section main.

Variable zipfile_write : zip_writer.

(** Python's [int(s)] on a string: the integer, or nothing when [int]
    raises [ValueError]. *)
Variable int : string -> option Z.

(** [int(sys.argv[k]) if len(sys.argv) > k else 0] *)
Definition int_arg (argv : list string) (k : nat) : option Z :=
  if (k <? length argv)%nat then int (argv_at argv k) else Some 0.

Definition main (argv : list string) (w : world) : world * exit_status :=
  if (length argv <? 3)%nat then (w, SystemExit 1)
  else
    let inpath := argv_at argv 1 in
    let outpath := argv_at argv 2 in
    match int_arg argv 3 with
    | None => (w, Uncaught_int_ValueError (argv_at argv 3))
    | Some major =>
    match int_arg argv 4 with
    | None => (w, Uncaught_int_ValueError (argv_at argv 4))
    | Some minor =>
    match int_arg argv 5 with
    | None => (w, Uncaught_int_ValueError (argv_at argv 5))
    | Some patch =>
    match int_arg argv 6 with
    | None => (w, Uncaught_int_ValueError (argv_at argv 6))
    | Some board =>
        if negb (isfile w inpath) then (w, SystemExit 1)
        else run_tool (cc_swu_encrypt.encrypt zipfile_write inpath outpath
                         major minor patch board) w
    end end end end.

End main.

End cc_swu_encrypt_main.



(** ** [dsp/scripts/config2autoconf.py] *)

Module config2autoconf.

(** A Python [str]: a sequence of Unicode code points. *)
Abbreviation text := (list N).

(** An ASCII string literal of the source as a [str]. *)
Definition lit (s : string) : text :=
  map Byte.to_N (String.list_byte_of_string s).

Definition newline : N := 10%N.
Definition quote : N := 34%N.

(** *** Text files: opening, UTF-8 and universal newlines *)

(** Why [open] fails on a path: the [OSError] it raises is a
    [FileNotFoundError], a [PermissionError], an [IsADirectoryError] or a
    [NotADirectoryError]. *)
Inductive os_error :=
  | NoSuchFile
  | PermissionDenied
  | IsADirectory
  | NotADirectory.

Inductive error :=
  | OSError (kind : os_error) (path : string)
  | UnicodeDecodeError
  | UnicodeEncodeError.

Definition FileNotFoundError (path : string) : error := OSError NoSuchFile path.

Inductive result :=
  | Returned
  | Raised (e : error).

Definition in_range (lo hi n : N) : bool := ((lo <=? n) && (n <=? hi))%N.

(** The low six bits of a continuation byte. *)
Definition tail6 (b : byte) : N := N.land (Byte.to_N b) 0x3F.

(** Strict UTF-8 decoding: the well-formed byte sequences of the Unicode
    standard (no overlong forms, no surrogates, nothing above U+10FFFF);
    nothing when the decoder raises. *)
Fixpoint utf8_decode (bs : bytes) : option text :=
  match bs with
  | [] => Some []
  | b0 :: r0 =>
      let n0 := Byte.to_N b0 in
      if (n0 <? 0x80)%N then cons n0 <$> utf8_decode r0
      else if in_range 0xC2 0xDF n0 then
        match r0 with
        | b1 :: r1 =>
            if in_range 0x80 0xBF (Byte.to_N b1) then
              cons (N.lor (N.shiftl (N.land n0 0x1F) 6) (tail6 b1))
                <$> utf8_decode r1
            else None
        | _ => None
        end
      else if in_range 0xE0 0xEF n0 then
        match r0 with
        | b1 :: b2 :: r2 =>
            let lo := if (n0 =? 0xE0)%N then 0xA0%N else 0x80%N in
            let hi := if (n0 =? 0xED)%N then 0x9F%N else 0xBF%N in
            if in_range lo hi (Byte.to_N b1)
               && in_range 0x80 0xBF (Byte.to_N b2) then
              cons (N.lor (N.shiftl (N.land n0 0x0F) 12)
                      (N.lor (N.shiftl (tail6 b1) 6) (tail6 b2)))
                <$> utf8_decode r2
            else None
        | _ => None
        end
      else if in_range 0xF0 0xF4 n0 then
        match r0 with
        | b1 :: b2 :: b3 :: r3 =>
            let lo := if (n0 =? 0xF0)%N then 0x90%N else 0x80%N in
            let hi := if (n0 =? 0xF4)%N then 0x8F%N else 0xBF%N in
            if in_range lo hi (Byte.to_N b1)
               && in_range 0x80 0xBF (Byte.to_N b2)
               && in_range 0x80 0xBF (Byte.to_N b3) then
              cons (N.lor (N.shiftl (N.land n0 0x07) 18)
                      (N.lor (N.shiftl (tail6 b1) 12)
                         (N.lor (N.shiftl (tail6 b2) 6) (tail6 b3))))
                <$> utf8_decode r3
            else None
        | _ => None
        end
      else None
  end.

Definition byte_of_N (n : N) : byte := byte_of_Z (Z.of_N n).

(** A continuation byte carrying bits [6k .. 6k+5] of a code point. *)
Definition cont_byte (c : N) (k : N) : byte :=
  byte_of_N (N.lor 0x80 (N.land (N.shiftr c (6 * k)) 0x3F)).

(** UTF-8 encoding of one code point; nothing for a surrogate and for a
    value that is no code point, where the encoder raises. *)
Definition utf8_encode_char (c : N) : option bytes :=
  if (c <? 0x80)%N then Some [byte_of_N c]
  else if (c <? 0x800)%N then
    Some [byte_of_N (N.lor 0xC0 (N.shiftr c 6)); cont_byte c 0]
  else if (c <? 0x10000)%N then
    if in_range 0xD800 0xDFFF c then None
    else Some [byte_of_N (N.lor 0xE0 (N.shiftr c 12)); cont_byte c 1;
               cont_byte c 0]
  else if (c <? 0x110000)%N then
    Some [byte_of_N (N.lor 0xF0 (N.shiftr c 18)); cont_byte c 2;
          cont_byte c 1; cont_byte c 0]
  else None.

Fixpoint utf8_encode (t : text) : option bytes :=
  match t with
  | [] => Some []
  | c :: rest =>
      match utf8_encode_char c, utf8_encode rest with
      | Some b, Some bs => Some (b ++ bs)
      | _, _ => None
      end
  end.

(** A Unicode scalar value: a code point that is no surrogate. *)
Definition scalar (c : N) : bool :=
  (c <? 0x110000)%N && negb (in_range 0xD800 0xDFFF c).

(** Universal newlines on reading: [\r\n] and a lone [\r] become [\n]. *)
Fixpoint universal_newlines (t : text) : text :=
  match t with
  | [] => []
  | c :: rest =>
      if (c =? 13)%N then
        match rest with
        | c' :: rest' =>
            if (c' =? 10)%N then newline :: universal_newlines rest'
            else newline :: universal_newlines rest
        | [] => [newline]
        end
      else c :: universal_newlines rest
  end.

(** [f.readlines()]: the lines of the text, each with its final [\n]; a
    last line without one is kept as it is. *)
Fixpoint readlines_from (current : text) (t : text) : list text :=
  match t with
  | [] => match current with [] => [] | _ => [rev current] end
  | c :: rest =>
      if (c =? newline)%N then rev (c :: current) :: readlines_from [] rest
      else readlines_from (c :: current) rest
  end.

Definition readlines (t : text) : list text := readlines_from [] t.

(** *** Strings *)

(** [str.isspace] of one character, also the class [\s] of [re]. *)
Definition isspace (c : N) : bool :=
  in_range 0x09 0x0D c || in_range 0x1C 0x20 c
  || (c =? 0x85)%N || (c =? 0xA0)%N || (c =? 0x1680)%N
  || in_range 0x2000 0x200A c || (c =? 0x2028)%N || (c =? 0x2029)%N
  || (c =? 0x202F)%N || (c =? 0x205F)%N || (c =? 0x3000)%N.

(** [s.rstrip()]: without its trailing whitespace. *)
Fixpoint rstrip (s : text) : text :=
  match s with
  | [] => []
  | c :: rest =>
      match rstrip rest with
      | [] => if isspace c then [] else [c]
      | rest' => c :: rest'
      end
  end.

(** [s.startswith(prefix)], returning what follows the prefix. *)
Fixpoint strip_prefix (prefix s : text) : option text :=
  match prefix, s with
  | [], _ => Some s
  | p :: prefix', c :: s' =>
      if (p =? c)%N then strip_prefix prefix' s' else None
  | _ :: _, [] => None
  end.

Definition startswith (s prefix : text) : bool :=
  match strip_prefix prefix s with Some _ => true | None => false end.

(** *** Regular expressions: the fragment of [re] the script uses *)

Inductive regex :=
  | Bol                          (* ^ *)
  | Eol                          (* $ *)
  | Lit (s : text)               (* literal characters *)
  | Plus (p : N -> bool)         (* one or more of a class, greedy *)
  | Star (p : N -> bool)         (* zero or more of a class, greedy *)
  | Cat (r1 r2 : regex)
  | Alt (r1 r2 : regex)          (* r1|r2 *)
  | Group (g : nat) (r : regex). (* capturing group number g *)

(** The groups of a match object. *)
Abbreviation groups := (list (nat * text)).

Definition group (m : groups) (g : nat) : text :=
  match find (fun e => (fst e =? g)%nat) m with
  | Some e => snd e
  | None => []
  end.

(** Greedy repetition of a class with backtracking: the longest run is
    tried first, then shorter ones, until the continuation succeeds. *)
Fixpoint star (p : N -> bool) (pos : nat) (s : text)
    (k : nat -> text -> option groups) : option groups :=
  match s with
  | c :: rest =>
      if p c then
        match star p (S pos) rest k with
        | Some m => Some m
        | None => k pos s
        end
      else k pos s
  | [] => k pos []
  end.

(** Backtracking matching from position [pos], where [s] is what is left
    of the subject; [k] matches what follows the expression. *)
Fixpoint run (r : regex) (pos : nat) (s : text) (m : groups)
    (k : nat -> text -> groups -> option groups) : option groups :=
  match r with
  | Bol => if (pos =? 0)%nat then k pos s m else None
  | Eol =>
      match s with
      | [] => k pos s m
      | [c] => if (c =? newline)%N then k pos s m else None
      | _ => None
      end
  | Lit l =>
      match strip_prefix l s with
      | Some rest => k (pos + length l)%nat rest m
      | None => None
      end
  | Plus p =>
      match s with
      | c :: rest =>
          if p c then star p (S pos) rest (fun pos' rest' => k pos' rest' m)
          else None
      | [] => None
      end
  | Star p => star p pos s (fun pos' rest' => k pos' rest' m)
  | Cat r1 r2 =>
      run r1 pos s m (fun pos' rest m' => run r2 pos' rest m' k)
  | Alt r1 r2 =>
      match run r1 pos s m k with
      | Some m' => Some m'
      | None => run r2 pos s m k
      end
  | Group g r' =>
      run r' pos s m
        (fun pos' rest m' => k pos' rest ((g, take (pos' - pos) s) :: m'))
  end.

(** The end of a match: [re.match] asks for nothing after the pattern. *)
Definition final : nat -> text -> groups -> option groups :=
  fun _ _ m => Some m.

(** [re.match(pattern, s)] *)
Definition re_match (r : regex) (s : text) : option groups :=
  run r 0 s [] final.

(** The classes [\S], [.] and [[0-9a-fA-F]]. *)
Definition nonspace (c : N) : bool := negb (isspace c).
Definition dot (c : N) : bool := negb (c =? newline)%N.
Definition hexdigit (c : N) : bool :=
  in_range 48 57 c || in_range 97 102 c || in_range 65 70 c.

Section patterns.

(** The class [\d]: the decimal digits of the Unicode database (category
    Nd) of the running Python. *)
Variable unicode_decimal : N -> bool.

(** [CONFIG_\S+] as group 1. *)
Definition name_group : regex := Group 1 (Cat (Lit (lit "CONFIG_")) (Plus nonspace)).

(** [^# (CONFIG_\S+) is not set$] *)
Definition re_not_set : regex :=
  Cat Bol (Cat (Lit (lit "# ")) (Cat name_group (Cat (Lit (lit " is not set")) Eol))).

(** [^(CONFIG_\S+)=y$] *)
Definition re_yes : regex :=
  Cat Bol (Cat name_group (Cat (Lit (lit "=y")) Eol)).

(** [^(CONFIG_\S+)=n$] *)
Definition re_no : regex :=
  Cat Bol (Cat name_group (Cat (Lit (lit "=n")) Eol)).

(** [=(".*")$], what follows the name in the next pattern. *)
Definition string_tail : regex :=
  Cat (Lit (lit "="))
    (Cat (Group 2 (Cat (Lit [quote]) (Cat (Star dot) (Lit [quote])))) Eol).

(** [^(CONFIG_\S+)=(".*")$] *)
Definition re_string : regex := Cat Bol (Cat name_group string_tail).

(** [=(0x[0-9a-fA-F]+|\d+)$], what follows the name in the next pattern. *)
Definition integer_tail : regex :=
  Cat (Lit (lit "="))
    (Cat (Group 2 (Alt (Cat (Lit (lit "0x")) (Plus hexdigit))
                       (Plus unicode_decimal))) Eol).

(** [^(CONFIG_\S+)=(0x[0-9a-fA-F]+|\d+)$] *)
Definition re_integer : regex := Cat Bol (Cat name_group integer_tail).

(** The body of the loop: what is written for one line of the
    configuration, if anything. *)
Definition convert_line (line0 : text) : option text :=
  let line := rstrip line0 in
  match line with
  | [] => None
  | _ =>
      if startswith line (lit "#") then
        match re_match re_not_set line with
        | Some m => Some (lit "/* " ++ group m 1 ++ lit " is not set */" ++ [newline])
        | None => None
        end
      else
        match re_match re_yes line with
        | Some m => Some (lit "#define " ++ group m 1 ++ lit " 1" ++ [newline])
        | None =>
        match re_match re_no line with
        | Some m => Some (lit "/* " ++ group m 1 ++ lit " is not set */" ++ [newline])
        | None =>
        match re_match re_string line with
        | Some m =>
            Some (lit "#define " ++ group m 1 ++ lit " " ++ group m 2 ++ [newline])
        | None =>
        match re_match re_integer line with
        | Some m =>
            Some (lit "#define " ++ group m 1 ++ lit " " ++ group m 2 ++ [newline])
        | None => None
        end end end end
  end.

(** The strings the script writes before and after the loop. *)
Definition header : list text :=
  [ lit "/* Automatically generated from .config " ++ [8212%N]
      ++ lit " DO NOT EDIT. */" ++ [newline];
    lit "#ifndef AUTOCONF_H" ++ [newline];
    lit "#define AUTOCONF_H" ++ [newline; newline] ].

Definition footer : text :=
  [newline] ++ lit "#endif /* AUTOCONF_H */" ++ [newline].

(** All the [out.write] calls of a run, in order. *)
Definition writes (lines : list text) : list text :=
  header ++ omap convert_line lines ++ [footer].

(** A text file opened for writing with [encoding='utf-8']: each [write]
    encodes its string, [\n] staying one byte as on every POSIX system;
    the first string that cannot be encoded raises, and the file keeps
    what was written before. *)
Fixpoint write_all (ws : list text) : bytes * result :=
  match ws with
  | [] => ([], Returned)
  | t :: rest =>
      match utf8_encode t with
      | Some b => let '(bs, r) := write_all rest in (b ++ bs, r)
      | None => ([], Raised UnicodeEncodeError)
      end
  end.

(** The file system beyond the content of its files: why [open(path)]
    refuses a file that is there ([read_refused]), and why
    [open(path, 'w')] refuses to create or truncate a file
    ([write_refused]: a missing directory, no permission, a directory of
    that name); nothing where [open] succeeds.  Errors of reading or
    writing a file that has been opened, such as a full disk, are left
    out. *)
Variable read_refused : string -> option os_error.
Variable write_refused : string -> option os_error.

(** The function.  The first [with] block opens, reads and decodes the
    whole configuration before the second one opens the output, which
    truncates it; the [with] closes the output on every path, an
    exception included. *)
Definition config_to_autoconf (config_path out_path : string)
    (fs : gmap string bytes) : gmap string bytes * result :=
  match fs !! config_path with
  | None => (fs, Raised (FileNotFoundError config_path))
  | Some raw =>
      match read_refused config_path with
      | Some kind => (fs, Raised (OSError kind config_path))
      | None =>
          match utf8_decode raw with
          | None => (fs, Raised UnicodeDecodeError)
          | Some decoded =>
              let lines := readlines (universal_newlines decoded) in
              match write_refused out_path with
              | Some kind => (fs, Raised (OSError kind out_path))
              | None =>
                  let '(out, r) := write_all (writes lines) in
                  (<[out_path := out]> fs, r)
              end
          end
      end
  end.

End patterns.

End config2autoconf.

(** The ASCII digits, standing in for the class [\d] in closed examples. *)
Definition ascii_decimal (c : N) : bool := config2autoconf.in_range 48 57 c.

(** A configuration of three lines. *)
Definition sample_config : bytes :=
  bytes_of_string "# CONFIG_DEBUG is not set" ++ [Byte.x0a]
    ++ bytes_of_string "CONFIG_HZ=100" ++ [Byte.x0d; Byte.x0a]
    ++ bytes_of_string "CONFIG_SMP=y" ++ [Byte.x0a].

Definition sample_config_text : list N := map Byte.to_N sample_config.

(** Two sample environments: one in which [open] refuses nothing, and one
    without the directory [nodir], so that nothing can be created in
    it. *)
Definition nothing_refused (path : string) : option config2autoconf.os_error :=
  None.

Definition nodir_missing (path : string) : option config2autoconf.os_error :=
  if String.prefix "nodir/" path then Some config2autoconf.NoSuchFile else None.

Definition sample_fs : gmap string bytes :=
  {[ "autoconf.h"%string := bytes_of_string "old";
     "dsp.config"%string := sample_config ]}.

Arguments MD5.digest : simpl never.
Arguments AES.encrypt_cbc : simpl never.
Arguments AES.decrypt_cbc : simpl never.

(** * Properties *)

(** ** The library primitives against their published test vectors *)

(** RFC 1321, appendix A.5. *)
Example md5_of_empty :
  MD5.digest [] = unhex "d41d8cd98f00b204e9800998ecf8427e".
Proof. vm_compute. reflexivity. Qed.

Example md5_of_abc :
  MD5.digest (bytes_of_string "abc") = unhex "900150983cd24fb0d6963f7d28e17f72".
Proof. vm_compute. reflexivity. Qed.

Example md5_of_80_digits :
  MD5.digest (bytes_of_string
    "12345678901234567890123456789012345678901234567890123456789012345678901234567890")
  = unhex "57edf4a22be3c955ac49da2e2107b67a".
Proof. vm_compute. reflexivity. Qed.

(** FIPS 197, appendix C.3: one block under a 256-bit key. *)
Example aes256_fips197_c3 :
  AES.bytes_of_state
    (AES.cipher
       (AES.key_schedule
          (unhex "000102030405060708090a0b0c0d0e0f101112131415161718191a1b1c1d1e1f"))
       (AES.iv_state (unhex "00112233445566778899aabbccddeeff")))
  = unhex "8ea2b7ca516745bfeafc49904b496089".
Proof. vm_compute. reflexivity. Qed.

(** SP 800-38A, F.2.5 and F.2.6: CBC-AES256 on four blocks. *)
Example aes256_cbc_sp800_38a_encrypt :
  AES.encrypt_cbc
    (unhex "603deb1015ca71be2b73aef0857d77811f352c073b6108d72d9810a30914dff4")
    (unhex "000102030405060708090a0b0c0d0e0f")
    (unhex "6bc1bee22e409f96e93d7e117393172aae2d8a571e03ac9c9eb76fac45af8e5130c81c46a35ce411e5fbc1191a0a52eff69f2445df4f9b17ad2b417be66c3710")
  = unhex "f58c4c04d6e5f1ba779eabfb5f7bfbd69cfc4e967edb808d679f777bc6702c7d39f23369a9d9bacfa530e26304231461b2eb05e2c39be9fcda6c19078c6a9d1b".
Proof. vm_compute. reflexivity. Qed.

Example aes256_cbc_sp800_38a_decrypt :
  AES.decrypt_cbc
    (unhex "603deb1015ca71be2b73aef0857d77811f352c073b6108d72d9810a30914dff4")
    (unhex "000102030405060708090a0b0c0d0e0f")
    (unhex "f58c4c04d6e5f1ba779eabfb5f7bfbd69cfc4e967edb808d679f777bc6702c7d39f23369a9d9bacfa530e26304231461b2eb05e2c39be9fcda6c19078c6a9d1b")
  = unhex "6bc1bee22e409f96e93d7e117393172aae2d8a571e03ac9c9eb76fac45af8e5130c81c46a35ce411e5fbc1191a0a52eff69f2445df4f9b17ad2b417be66c3710".
Proof. vm_compute. reflexivity. Qed.

(** ** Strings and maps *)

Lemma string_app_inj (s a b : string) : (s ++ a)%string = (s ++ b)%string -> a = b.
Proof.
  induction s as [|c s IH]; simpl; intros H; [exact H|].
  injection H as H. auto.
Qed.

Lemma string_app_length (s t : string) :
  String.length (s ++ t) = (String.length s + String.length t)%nat.
Proof. induction s; simpl; auto. Qed.

Lemma string_app_ne (s t : string) : (0 < String.length t)%nat -> s <> (s ++ t)%string.
Proof.
  intros Hlen Heq. apply (f_equal String.length) in Heq.
  rewrite string_app_length in Heq. lia.
Qed.

(** ** [decrypt], step by step *)

Lemma decrypt_set_hex_key :
  openssl.set_hex cc_swu_decrypt._KEY 32 = Some decrypt_key.
Proof. reflexivity. Qed.

Lemma decrypt_set_hex_iv :
  openssl.set_hex cc_swu_decrypt._IV 16 = Some decrypt_iv.
Proof. reflexivity. Qed.

(** The complete behaviour of [decrypt] on an input file holding [data]. *)
Lemma decrypt_spec (w : world) (inpath outpath : string) (data : bytes) :
  files w !! inpath = Some data ->
  cc_swu_decrypt.decrypt inpath outpath w =
    if (length data <? 32)%nat then
      (w, Raise (ValueError_file_too_small (length data)))
    else if negb (bool_decide (slice 0 4 data = cc_swu_decrypt.OTA_MAGIC)) then
      (w, Raise (ValueError_bad_magic (slice 0 4 data)))
    else if negb (bool_decide (MD5.digest (payload_of data) = stored_md5_of data)) then
      (w, Raise (ValueError_md5_mismatch (stored_md5_of data)
                   (MD5.digest (payload_of data))))
    else
      (decrypted_world w outpath (payload_of data),
       openssl_outcome RuntimeError_openssl_decryption_failed (payload_of data)).
Proof.
  intros Hin.
  unfold cc_swu_decrypt.decrypt, bind at 1, read_file. rewrite Hin.
  unfold cc_swu_decrypt.HEADER_SIZE.
  destruct (length data <? 32)%nat eqn:Hlen; [reflexivity|].
  apply Nat.ltb_ge in Hlen.
  unfold bind at 1, when at 1, ret at 1.
  unfold bind at 1, struct_unpack_from_I.
  replace (12 + 4 <=? length data)%nat with true
    by (symmetry; apply Nat.leb_le; lia).
  unfold ret at 1. fold (stored_md5_of data) (payload_of data).
  unfold bind at 1, when at 1.
  destruct (negb (bool_decide (slice 0 4 data = cc_swu_decrypt.OTA_MAGIC)));
    [reflexivity|].
  unfold ret at 1, bind at 1, when at 1.
  destruct (negb (bool_decide (MD5.digest (payload_of data) = stored_md5_of data)));
    [reflexivity|].
  unfold ret at 1, try_finally, bind, write_file, openssl.enc, path_exists, when.
  cbn [files runs].
  rewrite lookup_insert_eq, decrypt_set_hex_key, decrypt_set_hex_iv.
  assert (Hne : outpath <> (outpath ++ ".stage1.tmp")%string)
    by (apply string_app_ne; simpl; lia).
  assert (Hex : (<[outpath := AES.decrypt_cbc decrypt_key decrypt_iv (payload_of data)]>
                   (<[(outpath ++ ".stage1.tmp")%string := payload_of data]> (files w)))
                  !! (outpath ++ ".stage1.tmp")%string = Some (payload_of data)).
  { rewrite lookup_insert_ne by exact Hne. apply lookup_insert_eq. }
  assert (Hdel : delete (outpath ++ ".stage1.tmp")%string
                   (<[outpath := AES.decrypt_cbc decrypt_key decrypt_iv (payload_of data)]>
                      (<[(outpath ++ ".stage1.tmp")%string := payload_of data]> (files w)))
                 = delete (outpath ++ ".stage1.tmp")%string
                     (<[outpath := AES.decrypt_cbc decrypt_key decrypt_iv (payload_of data)]>
                        (files w))).
  { rewrite !(delete_insert_ne _ _ outpath) by congruence.
    by rewrite delete_insert_eq. }
  unfold decrypted_world, openssl_outcome, decrypt_run.
  destruct (length (payload_of data) mod 16 =? 0)%nat; simpl;
    unfold ret, unlink; cbn [files runs]; rewrite ?Hex;
    rewrite bool_decide_true by eauto; cbn [files runs]; rewrite ?Hex;
    cbn [files runs]; by rewrite Hdel.
Qed.

(** ** Lengths *)

Lemma le_bytes_length (n : nat) (z : Z) : length (le_bytes n z) = n.
Proof. revert z; induction n; intros; simpl; auto. Qed.

Lemma md5_digest_length (msg : bytes) : length (MD5.digest msg) = 16%nat.
Proof.
  unfold MD5.digest. rewrite !length_app, !le_bytes_length. reflexivity.
Qed.

Lemma zeros_length (n : nat) : length (zeros n) = n.
Proof. apply length_replicate. Qed.

Lemma pad16_aligned (data : bytes) :
  (length (cc_swu_encrypt._pad16 data) mod 16 = 0)%nat.
Proof.
  unfold cc_swu_encrypt._pad16.
  destruct (length data mod 16 =? 0)%nat eqn:Hr.
  - by apply Nat.eqb_eq.
  - apply Nat.eqb_neq in Hr.
    rewrite length_app, zeros_length.
    pose proof (Nat.div_mod_eq (length data) 16) as Hdm.
    pose proof (Nat.mod_upper_bound (length data) 16 ltac:(lia)) as Hlt.
    replace (length data + (16 - length data mod 16))%nat
      with ((1 + length data / 16) * 16)%nat by lia.
    apply Nat.Div0.mod_mul.
Qed.

Lemma header_for_length (payload : bytes) (major minor patch board : Z) :
  length (header_for payload major minor patch board) = 32%nat.
Proof.
  unfold header_for. rewrite !length_app, le_bytes_length, md5_digest_length.
  reflexivity.
Qed.

(** ** [encrypt], step by step *)

Lemma encrypt_set_hex_key :
  openssl.set_hex cc_swu_encrypt._KEY 32 = Some encrypt_key.
Proof. reflexivity. Qed.

Lemma encrypt_set_hex_iv :
  openssl.set_hex cc_swu_encrypt._IV 16 = Some encrypt_iv.
Proof. reflexivity. Qed.

Lemma cleaned_files_eq (f : gmap string bytes) (outpath : string) (p e : bytes) :
  delete (outpath ++ ".enc.tmp")%string
    (delete (outpath ++ ".plain.tmp")%string
       (<[(outpath ++ ".enc.tmp")%string := e]>
          (<[(outpath ++ ".plain.tmp")%string := p]> f)))
  = delete (outpath ++ ".enc.tmp")%string
      (delete (outpath ++ ".plain.tmp")%string f).
Proof.
  assert (Hne : (outpath ++ ".plain.tmp")%string <> (outpath ++ ".enc.tmp")%string).
  { intros H. apply string_app_inj in H. discriminate. }
  rewrite (delete_insert_ne _ (outpath ++ ".plain.tmp")%string) by congruence.
  by rewrite !delete_insert_eq.
Qed.

Lemma land_0xFF_range (x : Z) : 0 <= Z.land x 0xFF < 256.
Proof.
  change 0xFF with (Z.ones 8). rewrite Z.land_ones by lia.
  apply Z.mod_pos_bound. lia.
Qed.

(** [bytes] accepts the four masked arguments, whatever the arguments. *)
Lemma bytes_of_ints_masked (major minor patch board : Z) (w : world) :
  bytes_of_ints [Z.land major 0xFF; Z.land minor 0xFF;
                 Z.land patch 0xFF; Z.land board 0xFF] w
  = (w, Return (firmware_info major minor patch board)).
Proof.
  unfold bytes_of_ints. cbn [forallb].
  pose proof (land_0xFF_range major). pose proof (land_0xFF_range minor).
  pose proof (land_0xFF_range patch). pose proof (land_0xFF_range board).
  repeat match goal with
         | |- context [(0 <=? ?x)] =>
             replace (0 <=? x) with true by (symmetry; apply Z.leb_le; lia)
         | |- context [(?x <? 256)] =>
             replace (x <? 256) with true by (symmetry; apply Z.ltb_lt; lia)
         end.
  reflexivity.
Qed.

(** Without the mask [bytes] refuses every argument outside
    [range(0, 256)]. *)
Lemma bytes_of_ints_rejects (x : Z) (rest : list Z) (w : world) :
  ~ (0 <= x < 256) ->
  bytes_of_ints (x :: rest) w = (w, Raise ValueError_bytes_range).
Proof.
  intros H. unfold bytes_of_ints. cbn [forallb].
  replace ((0 <=? x) && (x <? 256)) with false; [reflexivity|].
  symmetry. apply andb_false_iff.
  destruct (Z.leb_spec 0 x); [|by left]. right. apply Z.ltb_ge. lia.
Qed.

Lemma encrypt_tail_spec (w : world) (zip_bytes : bytes) (outpath : string)
    (major minor patch board : Z) :
  encrypt_tail zip_bytes outpath major minor patch board w =
    if Z.of_nat (length (encrypted_payload zip_bytes)) <? 2 ^ 32 then
      (World (<[outpath := pack zip_bytes major minor patch board]>
                (cleaned_files w outpath))
             (runs w ++ [encrypt_run outpath]),
       Return tt)
    else
      (World (cleaned_files w outpath) (runs w ++ [encrypt_run outpath]),
       Raise struct_error).
Proof.
  unfold encrypt_tail.
  set (P := cc_swu_encrypt._pad16 zip_bytes).
  set (tp := (outpath ++ ".plain.tmp")%string).
  set (te := (outpath ++ ".enc.tmp")%string).
  assert (Hne : tp <> te).
  { intros H. apply string_app_inj in H. discriminate. }
  assert (Htry :
    try_finally
      (write_file tp P ;;
       returncode <- openssl.enc Encrypt tp te cc_swu_encrypt._KEY cc_swu_encrypt._IV ;;
       when (negb (returncode =? 0)) (raise RuntimeError_openssl_encryption_failed) ;;
       read_file te)
      (ex1 <- path_exists tp ;; when ex1 (unlink tp) ;;
       ex2 <- path_exists te ;; when ex2 (unlink te)) w
    = (World (cleaned_files w outpath) (runs w ++ [encrypt_run outpath]),
       Return (encrypted_payload zip_bytes))).
  { unfold try_finally, bind, write_file, openssl.enc, path_exists, when, read_file.
    cbn [files runs].
    rewrite lookup_insert_eq, encrypt_set_hex_key, encrypt_set_hex_iv.
    assert (HP : (length P mod 16)%nat = 0%nat) by apply pad16_aligned.
    rewrite HP.
    change (negb ((if (0 =? 0)%nat then 0 else 1) =? 0)) with false.
    unfold ret. cbv beta iota. cbn [files runs]. rewrite lookup_insert_eq.
    assert (Hex1 : (<[te := AES.encrypt_cbc encrypt_key encrypt_iv P]> (<[tp := P]> (files w)))
                     !! tp = Some P).
    { rewrite lookup_insert_ne by congruence. apply lookup_insert_eq. }
    cbv beta iota. cbn [files runs].
    rewrite bool_decide_true by (rewrite Hex1; eauto).
    unfold unlink. cbn [files runs]. rewrite Hex1. cbv beta iota. cbn [files runs].
    assert (Hex2 : delete tp (<[te := AES.encrypt_cbc encrypt_key encrypt_iv P]>
                                (<[tp := P]> (files w))) !! te
                   = Some (AES.encrypt_cbc encrypt_key encrypt_iv P)).
    { rewrite lookup_delete_ne by congruence. apply lookup_insert_eq. }
    rewrite bool_decide_true by (rewrite Hex2; eauto).
    cbn [files runs]. rewrite Hex2. cbv beta iota. cbn [files runs].
    unfold cleaned_files, encrypt_run, encrypted_payload. fold tp te P.
    do 2 f_equal. apply cleaned_files_eq. }
  unfold bind at 1. rewrite Htry.
  unfold bind at 1. rewrite bytes_of_ints_masked.
  unfold bind at 1, struct_pack_I.
  replace (0 <=? Z.of_nat (length (encrypted_payload zip_bytes))) with true
    by (symmetry; apply Z.leb_le; lia).
  rewrite andb_true_l.
  destruct (Z.of_nat (length (encrypted_payload zip_bytes)) <? 2 ^ 32); [|reflexivity].
  unfold ret at 1, bind at 1.
  fold (firmware_info major minor patch board).
  fold (header_for (encrypted_payload zip_bytes) major minor patch board).
  rewrite header_for_length. reflexivity.
Qed.

(** The complete behaviour of [encrypt]. *)
Lemma encrypt_spec (zipf : zip_writer) (w : world)
    (inpath outpath : string) (major minor patch board : Z) :
  cc_swu_encrypt.encrypt zipf inpath outpath major minor patch board w =
    match input_archive zipf w inpath with
    | Raise e => (w, Raise e)
    | Return zip_bytes =>
        if Z.of_nat (length (encrypted_payload zip_bytes)) <? 2 ^ 32 then
          (World (<[outpath := pack zip_bytes major minor patch board]>
                    (cleaned_files w outpath))
                 (runs w ++ [encrypt_run outpath]),
           Return tt)
        else
          (World (cleaned_files w outpath) (runs w ++ [encrypt_run outpath]),
           Raise struct_error)
    end.
Proof.
  unfold cc_swu_encrypt.encrypt, input_archive.
  unfold bind at 1.
  destruct (endswith inpath ".swu").
  - unfold cc_swu_encrypt._wrap_swu_in_zip, bind at 1, read_file.
    destruct (files w !! inpath) as [content|]; [|reflexivity].
    destruct (zipf inpath "update/update.swu"%string content) as [data| |];
      cbn [zip_outcome]; [|reflexivity..].
    rewrite <- encrypt_tail_spec. reflexivity.
  - unfold bind at 1, read_file.
    destruct (files w !! inpath) as [content|]; [|reflexivity].
    unfold bind at 1, when.
    destruct (bool_decide (slice 0 2 content = bytes_of_string "PK"));
      [|reflexivity].
    rewrite <- encrypt_tail_spec. reflexivity.
Qed.

(** ** Padding *)

Lemma pad16_of_aligned (x : bytes) :
  (length x mod 16 = 0)%nat -> cc_swu_encrypt._pad16 x = x.
Proof.
  intros H. unfold cc_swu_encrypt._pad16. by rewrite H.
Qed.

Lemma pad16_of_unaligned (x : bytes) :
  (length x mod 16 <> 0)%nat ->
  cc_swu_encrypt._pad16 x = x ++ replicate (16 - length x mod 16) x00.
Proof.
  intros H. unfold cc_swu_encrypt._pad16.
  apply Nat.eqb_neq in H. by rewrite H.
Qed.

(** C6: [_pad16] is idempotent, its result length is a multiple of 16, an
    input whose length is already a multiple of 16 comes back unchanged,
    and any other input gets exactly [16 - len mod 16] zero bytes appended. *)
Theorem pad16_idempotent_aligned (x : bytes) :
  cc_swu_encrypt._pad16 (cc_swu_encrypt._pad16 x) = cc_swu_encrypt._pad16 x
  /\ (length (cc_swu_encrypt._pad16 x) mod 16 = 0)%nat
  /\ ((length x mod 16 = 0)%nat -> cc_swu_encrypt._pad16 x = x)
  /\ ((length x mod 16 <> 0)%nat ->
      cc_swu_encrypt._pad16 x = x ++ replicate (16 - length x mod 16) x00).
Proof.
  split; [|split; [|split]].
  - apply pad16_of_aligned, pad16_aligned.
  - apply pad16_aligned.
  - apply pad16_of_aligned.
  - apply pad16_of_unaligned.
Qed.

Lemma pad16_idempotent_aligned_witness :
  cc_swu_encrypt._pad16 (replicate 16 x41) = replicate 16 x41
  /\ cc_swu_encrypt._pad16 [x50; x4b; x03]
     = [x50; x4b; x03] ++ replicate 13 x00.
Proof.
  split.
  - apply (pad16_idempotent_aligned (replicate 16 x41)). reflexivity.
  - apply (pad16_idempotent_aligned [x50; x4b; x03]). simpl. lia.
Defined.

(** ** Magic and size checks of [decrypt] *)

(** C3 (as amended): the size check comes first.  Every input of at
    least 32 bytes whose first four bytes differ from 14 17 0B 17 makes
    [decrypt] fail with the bad-magic error, whatever the rest of the
    content; every input shorter than 32 bytes fails with the
    file-too-small error, whatever its first bytes.  Either way nothing is
    written and [openssl] is not run. *)
Theorem decrypt_bad_magic (w : world) (inpath outpath : string) (data : bytes) :
  files w !! inpath = Some data ->
  ((32 <= length data)%nat ->
   slice 0 4 data <> cc_swu_decrypt.OTA_MAGIC ->
   cc_swu_decrypt.decrypt inpath outpath w
   = (w, Raise (ValueError_bad_magic (slice 0 4 data))))
  /\ ((length data < 32)%nat ->
      cc_swu_decrypt.decrypt inpath outpath w
      = (w, Raise (ValueError_file_too_small (length data)))).
Proof.
  intros Hin. rewrite (decrypt_spec _ _ _ _ Hin). split.
  - intros Hlen Hmagic.
    replace (length data <? 32)%nat with false
      by (symmetry; apply Nat.ltb_ge; lia).
    by rewrite bool_decide_false.
  - intros Hlen.
    by replace (length data <? 32)%nat with true
      by (symmetry; apply Nat.ltb_lt; lia).
Qed.

Lemma decrypt_bad_magic_witness :
  cc_swu_decrypt.decrypt "bad.bin" "out.zip"
    (World {[ "bad.bin"%string := replicate 40 x00 ]} [])
  = (World {[ "bad.bin"%string := replicate 40 x00 ]} [],
     Raise (ValueError_bad_magic [x00; x00; x00; x00]))
  /\ cc_swu_decrypt.decrypt "short.bin" "out.zip"
       (World {[ "short.bin"%string := [x14; x17; x0b; x17; x00] ]} [])
     = (World {[ "short.bin"%string := [x14; x17; x0b; x17; x00] ]} [],
        Raise (ValueError_file_too_small 5)).
Proof.
  split.
  - refine (proj1 (decrypt_bad_magic
                     (World {[ "bad.bin"%string := replicate 40 x00 ]} [])
                     "bad.bin" "out.zip" (replicate 40 x00) _) _ _).
    + reflexivity.
    + simpl. lia.
    + vm_compute. discriminate.
  - refine (proj2 (decrypt_bad_magic
                     (World {[ "short.bin"%string := [x14; x17; x0b; x17; x00] ]} [])
                     "short.bin" "out.zip" [x14; x17; x0b; x17; x00] _) _).
    + reflexivity.
    + simpl. lia.
Defined.

(** C3 as stated fails: a 4-byte input with a wrong magic is rejected by
    the size check, with the file-too-small error. *)
Lemma short_input_is_too_small_not_bad_magic :
  slice 0 4 [x00; x00; x00; x00] <> cc_swu_decrypt.OTA_MAGIC
  /\ cc_swu_decrypt.decrypt "short.bin" "out.zip"
       (World {[ "short.bin"%string := [x00; x00; x00; x00] ]} [])
     = (World {[ "short.bin"%string := [x00; x00; x00; x00] ]} [],
        Raise (ValueError_file_too_small 4)).
Proof.
  split.
  - vm_compute. discriminate.
  - reflexivity.
Qed.

(** ** Integrity check of [decrypt] *)

Lemma decrypt_checked_fields_agree (data data' : bytes) :
  (32 <= length data)%nat ->
  take 12 data' = take 12 data ->
  drop 16 data' = drop 16 data ->
  length data' = length data
  /\ slice 0 4 data' = slice 0 4 data
  /\ stored_md5_of data' = stored_md5_of data
  /\ payload_of data' = payload_of data.
Proof.
  intros Hlen Htake Hdrop.
  assert (Hl : length data' = length data).
  { apply (f_equal length) in Hdrop. rewrite !length_drop in Hdrop.
    apply (f_equal length) in Htake. rewrite !length_take in Htake. lia. }
  split; [exact Hl|].
  unfold slice, stored_md5_of, payload_of, slice. simpl.
  split; [|split].
  - rewrite !drop_0.
    replace (take 4 data') with (take 4 (take 12 data'))
      by (rewrite take_take; reflexivity).
    rewrite Htake, take_take. reflexivity.
  - by rewrite Hdrop.
  - change 32%nat with (16 + 16)%nat. rewrite <- !drop_drop. by rewrite Hdrop.
Qed.

(** Past the three checks, [decrypt] runs [openssl] on the payload. *)
Lemma decrypt_checks_pass (w : world) (inpath outpath : string) (data : bytes) :
  files w !! inpath = Some data ->
  (32 <= length data)%nat ->
  slice 0 4 data = cc_swu_decrypt.OTA_MAGIC ->
  MD5.digest (payload_of data) = stored_md5_of data ->
  cc_swu_decrypt.decrypt inpath outpath w
  = (decrypted_world w outpath (payload_of data),
     openssl_outcome RuntimeError_openssl_decryption_failed (payload_of data)).
Proof.
  intros Hin Hlen Hmagic Hmd5. rewrite (decrypt_spec _ _ _ _ Hin).
  replace (length data <? 32)%nat with false
    by (symmetry; apply Nat.ltb_ge; lia).
  rewrite bool_decide_true by exact Hmagic.
  by rewrite bool_decide_true.
Qed.

(** C2: once the size and magic checks have passed, [decrypt] recomputes
    the digest of the payload (everything after offset 32) and compares it
    with the stored one before [openssl] is run: on a mismatch it fails
    with the MD5-mismatch error and leaves the world untouched (no file
    written, no [openssl] run); on a match it goes on to decryption.  The
    declared payload length plays no part: two containers that differ only
    in bytes 12..15 get the same outcome. *)
Theorem decrypt_verifies_digest_before_decrypting
    (w : world) (inpath outpath : string) (data : bytes) :
  files w !! inpath = Some data ->
  (32 <= length data)%nat ->
  slice 0 4 data = cc_swu_decrypt.OTA_MAGIC ->
  (MD5.digest (payload_of data) <> stored_md5_of data ->
   cc_swu_decrypt.decrypt inpath outpath w
   = (w, Raise (ValueError_md5_mismatch (stored_md5_of data)
                  (MD5.digest (payload_of data)))))
  /\ (MD5.digest (payload_of data) = stored_md5_of data ->
      cc_swu_decrypt.decrypt inpath outpath w
      = (decrypted_world w outpath (payload_of data),
         openssl_outcome RuntimeError_openssl_decryption_failed
           (payload_of data)))
  /\ (forall (w' : world) (data' : bytes),
        files w' !! inpath = Some data' ->
        take 12 data' = take 12 data ->
        drop 16 data' = drop 16 data ->
        snd (cc_swu_decrypt.decrypt inpath outpath w')
        = snd (cc_swu_decrypt.decrypt inpath outpath w)).
Proof.
  intros Hin Hlen Hmagic.
  assert (Hlt : (length data <? 32)%nat = false) by (apply Nat.ltb_ge; lia).
  split; [|split].
  - intros Hmd5. rewrite (decrypt_spec _ _ _ _ Hin), Hlt.
    rewrite bool_decide_true by exact Hmagic.
    by rewrite bool_decide_false.
  - intros Hmd5. by apply decrypt_checks_pass.
  - intros w' data' Hin' Htake Hdrop.
    destruct (decrypt_checked_fields_agree data data' Hlen Htake Hdrop)
      as (Hl & Hm & Hs & Hp).
    rewrite (decrypt_spec _ _ _ _ Hin), (decrypt_spec _ _ _ _ Hin').
    rewrite Hl, Hm, Hs, Hp, Hlt.
    destruct (negb (bool_decide (slice 0 4 data = cc_swu_decrypt.OTA_MAGIC)));
      [reflexivity|].
    destruct (negb (bool_decide (MD5.digest (payload_of data) = stored_md5_of data)));
      reflexivity.
Qed.

(** A container whose declared payload length (0xFFFFFFFF) is not the
    length of its payload (144) is decrypted all the same. *)
Lemma decrypt_verifies_digest_before_decrypting_witness :
  declared_length_of sample_container_other_header
    <> Z.of_nat (length (payload_of sample_container_other_header))
  /\ cc_swu_decrypt.decrypt "update.bin" "out.zip"
       (World {[ "update.bin"%string := sample_container_other_header ]} [])
     = (decrypted_world
          (World {[ "update.bin"%string := sample_container_other_header ]} [])
          "out.zip" (payload_of sample_container_other_header),
        openssl_outcome RuntimeError_openssl_decryption_failed
          (payload_of sample_container_other_header)).
Proof.
  split.
  - vm_compute. discriminate.
  - apply (decrypt_verifies_digest_before_decrypting
             (World {[ "update.bin"%string := sample_container_other_header ]} [])
             "update.bin" "out.zip" sample_container_other_header).
    + reflexivity.
    + vm_compute. lia.
    + reflexivity.
    + vm_compute. reflexivity.
Defined.

(** ** The decoded bytes depend on the payload only *)

Lemma decrypted_world_output (w : world) (outpath : string) (payload : bytes) :
  files (decrypted_world w outpath payload) !! outpath
  = Some (AES.decrypt_cbc decrypt_key decrypt_iv payload).
Proof.
  unfold decrypted_world. cbn [files].
  rewrite lookup_delete_ne.
  - apply lookup_insert_eq.
  - intros H. symmetry in H. revert H. apply string_app_ne. simpl. lia.
Qed.

(** C10: two containers that pass the size, magic and integrity checks and
    carry the same payload (the bytes from offset 32 on) are decoded to the
    same bytes with the same outcome; the output is the CBC decryption of
    the payload under the fixed key and IV, whatever the version, board,
    custom-info and payload-length fields hold. *)
Theorem decrypt_output_depends_on_payload_only
    (w1 w2 : world) (in1 in2 outpath : string) (d1 d2 : bytes) :
  files w1 !! in1 = Some d1 ->
  files w2 !! in2 = Some d2 ->
  (32 <= length d1)%nat ->
  (32 <= length d2)%nat ->
  slice 0 4 d1 = cc_swu_decrypt.OTA_MAGIC ->
  slice 0 4 d2 = cc_swu_decrypt.OTA_MAGIC ->
  MD5.digest (payload_of d1) = stored_md5_of d1 ->
  MD5.digest (payload_of d2) = stored_md5_of d2 ->
  payload_of d1 = payload_of d2 ->
  snd (cc_swu_decrypt.decrypt in1 outpath w1)
    = snd (cc_swu_decrypt.decrypt in2 outpath w2)
  /\ files (fst (cc_swu_decrypt.decrypt in1 outpath w1)) !! outpath
     = Some (AES.decrypt_cbc decrypt_key decrypt_iv (payload_of d1))
  /\ files (fst (cc_swu_decrypt.decrypt in2 outpath w2)) !! outpath
     = Some (AES.decrypt_cbc decrypt_key decrypt_iv (payload_of d1)).
Proof.
  intros Hin1 Hin2 Hl1 Hl2 Hm1 Hm2 Hd1 Hd2 Hp.
  rewrite (decrypt_checks_pass w1 in1 outpath d1) by assumption.
  rewrite (decrypt_checks_pass w2 in2 outpath d2) by assumption.
  cbn [fst snd]. rewrite <- Hp.
  split; [reflexivity|].
  split; apply decrypted_world_output.
Qed.

Lemma decrypt_output_depends_on_payload_only_witness :
  snd (cc_swu_decrypt.decrypt "a.bin" "out.zip"
         (World {[ "a.bin"%string := sample_container ]} []))
    = snd (cc_swu_decrypt.decrypt "b.bin" "out.zip"
             (World {[ "b.bin"%string := sample_container_other_header ]} []))
  /\ files (fst (cc_swu_decrypt.decrypt "a.bin" "out.zip"
                   (World {[ "a.bin"%string := sample_container ]} [])))
       !! "out.zip"%string
     = Some (AES.decrypt_cbc decrypt_key decrypt_iv (payload_of sample_container))
  /\ files (fst (cc_swu_decrypt.decrypt "b.bin" "out.zip"
                   (World {[ "b.bin"%string := sample_container_other_header ]} [])))
       !! "out.zip"%string
     = Some (AES.decrypt_cbc decrypt_key decrypt_iv (payload_of sample_container)).
Proof.
  apply (decrypt_output_depends_on_payload_only
           (World {[ "a.bin"%string := sample_container ]} [])
           (World {[ "b.bin"%string := sample_container_other_header ]} [])
           "a.bin" "b.bin" "out.zip"
           sample_container sample_container_other_header).
  - reflexivity.
  - reflexivity.
  - vm_compute. lia.
  - vm_compute. lia.
  - reflexivity.
  - reflexivity.
  - vm_compute. reflexivity.
  - vm_compute. reflexivity.
  - reflexivity.
Defined.

(** ** Lengths of the cipher output *)

Lemma group4_ind {A : Type} (P : list A -> Prop) :
  P [] -> (forall a, P [a]) -> (forall a b, P [a; b]) ->
  (forall a b c, P [a; b; c]) ->
  (forall a b c d l, P l -> P (a :: b :: c :: d :: l)) ->
  forall l, P l.
Proof.
  intros H0 H1 H2 H3 H4.
  fix IH 1.
  intros [|a [|b [|c [|d l]]]];
    [apply H0 | apply H1 | apply H2 | apply H3 | apply H4, IH].
Qed.

Lemma div4_step (n : nat) : (S (S (S (S n))) / 4 = S (n / 4))%nat.
Proof.
  change (S (S (S (S n)))) with (4 + n)%nat.
  replace (4 + n)%nat with (1 * 4 + n)%nat by lia.
  rewrite Nat.div_add_l by lia. lia.
Qed.

Lemma words_of_bytes_length (bs : bytes) :
  length (AES.words_of_bytes bs) = (length bs / 4)%nat.
Proof.
  induction bs as [| | | |a b c d l IH] using group4_ind; try reflexivity.
  cbn [AES.words_of_bytes length]. rewrite IH, div4_step. reflexivity.
Qed.

Lemma states_of_words_length (ws : list AES.word) :
  length (AES.states_of_words ws) = (length ws / 4)%nat.
Proof.
  induction ws as [| | | |a b c d l IH] using group4_ind; try reflexivity.
  cbn [AES.states_of_words length]. rewrite IH, div4_step. reflexivity.
Qed.

Lemma blocks_length (bs : bytes) :
  length (AES.blocks bs) = (length bs / 16)%nat.
Proof.
  unfold AES.blocks.
  rewrite states_of_words_length, words_of_bytes_length.
  rewrite Nat.Div0.div_div. reflexivity.
Qed.

Lemma unblocks_length (ss : list AES.state) :
  length (AES.unblocks ss) = (16 * length ss)%nat.
Proof.
  unfold AES.unblocks.
  induction ss as [|[[[[[[a0 a1] a2] a3] [[[b0 b1] b2] b3]]
                       [[[c0 c1] c2] c3]] [[[d0 d1] d2] d3]] ss IH];
    [reflexivity|].
  cbn [flat_map]. rewrite length_app, IH. cbn. lia.
Qed.

Lemma cbc_encrypt_length (ks : list AES.state) (iv : AES.state)
    (ps : list AES.state) :
  length (AES.cbc_encrypt ks iv ps) = length ps.
Proof.
  revert iv; induction ps as [|p ps IH]; intros iv; simpl; auto.
Qed.

Lemma cbc_decrypt_length (ks : list AES.state) (iv : AES.state)
    (cs : list AES.state) :
  length (AES.cbc_decrypt ks iv cs) = length cs.
Proof.
  revert iv; induction cs as [|c cs IH]; intros iv; simpl; auto.
Qed.

Lemma encrypt_cbc_length (key iv data : bytes) :
  (length data mod 16 = 0)%nat ->
  length (AES.encrypt_cbc key iv data) = length data.
Proof.
  intros H. unfold AES.encrypt_cbc.
  rewrite unblocks_length, cbc_encrypt_length, blocks_length.
  pose proof (Nat.div_mod_eq (length data) 16). lia.
Qed.

Lemma encrypted_payload_length (zip_bytes : bytes) :
  length (encrypted_payload zip_bytes)
  = length (cc_swu_encrypt._pad16 zip_bytes).
Proof. apply encrypt_cbc_length, pad16_aligned. Qed.

(** [encrypt] succeeds on every archive whose padded length fits the
    32-bit length field, and writes [pack] of it. *)
Lemma encrypt_succeeds (zipf : zip_writer) (w : world)
    (inpath outpath : string) (major minor patch board : Z) (zip_bytes : bytes) :
  input_archive zipf w inpath = Return zip_bytes ->
  Z.of_nat (length (cc_swu_encrypt._pad16 zip_bytes)) < 2 ^ 32 ->
  cc_swu_encrypt.encrypt zipf inpath outpath major minor patch board w
  = (World (<[outpath := pack zip_bytes major minor patch board]>
              (cleaned_files w outpath))
           (runs w ++ [encrypt_run outpath]),
     Return tt).
Proof.
  intros Hin Hlen. rewrite encrypt_spec, Hin, encrypted_payload_length.
  by replace (Z.of_nat (length (cc_swu_encrypt._pad16 zip_bytes)) <? 2 ^ 32)
    with true by (symmetry; apply Z.ltb_lt; exact Hlen).
Qed.

(** ** Bytes and integers *)

Lemma Z_of_byte_range (b : byte) : 0 <= Z_of_byte b < 256.
Proof.
  unfold Z_of_byte. pose proof (Byte.to_N_bounded b). lia.
Qed.

Lemma land_0xFF (z : Z) : Z.land z 0xFF = z mod 256.
Proof. change 0xFF with (Z.ones 8). by rewrite Z.land_ones. Qed.

Lemma Z_of_byte_of_Z (z : Z) : Z_of_byte (byte_of_Z z) = z mod 256.
Proof.
  unfold Z_of_byte, byte_of_Z. rewrite land_0xFF.
  pose proof (Z.mod_pos_bound z 256 ltac:(lia)) as Hr.
  destruct (Byte.of_N (Z.to_N (z mod 256))) as [b|] eqn:Hb; simpl.
  - apply Byte.to_of_N in Hb. rewrite Hb. lia.
  - apply Byte.of_N_None_iff in Hb. lia.
Qed.

Lemma byte_of_Z_of_byte (b : byte) : byte_of_Z (Z_of_byte b) = b.
Proof.
  unfold byte_of_Z.
  rewrite land_0xFF, Z.mod_small by apply Z_of_byte_range.
  unfold Z_of_byte. rewrite N2Z.id, Byte.of_to_N. reflexivity.
Qed.

Lemma le_int_le_bytes (n : nat) (z : Z) :
  le_int (le_bytes n z) = z mod 256 ^ Z.of_nat n.
Proof.
  revert z; induction n as [|n IH]; intros z.
  - simpl. by rewrite Z.mod_1_r.
  - cbn [le_bytes le_int]. rewrite IH, Z_of_byte_of_Z.
    rewrite Nat2Z.inj_succ, Z.pow_succ_r by lia.
    rewrite Z.rem_mul_r by lia. reflexivity.
Qed.

Lemma le_int_le_bytes_4 (z : Z) : 0 <= z < 2 ^ 32 -> le_int (le_bytes 4 z) = z.
Proof.
  intros H. rewrite le_int_le_bytes.
  change (256 ^ Z.of_nat 4) with (2 ^ 32). by apply Z.mod_small.
Qed.

(** ** The container [encrypt] writes *)

Lemma pack_layout (zip_bytes : bytes) (major minor patch board : Z) :
  pack zip_bytes major minor patch board
  = [x14; x17; x0b; x17]
      ++ [byte_of_Z (Z.land major 0xFF); byte_of_Z (Z.land minor 0xFF);
          byte_of_Z (Z.land patch 0xFF); byte_of_Z (Z.land board 0xFF)]
      ++ [x01; x00; x00; x00]
      ++ le_bytes 4 (Z.of_nat (length (encrypted_payload zip_bytes)))
      ++ MD5.digest (encrypted_payload zip_bytes)
      ++ encrypted_payload zip_bytes.
Proof.
  unfold pack, header_for, firmware_info,
    cc_swu_encrypt.OTA_MAGIC, cc_swu_encrypt.CUSTOM_INFO.
  by rewrite <- !app_assoc.
Qed.

(** C7: for all integer version and board arguments, [encrypt] succeeds
    whenever it does for the archive at hand, and bytes 4..7 of the
    container hold the arguments reduced to their low 8 bits; no value is
    rejected: [bytes] refuses an integer outside [range(0, 256)], and the
    mask keeps every argument inside. *)
Theorem encrypt_masks_version_fields
    (zipf : zip_writer) (w : world)
    (inpath outpath : string) (major minor patch board : Z)
    (zip_bytes : bytes) :
  input_archive zipf w inpath = Return zip_bytes ->
  Z.of_nat (length (cc_swu_encrypt._pad16 zip_bytes)) < 2 ^ 32 ->
  exists out : bytes,
    cc_swu_encrypt.encrypt zipf inpath outpath major minor patch board w
    = (World (<[outpath := out]> (cleaned_files w outpath))
             (runs w ++ [encrypt_run outpath]),
       Return tt)
    /\ map Z_of_byte (slice 4 8 out)
       = [Z.land major 0xFF; Z.land minor 0xFF;
          Z.land patch 0xFF; Z.land board 0xFF]
    /\ Z.land major 0xFF = major mod 2 ^ 8
    /\ Z.land minor 0xFF = minor mod 2 ^ 8
    /\ Z.land patch 0xFF = patch mod 2 ^ 8
    /\ Z.land board 0xFF = board mod 2 ^ 8.
Proof.
  intros Hin Hlen.
  exists (pack zip_bytes major minor patch board).
  split; [by apply encrypt_succeeds|].
  split; [|repeat split; apply land_0xFF].
  rewrite pack_layout. cbn [slice app drop take Nat.sub map].
  rewrite !Z_of_byte_of_Z, !land_0xFF.
  by rewrite !Z.mod_mod.
Qed.

Lemma encrypt_masks_version_fields_witness :
  exists out : bytes,
    cc_swu_encrypt.encrypt sample_zipfile "firmware.zip" "update.bin"
      300 (-1) 256 7 (World {[ "firmware.zip"%string := sample_zip ]} [])
    = (World (<["update.bin"%string := out]>
                (cleaned_files (World {[ "firmware.zip"%string := sample_zip ]} [])
                   "update.bin"))
             [encrypt_run "update.bin"],
       Return tt)
    /\ map Z_of_byte (slice 4 8 out) = [44; 255; 0; 7].
Proof.
  destruct (encrypt_masks_version_fields sample_zipfile
              (World {[ "firmware.zip"%string := sample_zip ]} [])
              "firmware.zip" "update.bin" 300 (-1) 256 7 sample_zip)
    as (out & Hrun & Hbytes & _).
  - reflexivity.
  - vm_compute. reflexivity.
  - exists out. split; [exact Hrun | exact Hbytes].
Defined.

(** C8: whenever [encrypt] has an archive to pack, the file it writes is a
    header of exactly 32 bytes (the magic 14 17 0B 17, the four masked
    version and board bytes, the custom info 01 00 00 00, the payload
    length as a little-endian 32-bit integer, the 16-byte MD5 digest of the
    payload) followed at once by the encrypted payload, and the length
    field decodes to the payload's byte count.  With version (1,1,46) and
    board 0 the first eight bytes are 14 17 0B 17 01 01 2E 00. *)
Theorem encrypt_container_layout
    (zipf : zip_writer) (w : world)
    (inpath outpath : string) (major minor patch board : Z)
    (zip_bytes : bytes) :
  input_archive zipf w inpath = Return zip_bytes ->
  Z.of_nat (length (cc_swu_encrypt._pad16 zip_bytes)) < 2 ^ 32 ->
  exists header payload : bytes,
    cc_swu_encrypt.encrypt zipf inpath outpath major minor patch board w
    = (World (<[outpath := header ++ payload]> (cleaned_files w outpath))
             (runs w ++ [encrypt_run outpath]),
       Return tt)
    /\ payload
       = AES.encrypt_cbc encrypt_key encrypt_iv (cc_swu_encrypt._pad16 zip_bytes)
    /\ header
       = [x14; x17; x0b; x17]
           ++ [byte_of_Z (Z.land major 0xFF); byte_of_Z (Z.land minor 0xFF);
               byte_of_Z (Z.land patch 0xFF); byte_of_Z (Z.land board 0xFF)]
           ++ [x01; x00; x00; x00]
           ++ le_bytes 4 (Z.of_nat (length payload))
           ++ MD5.digest payload
    /\ length header = 32%nat
    /\ length (MD5.digest payload) = 16%nat
    /\ le_int (le_bytes 4 (Z.of_nat (length payload))) = Z.of_nat (length payload)
    /\ (major = 1 -> minor = 1 -> patch = 46 -> board = 0 ->
        take 8 (header ++ payload)
        = [x14; x17; x0b; x17; x01; x01; x2e; x00]).
Proof.
  intros Hin Hlen.
  exists (header_for (encrypted_payload zip_bytes) major minor patch board),
         (encrypted_payload zip_bytes).
  split; [by apply encrypt_succeeds|].
  split; [reflexivity|].
  split; [reflexivity|].
  split; [apply header_for_length|].
  split; [apply md5_digest_length|].
  split.
  - apply le_int_le_bytes_4. rewrite encrypted_payload_length. lia.
  - intros -> -> -> ->. reflexivity.
Qed.

Lemma encrypt_container_layout_witness :
  exists header payload : bytes,
    cc_swu_encrypt.encrypt sample_zipfile "firmware.zip" "update.bin"
      1 1 46 0 (World {[ "firmware.zip"%string := sample_zip ]} [])
    = (World (<["update.bin"%string := header ++ payload]>
                (cleaned_files (World {[ "firmware.zip"%string := sample_zip ]} [])
                   "update.bin"))
             [encrypt_run "update.bin"],
       Return tt)
    /\ length header = 32%nat
    /\ take 8 (header ++ payload) = [x14; x17; x0b; x17; x01; x01; x2e; x00].
Proof.
  destruct (encrypt_container_layout sample_zipfile
              (World {[ "firmware.zip"%string := sample_zip ]} [])
              "firmware.zip" "update.bin" 1 1 46 0 sample_zip)
    as (header & payload & Hrun & _ & _ & Hlen & _ & _ & Hfirst).
  - reflexivity.
  - vm_compute. reflexivity.
  - exists header, payload.
    split; [exact Hrun|]. split; [exact Hlen|].
    apply Hfirst; reflexivity.
Defined.

(** ** The input branch of [encrypt] *)

(** C9: [encrypt] branches on its input before packing.  A path ending in
    [.swu] is handed to the archive writer under the entry name
    [update/update.swu]: the archive the library returns is what gets
    packed, with no look at its signature; when the library refuses the
    file, its error ends the run and the world is as before.  Any other
    input is packed as it is when it starts with the two bytes [PK]; when
    it does not, [encrypt] fails with the not-a-ZIP error and the world is
    as before: nothing padded, no [openssl] run, no file written. *)
Theorem encrypt_input_branch
    (zipf : zip_writer) (w : world)
    (inpath outpath : string) (major minor patch board : Z)
    (content : bytes) :
  files w !! inpath = Some content ->
  (endswith inpath ".swu" = true ->
   forall archive : bytes,
   zipf inpath "update/update.swu"%string content = Archive archive ->
   Z.of_nat (length (cc_swu_encrypt._pad16 archive)) < 2 ^ 32 ->
   cc_swu_encrypt.encrypt zipf inpath outpath major minor patch board w
   = (World (<[outpath := pack archive major minor patch board]>
               (cleaned_files w outpath))
            (runs w ++ [encrypt_run outpath]),
      Return tt))
  /\ (endswith inpath ".swu" = true ->
      forall e : exn,
      zip_outcome (zipf inpath "update/update.swu"%string content) = Raise e ->
      cc_swu_encrypt.encrypt zipf inpath outpath major minor patch board w
      = (w, Raise e))
  /\ (endswith inpath ".swu" = false ->
      slice 0 2 content = [x50; x4b] ->
      Z.of_nat (length (cc_swu_encrypt._pad16 content)) < 2 ^ 32 ->
      cc_swu_encrypt.encrypt zipf inpath outpath major minor patch board w
      = (World (<[outpath := pack content major minor patch board]>
                  (cleaned_files w outpath))
               (runs w ++ [encrypt_run outpath]),
         Return tt))
  /\ (endswith inpath ".swu" = false ->
      slice 0 2 content <> [x50; x4b] ->
      cc_swu_encrypt.encrypt zipf inpath outpath major minor patch board w
      = (w, Raise (ValueError_not_a_zip (slice 0 4 content)))).
Proof.
  intros Hin. split; [|split; [|split]].
  - intros Hswu archive Hzip Hlen. apply encrypt_succeeds; [|exact Hlen].
    unfold input_archive. by rewrite Hin, Hswu, Hzip.
  - intros Hswu e Hzip. rewrite encrypt_spec.
    unfold input_archive. by rewrite Hin, Hswu, Hzip.
  - intros Hswu Hpk Hlen. apply encrypt_succeeds; [|exact Hlen].
    unfold input_archive. rewrite Hin, Hswu.
    by rewrite bool_decide_true by exact Hpk.
  - intros Hswu Hpk. rewrite encrypt_spec.
    unfold input_archive. rewrite Hin, Hswu.
    by rewrite bool_decide_false by exact Hpk.
Qed.

Lemma encrypt_input_branch_witness :
  cc_swu_encrypt.encrypt sample_zipfile "update.swu" "update.bin" 1 1 46 0
    (World {[ "update.swu"%string := sample_swu ]} [])
  = (World (<["update.bin"%string := pack sample_wrapped_swu 1 1 46 0]>
              (cleaned_files (World {[ "update.swu"%string := sample_swu ]} [])
                 "update.bin"))
           [encrypt_run "update.bin"],
     Return tt)
  /\ cc_swu_encrypt.encrypt sample_zipfile "old.swu" "update.bin" 1 1 46 0
       (World {[ "old.swu"%string := bytes_of_string "old" ]} [])
     = (World {[ "old.swu"%string := bytes_of_string "old" ]} [],
        Raise ValueError_zip_timestamp)
  /\ cc_swu_encrypt.encrypt sample_zipfile "firmware.zip" "update.bin" 1 1 46 0
       (World {[ "firmware.zip"%string := sample_zip ]} [])
     = (World (<["update.bin"%string := sample_container]>
                 (cleaned_files (World {[ "firmware.zip"%string := sample_zip ]} [])
                    "update.bin"))
              [encrypt_run "update.bin"],
        Return tt)
  /\ cc_swu_encrypt.encrypt sample_zipfile "notes.txt" "update.bin" 1 1 46 0
       (World {[ "notes.txt"%string := sample_swu ]} [])
     = (World {[ "notes.txt"%string := sample_swu ]} [],
        Raise (ValueError_not_a_zip sample_swu)).
Proof.
  split; [|split; [|split]].
  - refine (proj1 (encrypt_input_branch sample_zipfile
                     (World {[ "update.swu"%string := sample_swu ]} [])
                     "update.swu" "update.bin" 1 1 46 0 sample_swu _) _ _ _ _).
    + reflexivity.
    + reflexivity.
    + reflexivity.
    + vm_compute. reflexivity.
  - refine (proj1 (proj2 (encrypt_input_branch sample_zipfile
                     (World {[ "old.swu"%string := bytes_of_string "old" ]} [])
                     "old.swu" "update.bin" 1 1 46 0 (bytes_of_string "old")
                     _)) _ _ _).
    + reflexivity.
    + reflexivity.
    + reflexivity.
  - refine (proj1 (proj2 (proj2 (encrypt_input_branch sample_zipfile
                     (World {[ "firmware.zip"%string := sample_zip ]} [])
                     "firmware.zip" "update.bin" 1 1 46 0 sample_zip _))) _ _ _).
    + reflexivity.
    + reflexivity.
    + reflexivity.
    + vm_compute. reflexivity.
  - refine (proj2 (proj2 (proj2 (encrypt_input_branch sample_zipfile
                     (World {[ "notes.txt"%string := sample_swu ]} [])
                     "notes.txt" "update.bin" 1 1 46 0 sample_swu _))) _ _).
    + reflexivity.
    + reflexivity.
    + vm_compute. discriminate.
Defined.

(** ** The empty archive *)

Lemma pack_empty (major minor patch board : Z) :
  pack [] major minor patch board
  = header_for [] major minor patch board.
Proof. unfold pack. change (encrypted_payload []) with (@nil byte). apply app_nil_r. Qed.

(** C4 (as amended): a zero-length input that is not a [.swu] path is
    rejected by the signature check with the not-a-ZIP error and nothing is
    written.  Padding leaves the empty byte string empty, so steps 2 to 6
    on an empty archive write exactly the 32 header bytes, an empty payload
    and a payload length of 0: a multiple of 16, not a positive one. *)
Theorem encrypt_empty_archive
    (zipf : zip_writer) (w : world)
    (inpath outpath : string) (major minor patch board : Z) :
  endswith inpath ".swu" = false ->
  files w !! inpath = Some [] ->
  cc_swu_encrypt.encrypt zipf inpath outpath major minor patch board w
    = (w, Raise (ValueError_not_a_zip []))
  /\ cc_swu_encrypt._pad16 [] = []
  /\ encrypt_tail [] outpath major minor patch board w
     = (World (<[outpath := pack [] major minor patch board]>
                 (cleaned_files w outpath))
              (runs w ++ [encrypt_run outpath]),
        Return tt)
  /\ length (pack [] major minor patch board) = 32%nat
  /\ payload_of (pack [] major minor patch board) = []
  /\ declared_length_of (pack [] major minor patch board) = 0.
Proof.
  intros Hswu Hin. split; [|split; [|split; [|split; [|split]]]].
  - rewrite encrypt_spec. unfold input_archive. by rewrite Hin, Hswu.
  - reflexivity.
  - by rewrite encrypt_tail_spec.
  - rewrite pack_empty. apply header_for_length.
  - rewrite pack_layout. reflexivity.
  - rewrite pack_layout. reflexivity.
Qed.

Lemma encrypt_empty_archive_witness :
  cc_swu_encrypt.encrypt sample_zipfile "empty.zip" "update.bin" 1 1 46 0
    (World {[ "empty.zip"%string := [] ]} [])
  = (World {[ "empty.zip"%string := [] ]} [], Raise (ValueError_not_a_zip [])).
Proof.
  apply (encrypt_empty_archive sample_zipfile
           (World {[ "empty.zip"%string := [] ]} [])
           "empty.zip" "update.bin" 1 1 46 0); reflexivity.
Defined.

(** C4 as stated fails: packing the empty archive does not succeed, and
    the payload length the header would carry for it is 0. *)
Lemma empty_archive_not_packed :
  snd (cc_swu_encrypt.encrypt sample_zipfile "empty.zip" "update.bin" 0 0 0 0
         (World {[ "empty.zip"%string := [] ]} []))
    = Raise (ValueError_not_a_zip [])
  /\ files (fst (cc_swu_encrypt.encrypt sample_zipfile "empty.zip" "update.bin"
                   0 0 0 0 (World {[ "empty.zip"%string := [] ]} [])))
       !! "update.bin"%string = None
  /\ declared_length_of (pack [] 0 0 0 0) = 0
  /\ ~ (0 < declared_length_of (pack [] 0 0 0 0)).
Proof.
  repeat split; try reflexivity. vm_compute. discriminate.
Qed.

(** ** Decoding a freshly packed container *)

Lemma pack_length (zip_bytes : bytes) (major minor patch board : Z) :
  length (pack zip_bytes major minor patch board)
  = (32 + length (encrypted_payload zip_bytes))%nat.
Proof. unfold pack. by rewrite length_app, header_for_length. Qed.

Lemma pack_magic (zip_bytes : bytes) (major minor patch board : Z) :
  slice 0 4 (pack zip_bytes major minor patch board) = cc_swu_decrypt.OTA_MAGIC.
Proof. rewrite pack_layout. reflexivity. Qed.

Lemma pack_stored_md5 (zip_bytes : bytes) (major minor patch board : Z) :
  stored_md5_of (pack zip_bytes major minor patch board)
  = MD5.digest (encrypted_payload zip_bytes).
Proof.
  rewrite pack_layout.
  change (take 16 (MD5.digest (encrypted_payload zip_bytes)
                     ++ encrypted_payload zip_bytes)
          = MD5.digest (encrypted_payload zip_bytes)).
  apply (take_app_length' (MD5.digest (encrypted_payload zip_bytes))).
  symmetry. apply md5_digest_length.
Qed.

Lemma pack_payload (zip_bytes : bytes) (major minor patch board : Z) :
  payload_of (pack zip_bytes major minor patch board)
  = encrypted_payload zip_bytes.
Proof.
  unfold payload_of, pack.
  apply (drop_app_length'
           (header_for (encrypted_payload zip_bytes) major minor patch board)).
  symmetry. apply header_for_length.
Qed.

(** For every archive the tools accept, [decrypt] accepts what [encrypt]
    wrote and leaves in its output file the payload decrypted under the
    key of [decrypt]. *)
Lemma roundtrip_output (zipf : zip_writer) (w : world)
    (inpath binpath outpath : string) (major minor patch board : Z)
    (zip_bytes : bytes) :
  input_archive zipf w inpath = Return zip_bytes ->
  Z.of_nat (length (cc_swu_encrypt._pad16 zip_bytes)) < 2 ^ 32 ->
  snd (roundtrip zipf inpath binpath outpath major minor patch board w)
    = Return tt
  /\ files (fst (roundtrip zipf inpath binpath outpath major minor patch board w))
       !! outpath
     = Some (AES.decrypt_cbc decrypt_key decrypt_iv
               (AES.encrypt_cbc encrypt_key encrypt_iv
                  (cc_swu_encrypt._pad16 zip_bytes))).
Proof.
  intros Hin Hlen. unfold roundtrip, bind.
  rewrite (encrypt_succeeds _ _ _ _ _ _ _ _ _ Hin Hlen).
  set (w1 := World _ _).
  assert (Hbin : files w1 !! binpath
                 = Some (pack zip_bytes major minor patch board))
    by apply lookup_insert_eq.
  rewrite (decrypt_checks_pass w1 binpath outpath _ Hbin).
  - rewrite pack_payload. cbn [fst snd]. split.
    + unfold openssl_outcome.
      by rewrite encrypted_payload_length, pad16_aligned.
    + apply decrypted_world_output.
  - rewrite pack_length. lia.
  - apply pack_magic.
  - by rewrite pack_payload, pack_stored_md5.
Qed.

(** The two tools carry different keys: they differ in the last two
    bytes. *)
Lemma keys_differ :
  encrypt_key <> decrypt_key
  /\ take 30 encrypt_key = take 30 decrypt_key
  /\ drop 30 encrypt_key = [x1f; xce]
  /\ drop 30 decrypt_key = [x09; x28]
  /\ encrypt_iv = decrypt_iv.
Proof. repeat split; try reflexivity. discriminate. Qed.

(** C1 at a failing input: the sample archive, packed by [encrypt] and
    decoded by [decrypt], does not come back.  Both tools succeed, but the
    output file is not the padded archive; it does not even start with the
    ZIP signature. *)
Theorem roundtrip_sample_not_recovered :
  snd (roundtrip sample_zipfile "firmware.zip" "update.bin" "out.zip" 1 1 46 0
         (World {[ "firmware.zip"%string := sample_zip ]} []))
    = Return tt
  /\ files (fst (roundtrip sample_zipfile "firmware.zip" "update.bin" "out.zip"
                   1 1 46 0 (World {[ "firmware.zip"%string := sample_zip ]} [])))
       !! "out.zip"%string
     <> Some (cc_swu_encrypt._pad16 sample_zip)
  /\ take 4 <$> files (fst (roundtrip sample_zipfile "firmware.zip" "update.bin"
                              "out.zip" 1 1 46 0
                              (World {[ "firmware.zip"%string := sample_zip ]} [])))
                  !! "out.zip"%string
     = Some [x91; x3b; xb4; x98].
Proof.
  split; [|split].
  - vm_compute. reflexivity.
  - vm_compute. discriminate.
  - vm_compute. reflexivity.
Qed.

(** ** AES: the inverse cipher undoes the cipher *)

Lemma all_bytes_nth (b : byte) : nth (Byte.to_nat b) AES.all_bytes x00 = b.
Proof. destruct b; reflexivity. Qed.

Lemma all_bytes_complete (b : byte) : In b AES.all_bytes.
Proof.
  rewrite <- (all_bytes_nth b) at 1. apply nth_In.
  change (length AES.all_bytes) with 256%nat.
  pose proof (Byte.to_nat_bounded b). lia.
Qed.

Lemma for_all_bytes_spec (P : byte -> bool) :
  for_all_bytes P = true -> forall b, P b = true.
Proof.
  unfold for_all_bytes. rewrite forallb_forall.
  intros H b. apply H, all_bytes_complete.
Qed.

Lemma for_all_bytes2_spec (f g : byte -> byte -> byte) :
  for_all_bytes (fun a => for_all_bytes (fun b => Byte.eqb (f a b) (g a b)))
    = true ->
  forall a b, f a b = g a b.
Proof.
  intros H a b. apply Byte.byte_dec_bl.
  apply (for_all_bytes_spec _ (for_all_bytes_spec _ H a) b).
Qed.

Lemma for_all_bytes1_spec (f g : byte -> byte) :
  for_all_bytes (fun a => Byte.eqb (f a) (g a)) = true ->
  forall a, f a = g a.
Proof.
  intros H a. apply Byte.byte_dec_bl. apply (for_all_bytes_spec _ H a).
Qed.

Module AESFacts.
Import AES.

(** *** Exclusive or on bytes *)

Lemma bxor_comm (a b : byte) : bxor a b = bxor b a.
Proof.
  revert a b. apply (for_all_bytes2_spec bxor (fun a b => bxor b a)).
  vm_compute. reflexivity.
Qed.

Lemma Z_of_byte_bxor (a b : byte) :
  Z_of_byte (bxor a b) = Z.lxor (Z_of_byte a) (Z_of_byte b).
Proof.
  assert (H : for_all_bytes (fun a => for_all_bytes (fun b =>
                Z.eqb (Z_of_byte (bxor a b))
                      (Z.lxor (Z_of_byte a) (Z_of_byte b)))) = true)
    by (vm_compute; reflexivity).
  apply Z.eqb_eq.
  apply (for_all_bytes_spec _ (for_all_bytes_spec _ H a) b).
Qed.

Lemma Z_of_byte_inj (a b : byte) : Z_of_byte a = Z_of_byte b -> a = b.
Proof.
  intros H. rewrite <- (byte_of_Z_of_byte a), <- (byte_of_Z_of_byte b).
  by rewrite H.
Qed.

Lemma bxor_assoc (a b c : byte) : bxor a (bxor b c) = bxor (bxor a b) c.
Proof.
  apply Z_of_byte_inj. rewrite !Z_of_byte_bxor. symmetry. apply Z.lxor_assoc.
Qed.

Lemma bxor_nilpotent (a : byte) : bxor a a = x00.
Proof.
  apply Z_of_byte_inj. rewrite Z_of_byte_bxor, Z.lxor_nilpotent. reflexivity.
Qed.

Lemma bxor_0_r (a : byte) : bxor a x00 = a.
Proof.
  apply Z_of_byte_inj. rewrite Z_of_byte_bxor.
  change (Z_of_byte x00) with 0. apply Z.lxor_0_r.
Qed.

Lemma bxor_0_l (a : byte) : bxor x00 a = a.
Proof. rewrite bxor_comm. apply bxor_0_r. Qed.

Lemma bxor_cancel_r (a k : byte) : bxor (bxor a k) k = a.
Proof. by rewrite <- bxor_assoc, bxor_nilpotent, bxor_0_r. Qed.

(** The medial law, and with it the transposition of a 4 x 4 sum. *)
Lemma bxor_medial (a b c d : byte) :
  bxor (bxor a b) (bxor c d) = bxor (bxor a c) (bxor b d).
Proof.
  rewrite <- !bxor_assoc. f_equal.
  rewrite !bxor_assoc. f_equal. apply bxor_comm.
Qed.

Lemma xor4_transpose (a0 a1 a2 a3 b0 b1 b2 b3 c0 c1 c2 c3 d0 d1 d2 d3 : byte) :
  xor4 (xor4 a0 a1 a2 a3) (xor4 b0 b1 b2 b3)
       (xor4 c0 c1 c2 c3) (xor4 d0 d1 d2 d3)
  = xor4 (xor4 a0 b0 c0 d0) (xor4 a1 b1 c1 d1)
         (xor4 a2 b2 c2 d2) (xor4 a3 b3 c3 d3).
Proof.
  unfold xor4.
  rewrite (bxor_medial (bxor a0 a1) (bxor a2 a3) (bxor b0 b1) (bxor b2 b3)).
  rewrite (bxor_medial a0 a1 b0 b1), (bxor_medial a2 a3 b2 b3).
  rewrite (bxor_medial (bxor c0 c1) (bxor c2 c3) (bxor d0 d1) (bxor d2 d3)).
  rewrite (bxor_medial c0 c1 d0 d1), (bxor_medial c2 c3 d2 d3).
  rewrite (bxor_medial (bxor (bxor a0 b0) (bxor a1 b1))
                       (bxor (bxor a2 b2) (bxor a3 b3))).
  rewrite (bxor_medial (bxor a0 b0) (bxor a1 b1)),
          (bxor_medial (bxor a2 b2) (bxor a3 b3)).
  reflexivity.
Qed.

(** *** Multiplication by a constant is linear *)

Lemma gmul_linear (k : byte) :
  for_all_bytes (fun a => for_all_bytes (fun b =>
    Byte.eqb (gmul (bxor a b) k) (bxor (gmul a k) (gmul b k)))) = true ->
  forall a b c d,
    gmul (xor4 a b c d) k = xor4 (gmul a k) (gmul b k) (gmul c k) (gmul d k).
Proof.
  intros H a b c d.
  pose proof (for_all_bytes2_spec (fun a b => gmul (bxor a b) k)
                (fun a b => bxor (gmul a k) (gmul b k)) H) as Hlin.
  unfold xor4. by rewrite !Hlin.
Qed.

Lemma gmul_linear_09 (a b c d : byte) :
  gmul (xor4 a b c d) x09 = xor4 (gmul a x09) (gmul b x09) (gmul c x09) (gmul d x09).
Proof. apply gmul_linear. vm_compute. reflexivity. Qed.

Lemma gmul_linear_0b (a b c d : byte) :
  gmul (xor4 a b c d) x0b = xor4 (gmul a x0b) (gmul b x0b) (gmul c x0b) (gmul d x0b).
Proof. apply gmul_linear. vm_compute. reflexivity. Qed.

Lemma gmul_linear_0d (a b c d : byte) :
  gmul (xor4 a b c d) x0d = xor4 (gmul a x0d) (gmul b x0d) (gmul c x0d) (gmul d x0d).
Proof. apply gmul_linear. vm_compute. reflexivity. Qed.

Lemma gmul_linear_0e (a b c d : byte) :
  gmul (xor4 a b c d) x0e = xor4 (gmul a x0e) (gmul b x0e) (gmul c x0e) (gmul d x0e).
Proof. apply gmul_linear. vm_compute. reflexivity. Qed.

End AESFacts.

Module AESInverse.
Import AES AESFacts.

Lemma inv_sbox_sbox (a : byte) : inv_sbox (sbox a) = a.
Proof.
  revert a. apply (for_all_bytes1_spec (fun a => inv_sbox (sbox a)) (fun a => a)).
  vm_compute. reflexivity.
Qed.

Lemma inv_sub_bytes_sub_bytes (s : state) : inv_sub_bytes (sub_bytes s) = s.
Proof.
  destruct s as [[[[[[a0 a1] a2] a3] [[[b0 b1] b2] b3]]
                   [[[c0 c1] c2] c3]] [[[d0 d1] d2] d3]].
  unfold inv_sub_bytes, sub_bytes, map_state, map_word.
  by rewrite !inv_sbox_sbox.
Qed.

Lemma inv_shift_rows_shift_rows (s : state) : inv_shift_rows (shift_rows s) = s.
Proof.
  destruct s as [[[[[[a0 a1] a2] a3] [[[b0 b1] b2] b3]]
                   [[[c0 c1] c2] c3]] [[[d0 d1] d2] d3]].
  reflexivity.
Qed.

Lemma xor4_only_0 (a : byte) : xor4 a x00 x00 x00 = a.
Proof. unfold xor4. by rewrite !bxor_0_r. Qed.
Lemma xor4_only_1 (a : byte) : xor4 x00 a x00 x00 = a.
Proof. unfold xor4. by rewrite bxor_0_l, bxor_0_r. Qed.
Lemma xor4_only_2 (a : byte) : xor4 x00 x00 a x00 = a.
Proof. unfold xor4. by rewrite bxor_0_l, bxor_0_r. Qed.
Lemma xor4_only_3 (a : byte) : xor4 x00 x00 x00 a = a.
Proof. unfold xor4. by rewrite !bxor_0_l. Qed.

(** The product of the two circulant matrices, for any six linear maps
    whose sixteen coefficient sums are the identity on the diagonal and
    zero elsewhere. *)
Section Circulant.
Variables m2 m3 m9 mb md me : byte -> byte.
Hypothesis lin9 : forall a b c d,
  m9 (xor4 a b c d) = xor4 (m9 a) (m9 b) (m9 c) (m9 d).
Hypothesis linb : forall a b c d,
  mb (xor4 a b c d) = xor4 (mb a) (mb b) (mb c) (mb d).
Hypothesis lind : forall a b c d,
  md (xor4 a b c d) = xor4 (md a) (md b) (md c) (md d).
Hypothesis line : forall a b c d,
  me (xor4 a b c d) = xor4 (me a) (me b) (me c) (me d).
Hypothesis c00 : forall x, xor4 (me (m2 x)) (mb x) (md x) (m9 (m3 x)) = x.
Hypothesis c01 : forall x, xor4 (me (m3 x)) (mb (m2 x)) (md x) (m9 x) = x00.
Hypothesis c02 : forall x, xor4 (me x) (mb (m3 x)) (md (m2 x)) (m9 x) = x00.
Hypothesis c03 : forall x, xor4 (me x) (mb x) (md (m3 x)) (m9 (m2 x)) = x00.
Hypothesis c10 : forall x, xor4 (m9 (m2 x)) (me x) (mb x) (md (m3 x)) = x00.
Hypothesis c11 : forall x, xor4 (m9 (m3 x)) (me (m2 x)) (mb x) (md x) = x.
Hypothesis c12 : forall x, xor4 (m9 x) (me (m3 x)) (mb (m2 x)) (md x) = x00.
Hypothesis c13 : forall x, xor4 (m9 x) (me x) (mb (m3 x)) (md (m2 x)) = x00.
Hypothesis c20 : forall x, xor4 (md (m2 x)) (m9 x) (me x) (mb (m3 x)) = x00.
Hypothesis c21 : forall x, xor4 (md (m3 x)) (m9 (m2 x)) (me x) (mb x) = x00.
Hypothesis c22 : forall x, xor4 (md x) (m9 (m3 x)) (me (m2 x)) (mb x) = x.
Hypothesis c23 : forall x, xor4 (md x) (m9 x) (me (m3 x)) (mb (m2 x)) = x00.
Hypothesis c30 : forall x, xor4 (mb (m2 x)) (md x) (m9 x) (me (m3 x)) = x00.
Hypothesis c31 : forall x, xor4 (mb (m3 x)) (md (m2 x)) (m9 x) (me x) = x00.
Hypothesis c32 : forall x, xor4 (mb x) (md (m3 x)) (m9 (m2 x)) (me x) = x00.
Hypothesis c33 : forall x, xor4 (mb x) (md x) (m9 (m3 x)) (me (m2 x)) = x.

Lemma circulant_inverse (a b c d : byte) :
  let m0 := xor4 (m2 a) (m3 b) c d in
  let m1 := xor4 a (m2 b) (m3 c) d in
  let m2' := xor4 a b (m2 c) (m3 d) in
  let m3' := xor4 (m3 a) b c (m2 d) in
  (xor4 (me m0) (mb m1) (md m2') (m9 m3'),
   xor4 (m9 m0) (me m1) (mb m2') (md m3'),
   xor4 (md m0) (m9 m1) (me m2') (mb m3'),
   xor4 (mb m0) (md m1) (m9 m2') (me m3')) = (a, b, c, d).
Proof.
  cbv zeta.
  rewrite !lin9, !linb, !lind, !line.
  repeat apply f_equal2.
  - by rewrite xor4_transpose, c00, c01, c02, c03, xor4_only_0.
  - by rewrite xor4_transpose, c10, c11, c12, c13, xor4_only_1.
  - by rewrite xor4_transpose, c20, c21, c22, c23, xor4_only_2.
  - by rewrite xor4_transpose, c30, c31, c32, c33, xor4_only_3.
Qed.
End Circulant.

Ltac by_all_bytes :=
  match goal with
  | |- forall x, @?f x = @?g x =>
      apply (for_all_bytes1_spec f g); vm_compute; reflexivity
  end.

Lemma inv_mix_column_mix_column (w : word) : inv_mix_column (mix_column w) = w.
Proof.
  destruct w as [[[a b] c] d].
  apply (circulant_inverse
           (fun x => gmul x x02) (fun x => gmul x x03) (fun x => gmul x x09)
           (fun x => gmul x x0b) (fun x => gmul x x0d) (fun x => gmul x x0e)
           gmul_linear_09 gmul_linear_0b gmul_linear_0d gmul_linear_0e);
    by_all_bytes.
Qed.


Lemma inv_mix_columns_mix_columns (s : state) :
  inv_mix_columns (mix_columns s) = s.
Proof.
  destruct s as [[[c0 c1] c2] c3].
  unfold inv_mix_columns, mix_columns, map_state.
  by rewrite !inv_mix_column_mix_column.
Qed.

Lemma xor_word_cancel (w k : word) : xor_word (xor_word w k) k = w.
Proof.
  destruct w as [[[a b] c] d], k as [[[a' b'] c'] d'].
  unfold xor_word. by rewrite !bxor_cancel_r.
Qed.

Lemma add_round_key_involutive (k s : state) :
  add_round_key k (add_round_key k s) = s.
Proof.
  destruct s as [[[c0 c1] c2] c3], k as [[[k0 k1] k2] k3].
  unfold add_round_key. by rewrite !xor_word_cancel.
Qed.

Lemma inv_round_round (k s : state) : inv_round k (round k s) = s.
Proof.
  unfold inv_round, round.
  by rewrite add_round_key_involutive, inv_mix_columns_mix_columns,
    inv_shift_rows_shift_rows, inv_sub_bytes_sub_bytes.
Qed.

Lemma inv_final_round_final_round (k s : state) :
  inv_final_round k (final_round k s) = s.
Proof.
  unfold inv_final_round, final_round.
  by rewrite add_round_key_involutive, inv_shift_rows_shift_rows,
    inv_sub_bytes_sub_bytes.
Qed.

Lemma inv_rounds_rounds (ks : list state) (s : state) :
  inv_rounds ks (rounds ks s) = s.
Proof.
  revert s. induction ks as [|k ks IH]; intros s; [reflexivity|].
  destruct ks as [|k' ks].
  - apply inv_final_round_final_round.
  - change (inv_round k (inv_rounds (k' :: ks) (rounds (k' :: ks) (round k s))) = s).
    by rewrite IH, inv_round_round.
Qed.

(** The inverse cipher undoes the cipher, for every list of round keys. *)
Lemma inv_cipher_cipher (ks : list state) (s : state) :
  inv_cipher ks (cipher ks s) = s.
Proof.
  destruct ks as [|k0 ks]; [reflexivity|].
  unfold inv_cipher, cipher.
  by rewrite inv_rounds_rounds, add_round_key_involutive.
Qed.

Lemma cbc_decrypt_cbc_encrypt (ks : list state) (iv : state) (ps : list state) :
  cbc_decrypt ks iv (cbc_encrypt ks iv ps) = ps.
Proof.
  revert iv. induction ps as [|p ps IH]; intros iv; [reflexivity|].
  cbn [cbc_encrypt cbc_decrypt].
  by rewrite IH, inv_cipher_cipher, add_round_key_involutive.
Qed.

Lemma blocks_unblocks (ss : list state) : blocks (unblocks ss) = ss.
Proof.
  induction ss as [|[[[[[[a0 a1] a2] a3] [[[b0 b1] b2] b3]]
                       [[[c0 c1] c2] c3]] [[[d0 d1] d2] d3]] ss IH];
    [reflexivity|].
  unfold blocks, unblocks in *. cbn [flat_map bytes_of_state bytes_of_word app].
  cbn [words_of_bytes states_of_words]. by rewrite IH.
Qed.

Lemma unblocks_blocks_aux (n : nat) (bs : bytes) :
  length bs = (16 * n)%nat -> unblocks (blocks bs) = bs.
Proof.
  revert bs. induction n as [|n IH]; intros bs Hlen.
  - destruct bs; [reflexivity | simpl in Hlen; lia].
  - do 16 (destruct bs as [|? bs]; [simpl in Hlen; lia|]).
    unfold blocks, unblocks in *.
    cbn [words_of_bytes states_of_words flat_map bytes_of_state bytes_of_word app].
    rewrite IH; [reflexivity | simpl in Hlen; lia].
Qed.

Lemma unblocks_blocks (bs : bytes) :
  (length bs mod 16 = 0)%nat -> unblocks (blocks bs) = bs.
Proof.
  intros H. apply (unblocks_blocks_aux (length bs / 16)).
  pose proof (Nat.div_mod_eq (length bs) 16). lia.
Qed.

(** CBC decryption under the key and IV of the encryption recovers every
    block-aligned plaintext. *)
Lemma decrypt_cbc_encrypt_cbc (key iv data : bytes) :
  (length data mod 16 = 0)%nat ->
  decrypt_cbc key iv (encrypt_cbc key iv data) = data.
Proof.
  intros H. unfold decrypt_cbc, encrypt_cbc.
  by rewrite blocks_unblocks, cbc_decrypt_cbc_encrypt, unblocks_blocks.
Qed.

End AESInverse.

(** ** Round trip under one key *)

(** X17: decrypting the payload [encrypt] builds under the key of [encrypt]
    gives back the padded archive. *)
Lemma payload_decrypts_under_encrypt_key (zip_bytes : bytes) :
  AES.decrypt_cbc encrypt_key encrypt_iv (encrypted_payload zip_bytes)
  = cc_swu_encrypt._pad16 zip_bytes.
Proof.
  unfold encrypted_payload.
  apply AESInverse.decrypt_cbc_encrypt_cbc, pad16_aligned.
Qed.

(** ** Tampering with the payload *)

Lemma tamper_fields (i : nat) (data : bytes) :
  (32 <= length data)%nat ->
  (32 <= length (tamper i data))%nat
  /\ slice 0 4 (tamper i data) = slice 0 4 data
  /\ stored_md5_of (tamper i data) = stored_md5_of data
  /\ payload_of (tamper i data) = flip_bit i (payload_of data).
Proof.
  intros Hlen. unfold tamper.
  assert (Ht : length (take 32 data) = 32%nat) by (rewrite length_take; lia).
  split; [rewrite length_app; lia|].
  unfold slice, stored_md5_of, payload_of, slice.
  change (4 - 0)%nat with 4%nat. change (32 - 16)%nat with 16%nat.
  rewrite !drop_0.
  split; [|split].
  - rewrite take_app_le by lia. rewrite take_take. reflexivity.
  - rewrite drop_app_le by lia.
    rewrite take_app_le by (rewrite length_drop; lia).
    rewrite take_ge by (rewrite length_drop; lia).
    by rewrite take_drop_commute.
  - by rewrite drop_app_length' by (symmetry; exact Ht).
Qed.

(** What [decrypt] does with a container whose payload had one bit
    flipped: it fails with the MD5-mismatch error when the flip changes the
    digest, and goes on to decrypt the changed payload when it does not. *)
Lemma tampered_payload_mismatch_or_collision
    (w : world) (inpath outpath : string) (data : bytes) (i : nat) :
  files w !! inpath = Some (tamper i data) ->
  (32 <= length data)%nat ->
  slice 0 4 data = cc_swu_decrypt.OTA_MAGIC ->
  MD5.digest (payload_of data) = stored_md5_of data ->
  (MD5.digest (flip_bit i (payload_of data)) <> MD5.digest (payload_of data) ->
   cc_swu_decrypt.decrypt inpath outpath w
   = (w, Raise (ValueError_md5_mismatch (stored_md5_of data)
                  (MD5.digest (flip_bit i (payload_of data))))))
  /\ (MD5.digest (flip_bit i (payload_of data)) = MD5.digest (payload_of data) ->
      cc_swu_decrypt.decrypt inpath outpath w
      = (decrypted_world w outpath (flip_bit i (payload_of data)),
         openssl_outcome RuntimeError_openssl_decryption_failed
           (flip_bit i (payload_of data)))).
Proof.
  intros Hin Hlen Hmagic Hmd5.
  destruct (tamper_fields i data Hlen) as (Hl & Hm & Hs & Hp).
  split; intros Hd.
  - rewrite (decrypt_spec _ _ _ _ Hin).
    replace (length (tamper i data) <? 32)%nat with false
      by (symmetry; apply Nat.ltb_ge; lia).
    rewrite Hm, Hs, Hp.
    rewrite bool_decide_true by exact Hmagic.
    rewrite bool_decide_false by congruence. reflexivity.
  - rewrite (decrypt_checks_pass w inpath outpath _ Hin); congruence.
Qed.

(** On the sample container, flipping the lowest bit of the first payload
    byte is detected. *)
Example tampered_sample_rejected :
  snd (cc_swu_decrypt.decrypt "update.bin" "out.zip"
         (World {[ "update.bin"%string := tamper 0 sample_container ]} []))
  = Raise (ValueError_md5_mismatch
             (unhex "9b208ecce579defcb843373a35929dd4")
             (MD5.digest (flip_bit 0 (payload_of sample_container)))).
Proof. vm_compute. reflexivity. Qed.

(** * Further properties of the tools *)

(** ** Error and edge behaviour of [decrypt] *)

(** X1: an input shorter than the 32-byte header is rejected with the
    file-too-small error, which carries the length; the world is as
    before. *)
Theorem decrypt_too_small (w : world) (inpath outpath : string) (data : bytes) :
  files w !! inpath = Some data ->
  (length data < 32)%nat ->
  cc_swu_decrypt.decrypt inpath outpath w
  = (w, Raise (ValueError_file_too_small (length data))).
Proof.
  intros Hin Hlen. rewrite (decrypt_spec _ _ _ _ Hin).
  by replace (length data <? 32)%nat with true
    by (symmetry; apply Nat.ltb_lt; lia).
Qed.

Lemma decrypt_too_small_witness :
  cc_swu_decrypt.decrypt "short.bin" "out.zip"
    (World {[ "short.bin"%string := take 31 sample_container ]} [])
  = (World {[ "short.bin"%string := take 31 sample_container ]} [],
     Raise (ValueError_file_too_small 31)).
Proof.
  apply (decrypt_too_small
           (World {[ "short.bin"%string := take 31 sample_container ]} [])
           "short.bin" "out.zip" (take 31 sample_container)).
  - reflexivity.
  - vm_compute. lia.
Defined.

Lemma decrypt_missing (w : world) (inpath outpath : string) :
  files w !! inpath = None ->
  cc_swu_decrypt.decrypt inpath outpath w = (w, Raise (FileNotFoundError inpath)).
Proof.
  intros Hin. unfold cc_swu_decrypt.decrypt, bind at 1, read_file.
  by rewrite Hin.
Qed.

(** X2: when the input file does not exist, both tools fail with
    [FileNotFoundError] for that path and leave the world as it was. *)
Theorem missing_input_file (zipf : zip_writer) (w : world)
    (inpath outpath : string) (major minor patch board : Z) :
  files w !! inpath = None ->
  cc_swu_decrypt.decrypt inpath outpath w = (w, Raise (FileNotFoundError inpath))
  /\ cc_swu_encrypt.encrypt zipf inpath outpath major minor patch board w
     = (w, Raise (FileNotFoundError inpath)).
Proof.
  intros Hin. split; [by apply decrypt_missing|].
  rewrite encrypt_spec. unfold input_archive. by rewrite Hin.
Qed.

Lemma missing_input_file_witness :
  cc_swu_decrypt.decrypt "update.bin" "out.zip" (World ∅ [])
    = (World ∅ [], Raise (FileNotFoundError "update.bin"))
  /\ cc_swu_encrypt.encrypt sample_zipfile "update.swu" "update.bin" 1 1 46 0
       (World ∅ [])
     = (World ∅ [], Raise (FileNotFoundError "update.swu")).
Proof.
  split.
  - apply (missing_input_file sample_zipfile (World ∅ []) "update.bin" "out.zip"
             0 0 0 0). reflexivity.
  - apply (missing_input_file sample_zipfile (World ∅ []) "update.swu"
             "update.bin" 1 1 46 0). reflexivity.
Defined.

Lemma decrypt_cbc_length (key iv data : bytes) :
  length (AES.decrypt_cbc key iv data) = (16 * (length data / 16))%nat.
Proof.
  unfold AES.decrypt_cbc.
  by rewrite unblocks_length, cbc_decrypt_length, blocks_length.
Qed.

Lemma decrypted_world_tmp (w : world) (outpath : string) (payload : bytes) :
  files (decrypted_world w outpath payload) !! (outpath ++ ".stage1.tmp")%string
  = None.
Proof. unfold decrypted_world. cbn [files]. apply lookup_delete_eq. Qed.

Lemma decrypted_world_other (w : world) (outpath p : string) (payload : bytes) :
  p <> outpath -> p <> (outpath ++ ".stage1.tmp")%string ->
  files (decrypted_world w outpath payload) !! p = files w !! p.
Proof.
  intros H1 H2. unfold decrypted_world. cbn [files].
  rewrite lookup_delete_ne by congruence.
  by rewrite lookup_insert_ne by congruence.
Qed.

(** X3: where the temporary file and the output file can be created (as
    everywhere in this file system), a container that passes all three
    checks but whose payload length is not a multiple of 16 makes
    [decrypt] fail with the openssl error only after [openssl] has run:
    the output file is left behind, holding the decryption of the complete
    16-byte blocks, and the temporary file is gone. *)
Theorem decrypt_misaligned_payload
    (w : world) (inpath outpath : string) (data : bytes) :
  files w !! inpath = Some data ->
  (32 <= length data)%nat ->
  slice 0 4 data = cc_swu_decrypt.OTA_MAGIC ->
  MD5.digest (payload_of data) = stored_md5_of data ->
  (length (payload_of data) mod 16 <> 0)%nat ->
  snd (cc_swu_decrypt.decrypt inpath outpath w)
    = Raise RuntimeError_openssl_decryption_failed
  /\ (exists partial : bytes,
        files (fst (cc_swu_decrypt.decrypt inpath outpath w)) !! outpath
          = Some partial
        /\ length partial = (16 * (length (payload_of data) / 16))%nat
        /\ partial = AES.decrypt_cbc decrypt_key decrypt_iv (payload_of data))
  /\ files (fst (cc_swu_decrypt.decrypt inpath outpath w))
       !! (outpath ++ ".stage1.tmp")%string = None
  /\ runs (fst (cc_swu_decrypt.decrypt inpath outpath w))
     = runs w ++ [decrypt_run outpath].
Proof.
  intros Hin Hlen Hmagic Hmd5 Hmis.
  rewrite (decrypt_checks_pass w inpath outpath data) by assumption.
  cbn [fst snd]. split; [|split; [|split]].
  - unfold openssl_outcome. apply Nat.eqb_neq in Hmis. by rewrite Hmis.
  - eexists. split; [apply decrypted_world_output|].
    split; [apply decrypt_cbc_length | reflexivity].
  - apply decrypted_world_tmp.
  - reflexivity.
Qed.


Lemma decrypt_misaligned_payload_witness :
  snd (cc_swu_decrypt.decrypt "cut.bin" "out.zip"
         (World {[ "cut.bin"%string := sample_misaligned_container ]} []))
    = Raise RuntimeError_openssl_decryption_failed
  /\ (exists partial : bytes,
        files (fst (cc_swu_decrypt.decrypt "cut.bin" "out.zip"
                      (World {[ "cut.bin"%string := sample_misaligned_container ]} [])))
          !! "out.zip"%string = Some partial
        /\ length partial
           = (16 * (length (payload_of sample_misaligned_container) / 16))%nat
        /\ partial = AES.decrypt_cbc decrypt_key decrypt_iv
                       (payload_of sample_misaligned_container))
  /\ files (fst (cc_swu_decrypt.decrypt "cut.bin" "out.zip"
                   (World {[ "cut.bin"%string := sample_misaligned_container ]} [])))
       !! "out.zip.stage1.tmp"%string = None
  /\ runs (fst (cc_swu_decrypt.decrypt "cut.bin" "out.zip"
                  (World {[ "cut.bin"%string := sample_misaligned_container ]} [])))
     = [decrypt_run "out.zip"].
Proof.
  apply (decrypt_misaligned_payload
           (World {[ "cut.bin"%string := sample_misaligned_container ]} [])
           "cut.bin" "out.zip" sample_misaligned_container).
  - reflexivity.
  - vm_compute. lia.
  - reflexivity.
  - vm_compute. reflexivity.
  - vm_compute. lia.
Defined.

(** X4: where the temporary file and the output file can be created (as
    everywhere in this file system), a container that passes the checks
    and whose payload length is a multiple of 16 is decrypted: [decrypt]
    returns, the output file holds as many bytes as the payload, the
    temporary file is gone and [openssl] has run exactly once. *)
Theorem decrypt_valid_container
    (w : world) (inpath outpath : string) (data : bytes) :
  files w !! inpath = Some data ->
  (32 <= length data)%nat ->
  slice 0 4 data = cc_swu_decrypt.OTA_MAGIC ->
  MD5.digest (payload_of data) = stored_md5_of data ->
  (length (payload_of data) mod 16 = 0)%nat ->
  snd (cc_swu_decrypt.decrypt inpath outpath w) = Return tt
  /\ (exists out : bytes,
        files (fst (cc_swu_decrypt.decrypt inpath outpath w)) !! outpath
          = Some out
        /\ length out = (length data - 32)%nat
        /\ out = AES.decrypt_cbc decrypt_key decrypt_iv (drop 32 data))
  /\ files (fst (cc_swu_decrypt.decrypt inpath outpath w))
       !! (outpath ++ ".stage1.tmp")%string = None
  /\ runs (fst (cc_swu_decrypt.decrypt inpath outpath w))
     = runs w ++ [decrypt_run outpath].
Proof.
  intros Hin Hlen Hmagic Hmd5 Hal.
  rewrite (decrypt_checks_pass w inpath outpath data) by assumption.
  cbn [fst snd]. split; [|split; [|split]].
  - unfold openssl_outcome. by rewrite Hal.
  - eexists. split; [apply decrypted_world_output|].
    split; [|reflexivity].
    rewrite decrypt_cbc_length.
    unfold payload_of in *. rewrite length_drop in *.
    pose proof (Nat.div_mod_eq (length data - 32) 16). lia.
  - apply decrypted_world_tmp.
  - reflexivity.
Qed.

Lemma decrypt_valid_container_witness :
  snd (cc_swu_decrypt.decrypt "update.bin" "out.zip"
         (World {[ "update.bin"%string := sample_container ]} []))
    = Return tt
  /\ (exists out : bytes,
        files (fst (cc_swu_decrypt.decrypt "update.bin" "out.zip"
                      (World {[ "update.bin"%string := sample_container ]} [])))
          !! "out.zip"%string = Some out
        /\ length out = (length sample_container - 32)%nat
        /\ out = AES.decrypt_cbc decrypt_key decrypt_iv (drop 32 sample_container))
  /\ files (fst (cc_swu_decrypt.decrypt "update.bin" "out.zip"
                   (World {[ "update.bin"%string := sample_container ]} [])))
       !! "out.zip.stage1.tmp"%string = None
  /\ runs (fst (cc_swu_decrypt.decrypt "update.bin" "out.zip"
                  (World {[ "update.bin"%string := sample_container ]} [])))
     = [decrypt_run "out.zip"].
Proof.
  apply (decrypt_valid_container
           (World {[ "update.bin"%string := sample_container ]} [])
           "update.bin" "out.zip" sample_container).
  - reflexivity.
  - vm_compute. lia.
  - reflexivity.
  - vm_compute. reflexivity.
  - vm_compute. reflexivity.
Defined.

(** ** What the tools leave alone *)

Lemma decrypt_world_cases (w : world) (inpath outpath : string) :
  fst (cc_swu_decrypt.decrypt inpath outpath w) = w
  \/ exists payload : bytes,
       fst (cc_swu_decrypt.decrypt inpath outpath w)
       = decrypted_world w outpath payload.
Proof.
  destruct (files w !! inpath) as [data|] eqn:Hin.
  - rewrite (decrypt_spec _ _ _ _ Hin).
    destruct (length data <? 32)%nat; [by left|].
    destruct (negb (bool_decide (slice 0 4 data = cc_swu_decrypt.OTA_MAGIC)));
      [by left|].
    destruct (negb (bool_decide (MD5.digest (payload_of data) = stored_md5_of data)));
      [by left|].
    right. by eexists.
  - rewrite decrypt_missing by exact Hin. by left.
Qed.

(** X5: whatever the input and however it ends, [decrypt] touches at most
    its output file and its temporary file: every other file is as before,
    a temporary file that was not there before is not there afterwards,
    and at most one [openssl] run is added to the log. *)
Theorem decrypt_frame (w : world) (inpath outpath : string) :
  (forall p : string,
     p <> outpath -> p <> (outpath ++ ".stage1.tmp")%string ->
     files (fst (cc_swu_decrypt.decrypt inpath outpath w)) !! p = files w !! p)
  /\ (files w !! (outpath ++ ".stage1.tmp")%string = None ->
      files (fst (cc_swu_decrypt.decrypt inpath outpath w))
        !! (outpath ++ ".stage1.tmp")%string = None)
  /\ (runs (fst (cc_swu_decrypt.decrypt inpath outpath w)) = runs w
      \/ runs (fst (cc_swu_decrypt.decrypt inpath outpath w))
         = runs w ++ [decrypt_run outpath]).
Proof.
  destruct (decrypt_world_cases w inpath outpath) as [-> | [payload ->]].
  - split; [|split]; auto.
  - split; [|split].
    + intros p H1 H2. by apply decrypted_world_other.
    + intros _. apply decrypted_world_tmp.
    + by right.
Qed.

Lemma decrypt_frame_witness :
  files (fst (cc_swu_decrypt.decrypt "update.bin" "out.zip"
                (World {[ "update.bin"%string := sample_container ]} [])))
    !! "out.zip.stage1.tmp"%string = None.
Proof.
  apply (decrypt_frame (World {[ "update.bin"%string := sample_container ]} [])
           "update.bin" "out.zip").
  reflexivity.
Defined.

Lemma tmp_plain_ne_enc (outpath : string) :
  (outpath ++ ".plain.tmp")%string <> (outpath ++ ".enc.tmp")%string.
Proof. intros H. apply string_app_inj in H. discriminate. Qed.


Lemma cleaned_files_tmp (w : world) (outpath : string) :
  cleaned_files w outpath !! (outpath ++ ".plain.tmp")%string = None
  /\ cleaned_files w outpath !! (outpath ++ ".enc.tmp")%string = None.
Proof.
  unfold cleaned_files. split.
  - rewrite lookup_delete_ne by (symmetry; apply tmp_plain_ne_enc).
    apply lookup_delete_eq.
  - apply lookup_delete_eq.
Qed.

Lemma outpath_ne_tmp (outpath suffix : string) :
  (0 < String.length suffix)%nat -> (outpath ++ suffix)%string <> outpath.
Proof. intros H E. symmetry in E. revert E. by apply string_app_ne. Qed.




(** X7: [encrypt] deletes its temporary files by name.  When the input
    path is one of those names ([outpath] followed by [.plain.tmp] or
    [.enc.tmp]), a successful run has removed the input file. *)
Theorem encrypt_deletes_input_named_like_temp
    (zipf : zip_writer) (w : world)
    (inpath outpath : string) (major minor patch board : Z)
    (zip_bytes : bytes) :
  input_archive zipf w inpath = Return zip_bytes ->
  Z.of_nat (length (cc_swu_encrypt._pad16 zip_bytes)) < 2 ^ 32 ->
  inpath = (outpath ++ ".plain.tmp")%string
    \/ inpath = (outpath ++ ".enc.tmp")%string ->
  snd (cc_swu_encrypt.encrypt zipf inpath outpath major minor patch board w)
    = Return tt
  /\ files (fst (cc_swu_encrypt.encrypt zipf inpath outpath
                   major minor patch board w)) !! inpath = None.
Proof.
  intros Hin Hlen Hname.
  rewrite (encrypt_succeeds _ _ _ _ _ _ _ _ _ Hin Hlen). cbn [fst snd files].
  split; [reflexivity|].
  destruct (cleaned_files_tmp w outpath) as [Hcp Hce].
  destruct Hname as [-> | ->];
    (rewrite lookup_insert_ne by (symmetry; apply outpath_ne_tmp; simpl; lia));
    assumption.
Qed.

Lemma encrypt_deletes_input_named_like_temp_witness :
  snd (cc_swu_encrypt.encrypt sample_zipfile "update.bin.plain.tmp" "update.bin"
         1 1 46 0
         (World {[ "update.bin.plain.tmp"%string := sample_zip ]} []))
    = Return tt
  /\ files (fst (cc_swu_encrypt.encrypt sample_zipfile "update.bin.plain.tmp"
                   "update.bin" 1 1 46 0
                   (World {[ "update.bin.plain.tmp"%string := sample_zip ]} [])))
       !! "update.bin.plain.tmp"%string = None.
Proof.
  apply (encrypt_deletes_input_named_like_temp sample_zipfile
           (World {[ "update.bin.plain.tmp"%string := sample_zip ]} [])
           "update.bin.plain.tmp" "update.bin" 1 1 46 0 sample_zip).
  - reflexivity.
  - vm_compute. reflexivity.
  - left. reflexivity.
Defined.

(** X8: likewise [decrypt] deletes its temporary file by name; an input
    container stored under that name is gone once the checks have
    passed. *)
Theorem decrypt_deletes_input_named_like_temp
    (w : world) (outpath : string) (data : bytes) :
  files w !! (outpath ++ ".stage1.tmp")%string = Some data ->
  (32 <= length data)%nat ->
  slice 0 4 data = cc_swu_decrypt.OTA_MAGIC ->
  MD5.digest (payload_of data) = stored_md5_of data ->
  files (fst (cc_swu_decrypt.decrypt (outpath ++ ".stage1.tmp") outpath w))
    !! (outpath ++ ".stage1.tmp")%string = None.
Proof.
  intros Hin Hlen Hmagic Hmd5.
  rewrite (decrypt_checks_pass w _ outpath data) by assumption.
  apply decrypted_world_tmp.
Qed.

Lemma decrypt_deletes_input_named_like_temp_witness :
  files (fst (cc_swu_decrypt.decrypt "out.zip.stage1.tmp" "out.zip"
                (World {[ "out.zip.stage1.tmp"%string := sample_container ]} [])))
    !! "out.zip.stage1.tmp"%string = None.
Proof.
  apply (decrypt_deletes_input_named_like_temp
           (World {[ "out.zip.stage1.tmp"%string := sample_container ]} [])
           "out.zip" sample_container).
  - reflexivity.
  - vm_compute. lia.
  - reflexivity.
  - vm_compute. reflexivity.
Defined.

(** ** Size of the container *)

Lemma pad16_length (x : bytes) :
  length (cc_swu_encrypt._pad16 x) = (16 * ((length x + 15) / 16))%nat.
Proof.
  pose proof (Nat.div_mod_eq (length x) 16) as Hdm.
  pose proof (Nat.mod_upper_bound (length x) 16 ltac:(lia)) as Hlt.
  unfold cc_swu_encrypt._pad16.
  destruct (length x mod 16 =? 0)%nat eqn:Hr.
  - apply Nat.eqb_eq in Hr.
    rewrite <- (Nat.div_unique (length x + 15) 16 (length x / 16) 15); lia.
  - apply Nat.eqb_neq in Hr. rewrite length_app, zeros_length.
    rewrite <- (Nat.div_unique (length x + 15) 16 (S (length x / 16))
                  (length x mod 16 - 1)); lia.
Qed.

(** X9: the container [encrypt] writes for an archive of [n] bytes holds
    exactly [32 + 16 * ceil(n / 16)] bytes: the header and the archive
    rounded up to whole cipher blocks, never more than 15 bytes of
    padding. *)
Theorem encrypt_output_size
    (zipf : zip_writer) (w : world)
    (inpath outpath : string) (major minor patch board : Z)
    (zip_bytes : bytes) :
  input_archive zipf w inpath = Return zip_bytes ->
  Z.of_nat (length (cc_swu_encrypt._pad16 zip_bytes)) < 2 ^ 32 ->
  exists out : bytes,
    files (fst (cc_swu_encrypt.encrypt zipf inpath outpath
                  major minor patch board w)) !! outpath = Some out
    /\ length out = (32 + 16 * ((length zip_bytes + 15) / 16))%nat
    /\ (length zip_bytes + 32 <= length out < length zip_bytes + 48)%nat
    /\ ((length out - 32) mod 16 = 0)%nat.
Proof.
  intros Hin Hlen.
  rewrite (encrypt_succeeds _ _ _ _ _ _ _ _ _ Hin Hlen). cbn [fst files].
  eexists. split; [apply lookup_insert_eq|].
  rewrite pack_length, encrypted_payload_length.
  pose proof (pad16_aligned zip_bytes) as Hal.
  rewrite pad16_length in *.
  pose proof (Nat.div_mod_eq (length zip_bytes + 15) 16) as Hdm.
  pose proof (Nat.mod_upper_bound (length zip_bytes + 15) 16 ltac:(lia)) as Hlt.
  split; [reflexivity|]. split; [lia|].
  replace (32 + 16 * ((length zip_bytes + 15) / 16) - 32)%nat
    with (16 * ((length zip_bytes + 15) / 16))%nat by lia.
  exact Hal.
Qed.

Lemma encrypt_output_size_witness :
  exists out : bytes,
    files (fst (cc_swu_encrypt.encrypt sample_zipfile "firmware.zip" "update.bin"
                  1 1 46 0 (World {[ "firmware.zip"%string := sample_zip ]} [])))
      !! "update.bin"%string = Some out
    /\ length out = (32 + 16 * ((length sample_zip + 15) / 16))%nat
    /\ (length sample_zip + 32 <= length out < length sample_zip + 48)%nat
    /\ ((length out - 32) mod 16 = 0)%nat.
Proof.
  apply (encrypt_output_size sample_zipfile
           (World {[ "firmware.zip"%string := sample_zip ]} [])
           "firmware.zip" "update.bin" 1 1 46 0 sample_zip).
  - reflexivity.
  - vm_compute. reflexivity.
Defined.

(** ** [decrypt] after [encrypt] *)

(** X10: [decrypt] never rejects a container [encrypt] has just written:
    size, magic and digest checks pass and, where the temporary and output
    files can be created (as everywhere in this file system), [openssl]
    succeeds, whatever the archive and the version arguments.  The output
    file has the length of the padded archive and holds the payload
    decrypted under the key of [decrypt]. *)
Theorem decrypt_accepts_fresh_container
    (zipf : zip_writer) (w : world)
    (inpath binpath outpath : string) (major minor patch board : Z)
    (zip_bytes : bytes) :
  input_archive zipf w inpath = Return zip_bytes ->
  Z.of_nat (length (cc_swu_encrypt._pad16 zip_bytes)) < 2 ^ 32 ->
  snd (roundtrip zipf inpath binpath outpath major minor patch board w)
    = Return tt
  /\ exists out : bytes,
       files (fst (roundtrip zipf inpath binpath outpath
                     major minor patch board w)) !! outpath = Some out
       /\ length out = length (cc_swu_encrypt._pad16 zip_bytes)
       /\ out = AES.decrypt_cbc decrypt_key decrypt_iv
                  (AES.encrypt_cbc encrypt_key encrypt_iv
                     (cc_swu_encrypt._pad16 zip_bytes)).
Proof.
  intros Hin Hlen.
  destruct (roundtrip_output zipf w inpath binpath outpath
              major minor patch board zip_bytes Hin Hlen) as [Hok Hout].
  split; [exact Hok|].
  eexists. split; [exact Hout|]. split; [|reflexivity].
  rewrite decrypt_cbc_length.
  rewrite encrypt_cbc_length by apply pad16_aligned.
  pose proof (pad16_aligned zip_bytes).
  pose proof (Nat.div_mod_eq (length (cc_swu_encrypt._pad16 zip_bytes)) 16).
  lia.
Qed.

Lemma decrypt_accepts_fresh_container_witness :
  snd (roundtrip sample_zipfile "firmware.zip" "update.bin" "out.zip" 1 1 46 0
         (World {[ "firmware.zip"%string := sample_zip ]} []))
    = Return tt
  /\ exists out : bytes,
       files (fst (roundtrip sample_zipfile "firmware.zip" "update.bin" "out.zip"
                     1 1 46 0 (World {[ "firmware.zip"%string := sample_zip ]} [])))
         !! "out.zip"%string = Some out
       /\ length out = length (cc_swu_encrypt._pad16 sample_zip)
       /\ out = AES.decrypt_cbc decrypt_key decrypt_iv
                  (AES.encrypt_cbc encrypt_key encrypt_iv
                     (cc_swu_encrypt._pad16 sample_zip)).
Proof.
  apply (decrypt_accepts_fresh_container sample_zipfile
           (World {[ "firmware.zip"%string := sample_zip ]} [])
           "firmware.zip" "update.bin" "out.zip" 1 1 46 0 sample_zip).
  - reflexivity.
  - vm_compute. reflexivity.
Defined.

(** X11: the container determines the padded archive: two archives that
    [encrypt] packs to the same bytes agree up to the zero padding, and so
    do the masked version and board bytes. *)
Theorem pack_injective (a a' : bytes)
    (major minor patch board major' minor' patch' board' : Z) :
  pack a major minor patch board = pack a' major' minor' patch' board' ->
  cc_swu_encrypt._pad16 a = cc_swu_encrypt._pad16 a'
  /\ firmware_info major minor patch board
     = firmware_info major' minor' patch' board'.
Proof.
  intros H. split.
  - apply (f_equal payload_of) in H. rewrite !pack_payload in H.
    apply (f_equal (AES.decrypt_cbc encrypt_key encrypt_iv)) in H.
    unfold encrypted_payload in H.
    by rewrite !AESInverse.decrypt_cbc_encrypt_cbc in H by apply pad16_aligned.
  - apply (f_equal (slice 4 8)) in H. rewrite !pack_layout in H. exact H.
Qed.

Lemma pack_injective_witness :
  cc_swu_encrypt._pad16 sample_zip = cc_swu_encrypt._pad16 (sample_zip ++ [x00])
  /\ firmware_info 1 1 46 0 = firmware_info 257 (-255) 46 256.
Proof.
  apply (pack_injective sample_zip (sample_zip ++ [x00])
           1 1 46 0 257 (-255) 46 256).
  vm_compute. reflexivity.
Defined.

(** ** Flipping one bit of the header *)

Lemma flip_bit_of_byte_ne (j : nat) (b : byte) :
  (j < 8)%nat -> flip_bit_of_byte j b <> b.
Proof.
  intros Hj. apply Byte.eqb_false.
  assert (H : forallb (fun j => for_all_bytes (fun b =>
                negb (Byte.eqb (flip_bit_of_byte j b) b))) (seq 0 8) = true)
    by (vm_compute; reflexivity).
  rewrite forallb_forall in H.
  specialize (H j ltac:(apply in_seq; lia)).
  apply negb_true_iff. apply (for_all_bytes_spec _ H b).
Qed.

Lemma flip_bit_length (i : nat) (bs : bytes) :
  length (flip_bit i bs) = length bs.
Proof.
  revert i. induction bs as [|b bs IH]; intros i; [reflexivity|].
  cbn [flip_bit]. destruct (i <? 8)%nat; cbn [length]; auto.
Qed.

Lemma flip_bit_ne (i : nat) (bs : bytes) :
  (i < 8 * length bs)%nat -> flip_bit i bs <> bs.
Proof.
  revert i. induction bs as [|b bs IH]; intros i Hi; [simpl in Hi; lia|].
  cbn [flip_bit]. destruct (i <? 8)%nat eqn:Hlt.
  - apply Nat.ltb_lt in Hlt. intros E. injection E as E.
    by apply (flip_bit_of_byte_ne i b).
  - apply Nat.ltb_ge in Hlt. intros E. injection E as E.
    apply (IH (i - 8)%nat); [cbn [length] in Hi; lia | exact E].
Qed.

(** A flip below bit [8 * k] stays within the first [k] bytes. *)
Lemma flip_bit_take_lt (i k : nat) (bs : bytes) :
  (i < 8 * k)%nat -> take k (flip_bit i bs) = flip_bit i (take k bs).
Proof.
  revert i k. induction bs as [|b bs IH]; intros i k Hi.
  - cbn [flip_bit]. by rewrite take_nil.
  - destruct k as [|k]; [lia|]. cbn [flip_bit take].
    destruct (i <? 8)%nat eqn:Hlt; cbn [take]; [reflexivity|].
    apply Nat.ltb_ge in Hlt. f_equal. apply IH. lia.
Qed.

Lemma flip_bit_drop_lt (i k : nat) (bs : bytes) :
  (i < 8 * k)%nat -> drop k (flip_bit i bs) = drop k bs.
Proof.
  revert i k. induction bs as [|b bs IH]; intros i k Hi.
  - reflexivity.
  - destruct k as [|k]; [lia|]. cbn [flip_bit].
    destruct (i <? 8)%nat eqn:Hlt; cbn [drop]; [reflexivity|].
    apply Nat.ltb_ge in Hlt. apply IH. lia.
Qed.

(** A flip at or above bit [8 * k] leaves the first [k] bytes alone. *)
Lemma flip_bit_take_ge (i k : nat) (bs : bytes) :
  (8 * k <= i)%nat -> take k (flip_bit i bs) = take k bs.
Proof.
  revert i k. induction bs as [|b bs IH]; intros i k Hi.
  - reflexivity.
  - destruct k as [|k]; [reflexivity|]. cbn [flip_bit].
    replace (i <? 8)%nat with false by (symmetry; apply Nat.ltb_ge; lia).
    cbn [take]. f_equal. apply IH. lia.
Qed.

Lemma flip_bit_drop_ge (i k : nat) (bs : bytes) :
  (8 * k <= i)%nat -> drop k (flip_bit i bs) = flip_bit (i - 8 * k) (drop k bs).
Proof.
  revert i k. induction bs as [|b bs IH]; intros i k Hi.
  - cbn [flip_bit]. by rewrite drop_nil.
  - destruct k as [|k].
    + cbn [drop]. by replace (i - 8 * 0)%nat with i by lia.
    + cbn [flip_bit].
      replace (i <? 8)%nat with false by (symmetry; apply Nat.ltb_ge; lia).
      cbn [drop]. rewrite IH by lia. f_equal. lia.
Qed.

(** X12: flipping any single bit of the magic (bits 0..31) of a container of
    at least 32 bytes that carries the right magic makes [decrypt] fail
    with the bad-magic error; the world is as before. *)
Theorem flipped_magic_bit_rejected
    (w : world) (inpath outpath : string) (data : bytes) (i : nat) :
  files w !! inpath = Some (flip_bit i data) ->
  (32 <= length data)%nat ->
  slice 0 4 data = cc_swu_decrypt.OTA_MAGIC ->
  (i < 32)%nat ->
  cc_swu_decrypt.decrypt inpath outpath w
  = (w, Raise (ValueError_bad_magic (flip_bit i cc_swu_decrypt.OTA_MAGIC))).
Proof.
  intros Hin Hlen Hmagic Hi.
  assert (Hs : slice 0 4 (flip_bit i data)
               = flip_bit i cc_swu_decrypt.OTA_MAGIC).
  { rewrite <- Hmagic. unfold slice. rewrite !drop_0.
    change (4 - 0)%nat with 4%nat. apply flip_bit_take_lt. lia. }
  rewrite (decrypt_spec _ _ _ _ Hin), flip_bit_length, Hs.
  replace (length data <? 32)%nat with false
    by (symmetry; apply Nat.ltb_ge; lia).
  rewrite bool_decide_false; [reflexivity|].
  apply flip_bit_ne. simpl. lia.
Qed.

Lemma flipped_magic_bit_rejected_witness :
  cc_swu_decrypt.decrypt "update.bin" "out.zip"
    (World {[ "update.bin"%string := flip_bit 9 sample_container ]} [])
  = (World {[ "update.bin"%string := flip_bit 9 sample_container ]} [],
     Raise (ValueError_bad_magic (flip_bit 9 cc_swu_decrypt.OTA_MAGIC))).
Proof.
  apply (flipped_magic_bit_rejected
           (World {[ "update.bin"%string := flip_bit 9 sample_container ]} [])
           "update.bin" "out.zip" sample_container 9).
  - reflexivity.
  - vm_compute. lia.
  - reflexivity.
  - lia.
Defined.

(** X13: flipping any single bit of the stored digest (bits 128..255) of a
    container that passes the checks makes [decrypt] fail with the
    MD5-mismatch error before anything is written or decrypted. *)
Theorem flipped_digest_bit_rejected
    (w : world) (inpath outpath : string) (data : bytes) (i : nat) :
  files w !! inpath = Some (flip_bit i data) ->
  (32 <= length data)%nat ->
  slice 0 4 data = cc_swu_decrypt.OTA_MAGIC ->
  MD5.digest (payload_of data) = stored_md5_of data ->
  (128 <= i < 256)%nat ->
  cc_swu_decrypt.decrypt inpath outpath w
  = (w, Raise (ValueError_md5_mismatch
                 (flip_bit (i - 128) (stored_md5_of data))
                 (stored_md5_of data))).
Proof.
  intros Hin Hlen Hmagic Hmd5 Hi.
  assert (Hm : slice 0 4 (flip_bit i data) = cc_swu_decrypt.OTA_MAGIC).
  { rewrite <- Hmagic. unfold slice. rewrite !drop_0.
    apply flip_bit_take_ge. simpl. lia. }
  assert (Hp : payload_of (flip_bit i data) = payload_of data).
  { unfold payload_of. apply flip_bit_drop_lt. simpl. lia. }
  assert (Hs : stored_md5_of (flip_bit i data)
               = flip_bit (i - 128) (stored_md5_of data)).
  { unfold stored_md5_of, slice. change (32 - 16)%nat with 16%nat.
    rewrite (flip_bit_drop_ge i 16) by lia.
    change (8 * 16)%nat with 128%nat.
    apply flip_bit_take_lt. lia. }
  rewrite (decrypt_spec _ _ _ _ Hin), flip_bit_length, Hm, Hp, Hs.
  replace (length data <? 32)%nat with false
    by (symmetry; apply Nat.ltb_ge; lia).
  rewrite bool_decide_true by reflexivity.
  rewrite Hmd5.
  rewrite bool_decide_false; [reflexivity|].
  intros E. symmetry in E. revert E. apply flip_bit_ne.
  unfold stored_md5_of, slice. rewrite length_take, length_drop. lia.
Qed.

Lemma flipped_digest_bit_rejected_witness :
  cc_swu_decrypt.decrypt "update.bin" "out.zip"
    (World {[ "update.bin"%string := flip_bit 200 sample_container ]} [])
  = (World {[ "update.bin"%string := flip_bit 200 sample_container ]} [],
     Raise (ValueError_md5_mismatch
              (flip_bit 72 (stored_md5_of sample_container))
              (stored_md5_of sample_container))).
Proof.
  apply (flipped_digest_bit_rejected
           (World {[ "update.bin"%string := flip_bit 200 sample_container ]} [])
           "update.bin" "out.zip" sample_container 200).
  - reflexivity.
  - vm_compute. lia.
  - reflexivity.
  - vm_compute. reflexivity.
  - lia.
Defined.

(** X14: the version, board, custom-info and length fields (bits 32..127)
    are covered by no check: a container that passes the checks still
    passes them with any one of these bits flipped, and [decrypt] ends the
    same way with the same output file. *)
Theorem flipped_info_bit_undetected
    (w w' : world) (inpath outpath : string) (data : bytes) (i : nat) :
  files w !! inpath = Some data ->
  files w' !! inpath = Some (flip_bit i data) ->
  (32 <= length data)%nat ->
  slice 0 4 data = cc_swu_decrypt.OTA_MAGIC ->
  MD5.digest (payload_of data) = stored_md5_of data ->
  (32 <= i < 128)%nat ->
  flip_bit i data <> data
  /\ snd (cc_swu_decrypt.decrypt inpath outpath w')
     = snd (cc_swu_decrypt.decrypt inpath outpath w)
  /\ files (fst (cc_swu_decrypt.decrypt inpath outpath w')) !! outpath
     = files (fst (cc_swu_decrypt.decrypt inpath outpath w)) !! outpath.
Proof.
  intros Hin Hin' Hlen Hmagic Hmd5 Hi.
  split; [apply flip_bit_ne; lia|].
  assert (Hm : slice 0 4 (flip_bit i data) = cc_swu_decrypt.OTA_MAGIC).
  { rewrite <- Hmagic. unfold slice. rewrite !drop_0.
    apply flip_bit_take_ge. simpl. lia. }
  assert (Hd : drop 16 (flip_bit i data) = drop 16 data)
    by (apply flip_bit_drop_lt; lia).
  assert (Hp : payload_of (flip_bit i data) = payload_of data).
  { unfold payload_of. apply flip_bit_drop_lt. simpl. lia. }
  assert (Hs : stored_md5_of (flip_bit i data) = stored_md5_of data).
  { unfold stored_md5_of, slice. by rewrite Hd. }
  rewrite (decrypt_checks_pass w inpath outpath data) by assumption.
  rewrite (decrypt_checks_pass w' inpath outpath (flip_bit i data));
    [| assumption | rewrite flip_bit_length; lia | assumption | congruence].
  rewrite Hp. cbn [fst snd]. split; [reflexivity|].
  by rewrite !decrypted_world_output.
Qed.

Lemma flipped_info_bit_undetected_witness :
  flip_bit 50 sample_container <> sample_container
  /\ snd (cc_swu_decrypt.decrypt "update.bin" "out.zip"
            (World {[ "update.bin"%string := flip_bit 50 sample_container ]} []))
     = snd (cc_swu_decrypt.decrypt "update.bin" "out.zip"
              (World {[ "update.bin"%string := sample_container ]} []))
  /\ files (fst (cc_swu_decrypt.decrypt "update.bin" "out.zip"
                   (World {[ "update.bin"%string := flip_bit 50 sample_container ]} [])))
       !! "out.zip"%string
     = files (fst (cc_swu_decrypt.decrypt "update.bin" "out.zip"
                     (World {[ "update.bin"%string := sample_container ]} [])))
         !! "out.zip"%string.
Proof.
  apply (flipped_info_bit_undetected
           (World {[ "update.bin"%string := sample_container ]} [])
           (World {[ "update.bin"%string := flip_bit 50 sample_container ]} [])
           "update.bin" "out.zip" sample_container 50).
  - reflexivity.
  - reflexivity.
  - vm_compute. lia.
  - reflexivity.
  - vm_compute. reflexivity.
  - lia.
Defined.

(** ** The command-line entry points *)









(** ** [config2autoconf.py]: strings and the matcher *)

Module ConfigFacts.
Import config2autoconf.

Lemma strip_prefix_app (p s : text) : strip_prefix p (p ++ s) = Some s.
Proof.
  induction p as [|c p IH]; [reflexivity|].
  cbn [app strip_prefix]. by rewrite N.eqb_refl.
Qed.

Lemma strip_prefix_Some (p s r : text) :
  strip_prefix p s = Some r -> s = p ++ r.
Proof.
  revert s. induction p as [|c p IH]; intros s H.
  - cbn in H. by injection H as ->.
  - destruct s as [|d s]; [discriminate|]. cbn [strip_prefix] in H.
    destruct (c =? d)%N eqn:E; [|discriminate].
    apply N.eqb_eq in E. subst d. cbn [app]. f_equal. by apply IH.
Qed.

(** *** [rstrip] *)

Lemma rstrip_all_space (ws : text) : forallb isspace ws = true -> rstrip ws = [].
Proof.
  induction ws as [|c ws IH]; [reflexivity|].
  cbn [forallb rstrip]. intros H. apply andb_true_iff in H as [Hc Hws].
  by rewrite (IH Hws), Hc.
Qed.

Lemma rstrip_app_space (s ws : text) :
  forallb isspace ws = true -> rstrip (s ++ ws) = rstrip s.
Proof.
  intros Hws. induction s as [|c s IH].
  - cbn [app]. by rewrite rstrip_all_space.
  - cbn [app rstrip]. by rewrite IH.
Qed.

Lemma rstrip_ends_nonspace (s : text) (c : N) :
  isspace c = false -> rstrip (s ++ [c]) = s ++ [c].
Proof.
  intros Hc. induction s as [|d s IH].
  - cbn. by rewrite Hc.
  - cbn [app rstrip]. rewrite IH. by destruct (s ++ [c]) eqn:E;
      [destruct s; discriminate|].
Qed.

(** A stripped string is empty or ends with a character that is no
    whitespace. *)
Lemma rstrip_shape (s : text) :
  rstrip s = [] \/ exists l c, rstrip s = l ++ [c] /\ isspace c = false.
Proof.
  induction s as [|d s IH]; [by left|].
  cbn [rstrip]. destruct IH as [-> | (l & c & -> & Hc)].
  - destruct (isspace d) eqn:Hd; [by left|].
    right. exists [], d. by split.
  - right. exists (d :: l), c. split; [|exact Hc].
    cbn [app]. by destruct (l ++ [c]) eqn:E; [destruct l; discriminate|].
Qed.

(** *** Greedy repetition *)

Lemma star_sound (p : N -> bool) (pos : nat) (s : text)
    (k : nat -> text -> option groups) (m : groups) :
  star p pos s k = Some m ->
  exists X R, s = X ++ R /\ forallb p X = true
              /\ k (pos + length X)%nat R = Some m.
Proof.
  revert pos. induction s as [|c s IH]; intros pos H.
  - exists [], []. cbn in *. by rewrite Nat.add_0_r.
  - cbn [star] in H. destruct (p c) eqn:Hc.
    + destruct (star p (S pos) s k) as [m'|] eqn:Hs.
      * injection H as ->. destruct (IH _ Hs) as (X & R & -> & HX & Hk).
        exists (c :: X), R. cbn [app forallb length]. rewrite Hc, HX.
        repeat split. by replace (pos + S (length X))%nat
          with (S pos + length X)%nat by lia.
      * exists [], (c :: s). cbn. by rewrite Nat.add_0_r.
    + exists [], (c :: s). cbn. by rewrite Nat.add_0_r.
Qed.

(** When the continuation fails after every non-empty run, nothing is
    consumed. *)
Lemma star_no_longer (p : N -> bool) (pos : nat) (R : text)
    (k : nat -> text -> option groups) :
  (forall R1 R2, R = R1 ++ R2 -> R1 <> [] -> forallb p R1 = true ->
                 k (pos + length R1)%nat R2 = None) ->
  star p pos R k = k pos R.
Proof.
  revert pos. induction R as [|c R IH]; intros pos Hfail; [reflexivity|].
  cbn [star]. destruct (p c) eqn:Hc; [|reflexivity].
  rewrite IH.
  - assert (Hn : k (S pos) R = None).
    { replace (S pos) with (pos + length [c])%nat by (cbn; lia).
      apply Hfail; [reflexivity | discriminate |]. cbn. by rewrite Hc. }
    by rewrite Hn.
  - intros R1 R2 -> Hne HR1.
    replace (S pos + length R1)%nat with (pos + length (c :: R1))%nat
      by (cbn; lia).
    apply Hfail; [reflexivity | discriminate |].
    cbn. by rewrite Hc.
Qed.

(** The run [X] is taken when the continuation succeeds after it and
    fails after every longer run. *)
Lemma star_complete (p : N -> bool) (pos : nat) (X R : text)
    (k : nat -> text -> option groups) (m : groups) :
  forallb p X = true ->
  k (pos + length X)%nat R = Some m ->
  (forall R1 R2, R = R1 ++ R2 -> R1 <> [] -> forallb p R1 = true ->
                 k (pos + length X + length R1)%nat R2 = None) ->
  star p pos (X ++ R) k = Some m.
Proof.
  revert pos. induction X as [|c X IH]; intros pos HX Hk Hfail.
  - cbn [app]. rewrite star_no_longer.
    + by rewrite <- Hk, Nat.add_0_r.
    + intros R1 R2 E Hne H1. specialize (Hfail R1 R2 E Hne H1).
      by rewrite Nat.add_0_r in Hfail.
  - cbn [forallb] in HX. apply andb_true_iff in HX as [Hc HX].
    cbn [app star]. rewrite Hc.
    rewrite (IH (S pos)); [reflexivity | exact HX | |].
    + by replace (S pos + length X)%nat with (pos + length (c :: X))%nat
        by (cbn; lia).
    + intros R1 R2 E Hne H1.
      replace (S pos + length X + length R1)%nat
        with (pos + length (c :: X) + length R1)%nat by (cbn; lia).
      by apply Hfail.
Qed.


Lemma star_whole (p : N -> bool) (pos : nat) (X : text)
    (k : nat -> text -> option groups) (m : groups) :
  forallb p X = true ->
  k (pos + length X)%nat [] = Some m ->
  star p pos X k = Some m.
Proof.
  intros HX Hk. rewrite <- (app_nil_r X).
  apply star_complete; [exact HX | exact Hk |].
  intros R1 R2 E Hne. by destruct R1.
Qed.

(** *** The group [(CONFIG_\S+)] *)

Lemma take_name (X R : text) :
  take (7 + length X) (lit "CONFIG_" ++ X ++ R) = lit "CONFIG_" ++ X.
Proof.
  rewrite app_assoc. apply take_app_length'.
  rewrite length_app. reflexivity.
Qed.

Lemma run_name_complete (T : regex) (pos : nat) (X R : text) (m0 : groups)
    (k : nat -> text -> groups -> option groups) (m : groups) :
  X <> [] -> forallb nonspace X = true ->
  run T (pos + 7 + length X) R ((1%nat, lit "CONFIG_" ++ X) :: m0) k = Some m ->
  (forall R1 R2, R = R1 ++ R2 -> R1 <> [] -> forallb nonspace R1 = true ->
     run T (pos + 7 + length X + length R1) R2
       ((1%nat, lit "CONFIG_" ++ X ++ R1) :: m0) k = None) ->
  run (Cat name_group T) pos (lit "CONFIG_" ++ X ++ R) m0 k = Some m.
Proof.
  intros Hne HX Hk Hfail.
  destruct X as [|x X]; [done|]. cbn [forallb] in HX.
  apply andb_true_iff in HX as [Hx HX].
  unfold name_group. cbn [run]. rewrite strip_prefix_app.
  change (length (lit "CONFIG_")) with 7%nat.
  cbn [app]. rewrite Hx.
  apply star_complete; [exact HX | |].
  - replace (S (pos + 7) + length X - pos)%nat with (7 + length (x :: X))%nat
      by (cbn [length]; lia).
    change (x :: X ++ R) with ((x :: X) ++ R).
    rewrite (take_name (x :: X) R).
    by replace (S (pos + 7) + length X)%nat with (pos + 7 + length (x :: X))%nat
      by (cbn [length]; lia).
  - intros R1 R2 -> HR1 Hns.
    replace (S (pos + 7) + length X + length R1 - pos)%nat
      with (7 + length ((x :: X) ++ R1))%nat
      by (rewrite length_app; cbn [length]; lia).
    replace (x :: X ++ R1 ++ R2) with (((x :: X) ++ R1) ++ R2)
      by (by rewrite <- app_assoc).
    rewrite (take_name ((x :: X) ++ R1) R2).
    replace (S (pos + 7) + length X + length R1)%nat
      with (pos + 7 + length (x :: X) + length R1)%nat by (cbn [length]; lia).
    by apply Hfail.
Qed.

Lemma run_name_sound (T : regex) (pos : nat) (s : text) (m0 : groups)
    (k : nat -> text -> groups -> option groups) (m : groups) :
  run (Cat name_group T) pos s m0 k = Some m ->
  exists X R, s = lit "CONFIG_" ++ X ++ R /\ X <> []
              /\ forallb nonspace X = true
              /\ run T (pos + 7 + length X) R
                   ((1%nat, lit "CONFIG_" ++ X) :: m0) k = Some m.
Proof.
  unfold name_group. cbn [run]. intros H.
  destruct (strip_prefix (lit "CONFIG_") s) as [rest|] eqn:Hp; [|discriminate].
  apply strip_prefix_Some in Hp. subst s.
  change (length (lit "CONFIG_")) with 7%nat in H.
  destruct rest as [|x rest]; [discriminate|].
  destruct (nonspace x) eqn:Hx; [|discriminate].
  apply star_sound in H. destruct H as (X & R & -> & HX & Hk).
  exists (x :: X), R. split; [reflexivity|]. split; [discriminate|].
  split; [cbn [forallb]; by rewrite Hx, HX|].
  replace (S (pos + 7) + length X - pos)%nat with (7 + length (x :: X))%nat
    in Hk by (cbn [length]; lia).
  change (lit "CONFIG_" ++ x :: X ++ R) with (lit "CONFIG_" ++ (x :: X) ++ R) in Hk.
  rewrite (take_name (x :: X) R) in Hk.
  by replace (pos + 7 + length (x :: X))%nat with (S (pos + 7) + length X)%nat
    by (cbn [length]; lia).
Qed.

(** *** Tails: a literal, then the end of the line *)

Lemma run_eol_nil (pos : nat) (m : groups) :
  run Eol pos [] m (fun _ _ m' => Some m') = Some m.
Proof. reflexivity. Qed.

Lemma run_eol_sound (pos : nat) (R : text) (m m' : groups) :
  run Eol pos R m (fun _ _ m' => Some m') = Some m' ->
  (R = [] \/ R = [newline]) /\ m' = m.
Proof.
  cbn [run]. destruct R as [|c [|d R]]; intros H.
  - injection H as ->. by split; [left|].
  - destruct (c =? newline)%N eqn:E; [|discriminate].
    apply N.eqb_eq in E. subst c. injection H as ->. by split; [right|].
  - discriminate.
Qed.

Lemma run_lit_eol (L : text) (pos : nat) (m : groups) :
  run (Cat (Lit L) Eol) pos L m (fun _ _ m' => Some m') = Some m.
Proof.
  cbn [run]. rewrite <- (app_nil_r L) at 2. by rewrite strip_prefix_app.
Qed.

Lemma run_lit_eol_sound (L : text) (pos : nat) (R : text) (m m' : groups) :
  run (Cat (Lit L) Eol) pos R m (fun _ _ m' => Some m') = Some m' ->
  (R = L \/ R = L ++ [newline]) /\ m' = m.
Proof.
  cbn [run]. destruct (strip_prefix L R) as [rest|] eqn:Hp; [|discriminate].
  apply strip_prefix_Some in Hp. subst R. intros H.
  apply (run_eol_sound (pos + length L) rest m m') in H.
  destruct H as [[-> | ->] ->]; split; auto. left. apply app_nil_r.
Qed.

(** A tail that starts with a literal fails on a subject that does not
    start with it. *)
Lemma run_lit_fail (L : text) (T : regex) (pos : nat) (R : text) (m : groups)
    (k : nat -> text -> groups -> option groups) :
  strip_prefix L R = None -> run (Cat (Lit L) T) pos R m k = None.
Proof. intros H. cbn [run]. by rewrite H. Qed.

(** After an equals sign and a value without one, no later place starts
    with an equals sign. *)
Lemma no_later_equals (V R1 R2 L : text) :
  forallb (fun c => negb (c =? 61%N)%N) V = true ->
  61%N :: V = R1 ++ R2 -> R1 <> [] ->
  strip_prefix (61%N :: L) R2 = None.
Proof.
  intros HV E Hne. destruct R1 as [|c R1]; [done|].
  injection E as _ ->. rewrite forallb_app in HV.
  apply andb_true_iff in HV as [_ HV].
  destruct R2 as [|d R2]; [reflexivity|].
  cbn [forallb] in HV. apply andb_true_iff in HV as [Hd _].
  cbn [strip_prefix]. rewrite N.eqb_sym. by apply negb_true_iff in Hd as ->.
Qed.


(** *** Name, literal, end of line: the shape of three of the patterns *)

Lemma last_app_cons (l : text) (c : N) (e : text) :
  last (l ++ c :: e) = last (c :: e).
Proof.
  induction l as [|d l IH]; [reflexivity|].
  cbn [app]. rewrite <- IH. by destruct (l ++ c :: e) eqn:E;
    [destruct l; discriminate|].
Qed.

Lemma name_lit_eol_sound (L : text) (pos : nat) (s : text) (m : groups) :
  run (Cat name_group (Cat (Lit L) Eol)) pos s [] (fun _ _ m' => Some m')
    = Some m ->
  exists X e, s = lit "CONFIG_" ++ X ++ L ++ e /\ (e = [] \/ e = [newline])
              /\ X <> [] /\ forallb nonspace X = true
              /\ m = [(1%nat, lit "CONFIG_" ++ X)].
Proof.
  intros H. apply run_name_sound in H.
  destruct H as (X & R & -> & Hne & HX & H).
  apply run_lit_eol_sound in H. destruct H as [[-> | ->] ->].
  - exists X, []. rewrite app_nil_r. repeat split; auto.
  - exists X, [newline]. repeat split; auto.
Qed.

Lemma name_lit_eol_complete (L : text) (pos : nat) (X : text) :
  X <> [] -> forallb nonspace X = true ->
  (forall R1 R2, L = R1 ++ R2 -> R1 <> [] -> forallb nonspace R1 = true ->
     strip_prefix L R2 = None) ->
  run (Cat name_group (Cat (Lit L) Eol)) pos (lit "CONFIG_" ++ X ++ L) []
    (fun _ _ m' => Some m')
  = Some [(1%nat, lit "CONFIG_" ++ X)].
Proof.
  intros Hne HX HL. apply run_name_complete; auto.
  - apply run_lit_eol.
  - intros R1 R2 E H1 H2. apply run_lit_fail. by apply (HL R1 R2).
Qed.

(** *** The string and integer values *)

Lemma take_length_app (a b : text) (n : nat) :
  n = length a -> take n (a ++ b) = a.
Proof. intros ->. by apply take_app_length'. Qed.

Ltac list_length :=
  repeat (rewrite length_app || cbn [length]);
  change (length (lit "=")) with 1%nat;
  change (length (lit "0x")) with 2%nat;
  lia.

Lemma string_tail_sound (pos : nat) (R : text) (m m' : groups) :
  run string_tail pos R m (fun _ _ m' => Some m') = Some m' ->
  exists V e, R = lit "=" ++ [quote] ++ V ++ [quote] ++ e
              /\ (e = [] \/ e = [newline])
              /\ forallb dot V = true
              /\ m' = (2%nat, [quote] ++ V ++ [quote]) :: m.
Proof.
  unfold string_tail. cbn [run]. intros H.
  destruct (strip_prefix (lit "=") R) as [R1|] eqn:E0; [|discriminate].
  apply strip_prefix_Some in E0. subst R.
  destruct (strip_prefix [quote] R1) as [R2|] eqn:E1; [|discriminate].
  apply strip_prefix_Some in E1. subst R1.
  apply star_sound in H. destruct H as (V & R3 & -> & HV & H).
  destruct (strip_prefix [quote] R3) as [e|] eqn:E2; [|discriminate].
  apply strip_prefix_Some in E2. subst R3.
  apply (run_eol_sound 0%nat) in H. destruct H as [He ->].
  exists V, e. split; [reflexivity|]. split; [exact He|]. split; [exact HV|].
  replace ([quote] ++ V ++ [quote] ++ e) with (([quote] ++ V ++ [quote]) ++ e)
    by (by rewrite <- !app_assoc).
  by rewrite take_length_app by list_length.
Qed.

Lemma string_tail_complete (pos : nat) (V : text) (m : groups) :
  forallb dot V = true ->
  run string_tail pos (lit "=" ++ [quote] ++ V ++ [quote]) m
    (fun _ _ m' => Some m')
  = Some ((2%nat, [quote] ++ V ++ [quote]) :: m).
Proof.
  intros HV. unfold string_tail. cbn [run].
  rewrite strip_prefix_app. rewrite strip_prefix_app.
  erewrite star_complete; [reflexivity | exact HV | |].
  - cbn [strip_prefix]. rewrite N.eqb_refl. cbn [run].
    replace ([quote] ++ V ++ [quote]) with (([quote] ++ V ++ [quote]) ++ [])
      at 1 by apply app_nil_r.
    by rewrite take_length_app by list_length.
  - intros R1 R2 E Hne _. destruct R1 as [|c R1]; [done|].
    injection E as _ E. destruct R1; [|discriminate].
    cbn [app] in E. subst R2. reflexivity.
Qed.

Lemma integer_tail_sound (dec : N -> bool) (pos : nat) (R : text)
    (m m' : groups) :
  run (integer_tail dec) pos R m (fun _ _ m' => Some m') = Some m' ->
  exists V e, R = lit "=" ++ V ++ e /\ (e = [] \/ e = [newline])
              /\ ((exists H, V = lit "0x" ++ H /\ H <> []
                             /\ forallb hexdigit H = true)
                  \/ (V <> [] /\ forallb dec V = true))
              /\ m' = (2%nat, V) :: m.
Proof.
  unfold integer_tail. cbn [run]. intros H.
  destruct (strip_prefix (lit "=") R) as [R1|] eqn:E0; [|discriminate].
  apply strip_prefix_Some in E0. subst R.
  change (length (lit "=")) with 1%nat in H.
  match type of H with
  | match ?a with Some m' => _ | None => ?b end = _ =>
      destruct a as [ma|] eqn:Ha
  end.
  - injection H as ->.
    destruct (strip_prefix (lit "0x") R1) as [R2|] eqn:E1; [|discriminate].
    apply strip_prefix_Some in E1. subst R1.
    destruct R2 as [|h R2]; [discriminate|].
    destruct (hexdigit h) eqn:Hh; [|discriminate].
    apply star_sound in Ha. destruct Ha as (X & e & -> & HX & Ha).
    apply (run_eol_sound 0%nat) in Ha. destruct Ha as [He ->].
    exists (lit "0x" ++ h :: X), e. rewrite <- app_assoc.
    split; [reflexivity|]. split; [exact He|]. split.
    + left. exists (h :: X). split; [reflexivity|]. split; [discriminate|].
      cbn [forallb]. by rewrite Hh, HX.
    + replace (lit "0x" ++ h :: X ++ e) with ((lit "0x" ++ h :: X) ++ e)
        by (by rewrite <- app_assoc).
      by rewrite take_length_app by list_length.
  - destruct R1 as [|d R1]; [discriminate|].
    destruct (dec d) eqn:Hd; [|discriminate].
    apply star_sound in H. destruct H as (X & e & -> & HX & H).
    apply (run_eol_sound 0%nat) in H. destruct H as [He ->].
    exists (d :: X), e. split; [reflexivity|]. split; [exact He|]. split.
    + right. split; [discriminate|]. cbn [forallb]. by rewrite Hd, HX.
    + change (d :: X ++ e) with ((d :: X) ++ e).
      by rewrite take_length_app by list_length.
Qed.


Lemma integer_tail_complete_hex (dec : N -> bool) (pos : nat) (H : text)
    (m : groups) :
  H <> [] -> forallb hexdigit H = true ->
  run (integer_tail dec) pos (lit "=" ++ lit "0x" ++ H) m
    (fun _ _ m' => Some m')
  = Some ((2%nat, lit "0x" ++ H) :: m).
Proof.
  intros Hne HH. destruct H as [|h H]; [done|].
  cbn [forallb] in HH. apply andb_true_iff in HH as [Hh HH].
  unfold integer_tail. cbn [run]. rewrite !strip_prefix_app, Hh.
  erewrite star_whole; [reflexivity | exact HH |]. cbn [run].
  replace (lit "0x" ++ h :: H) with ((lit "0x" ++ h :: H) ++ []) at 1
    by apply app_nil_r.
  by rewrite take_length_app by list_length.
Qed.

Lemma integer_tail_complete_dec (dec : N -> bool) (pos : nat) (V : text)
    (m : groups) :
  V <> [] -> forallb dec V = true -> strip_prefix (lit "0x") V = None ->
  run (integer_tail dec) pos (lit "=" ++ V) m (fun _ _ m' => Some m')
  = Some ((2%nat, V) :: m).
Proof.
  intros Hne HV Hno. destruct V as [|d V]; [done|].
  cbn [forallb] in HV. apply andb_true_iff in HV as [Hd HV].
  unfold integer_tail. cbn [run]. rewrite strip_prefix_app.
  rewrite Hno, Hd.
  erewrite star_whole; [reflexivity | exact HV |]. cbn [run].
  replace (d :: V) with ((d :: V) ++ []) at 1 by apply app_nil_r.
  by rewrite take_length_app by list_length.
Qed.

(** *** The five patterns *)

Lemma re_yes_unfold (s : text) :
  re_match re_yes s
  = run (Cat name_group (Cat (Lit (lit "=y")) Eol)) 0 s [] final.
Proof. reflexivity. Qed.

Lemma re_no_unfold (s : text) :
  re_match re_no s
  = run (Cat name_group (Cat (Lit (lit "=n")) Eol)) 0 s [] final.
Proof. reflexivity. Qed.

Lemma re_string_unfold (s : text) :
  re_match re_string s = run (Cat name_group string_tail) 0 s [] final.
Proof. reflexivity. Qed.

Lemma re_integer_unfold (dec : N -> bool) (s : text) :
  re_match (re_integer dec) s
  = run (Cat name_group (integer_tail dec)) 0 s [] final.
Proof. reflexivity. Qed.

Lemma re_not_set_unfold (s : text) :
  re_match re_not_set s
  = match strip_prefix (lit "# ") s with
    | Some rest =>
        run (Cat name_group (Cat (Lit (lit " is not set")) Eol)) 2 rest [] final
    | None => None
    end.
Proof. reflexivity. Qed.


(** *** What a match says about the subject *)

Lemma last_lit (A L : text) (c : N) :
  last L = Some c -> last (A ++ L) = Some c.
Proof. intros H. by rewrite last_app, H. Qed.

Lemma sound_ending (A L e : text) (c : N) :
  last L = Some c -> e = [] \/ e = [newline] ->
  last (A ++ L ++ e) = Some c \/ last (A ++ L ++ e) = Some newline.
Proof.
  intros HL [-> | ->].
  - left. rewrite app_nil_r. by apply last_lit.
  - right. rewrite !app_assoc. apply last_snoc.
Qed.

Lemma re_yes_sound (s : text) (m : groups) :
  re_match re_yes s = Some m ->
  exists X e, s = lit "CONFIG_" ++ X ++ lit "=y" ++ e
              /\ (e = [] \/ e = [newline])
              /\ X <> [] /\ forallb nonspace X = true
              /\ m = [(1%nat, lit "CONFIG_" ++ X)].
Proof. rewrite re_yes_unfold. apply name_lit_eol_sound. Qed.

Lemma re_no_sound (s : text) (m : groups) :
  re_match re_no s = Some m ->
  exists X e, s = lit "CONFIG_" ++ X ++ lit "=n" ++ e
              /\ (e = [] \/ e = [newline])
              /\ X <> [] /\ forallb nonspace X = true
              /\ m = [(1%nat, lit "CONFIG_" ++ X)].
Proof. rewrite re_no_unfold. apply name_lit_eol_sound. Qed.

Lemma re_not_set_sound (s : text) (m : groups) :
  re_match re_not_set s = Some m ->
  exists X e, s = lit "# " ++ lit "CONFIG_" ++ X ++ lit " is not set" ++ e
              /\ (e = [] \/ e = [newline])
              /\ X <> [] /\ forallb nonspace X = true
              /\ m = [(1%nat, lit "CONFIG_" ++ X)].
Proof.
  rewrite re_not_set_unfold.
  destruct (strip_prefix (lit "# ") s) as [rest|] eqn:E; [|discriminate].
  apply strip_prefix_Some in E. subst s. intros H.
  apply name_lit_eol_sound in H.
  destruct H as (X & e & -> & He & Hne & HX & ->).
  exists X, e. repeat split; auto.
Qed.

Lemma re_string_sound (s : text) (m : groups) :
  re_match re_string s = Some m ->
  exists X V e, s = lit "CONFIG_" ++ X ++ lit "=" ++ [quote] ++ V ++ [quote] ++ e
                /\ (e = [] \/ e = [newline])
                /\ X <> [] /\ forallb nonspace X = true
                /\ forallb dot V = true
                /\ m = [(2%nat, [quote] ++ V ++ [quote]);
                        (1%nat, lit "CONFIG_" ++ X)].
Proof.
  rewrite re_string_unfold. intros H. apply run_name_sound in H.
  destruct H as (X & R & -> & Hne & HX & H).
  apply string_tail_sound in H. destruct H as (V & e & -> & He & HV & ->).
  exists X, V, e. repeat split; auto.
Qed.

Lemma re_integer_sound (dec : N -> bool) (s : text) (m : groups) :
  re_match (re_integer dec) s = Some m ->
  exists X V e, s = lit "CONFIG_" ++ X ++ lit "=" ++ V ++ e
                /\ (e = [] \/ e = [newline])
                /\ X <> [] /\ forallb nonspace X = true
                /\ ((exists H, V = lit "0x" ++ H /\ H <> []
                               /\ forallb hexdigit H = true)
                    \/ (V <> [] /\ forallb dec V = true))
                /\ m = [(2%nat, V); (1%nat, lit "CONFIG_" ++ X)].
Proof.
  rewrite re_integer_unfold. intros H. apply run_name_sound in H.
  destruct H as (X & R & -> & Hne & HX & H).
  apply integer_tail_sound in H. destruct H as (V & e & -> & He & HV & ->).
  exists X, V, e. repeat split; auto.
Qed.

(** *** What is enough for a match *)

Lemma no_later_space (L R1 R2 : text) :
  L = R1 ++ R2 -> R1 <> [] -> forallb nonspace R1 = true ->
  hd_error L = Some 32%N -> strip_prefix L R2 = None.
Proof.
  intros -> Hne Hns Hhd. destruct R1 as [|c R1]; [done|].
  cbn in Hhd. injection Hhd as ->. discriminate.
Qed.

Lemma re_yes_complete (X : text) :
  X <> [] -> forallb nonspace X = true ->
  re_match re_yes (lit "CONFIG_" ++ X ++ lit "=y")
  = Some [(1%nat, lit "CONFIG_" ++ X)].
Proof.
  intros Hne HX. rewrite re_yes_unfold.
  apply name_lit_eol_complete; auto.
  intros R1 R2 E H1 _. by apply (no_later_equals (lit "y") R1 R2).
Qed.

Lemma re_no_complete (X : text) :
  X <> [] -> forallb nonspace X = true ->
  re_match re_no (lit "CONFIG_" ++ X ++ lit "=n")
  = Some [(1%nat, lit "CONFIG_" ++ X)].
Proof.
  intros Hne HX. rewrite re_no_unfold.
  apply name_lit_eol_complete; auto.
  intros R1 R2 E H1 _. by apply (no_later_equals (lit "n") R1 R2).
Qed.

Lemma re_not_set_complete (X : text) :
  X <> [] -> forallb nonspace X = true ->
  re_match re_not_set (lit "# " ++ lit "CONFIG_" ++ X ++ lit " is not set")
  = Some [(1%nat, lit "CONFIG_" ++ X)].
Proof.
  intros Hne HX. rewrite re_not_set_unfold, strip_prefix_app.
  apply name_lit_eol_complete; auto.
  intros R1 R2 E H1 H2. by apply (no_later_space _ R1 R2).
Qed.

Lemma re_string_complete (X V : text) :
  X <> [] -> forallb nonspace X = true -> forallb dot V = true ->
  forallb (fun c => negb (c =? 61)%N) V = true ->
  re_match re_string (lit "CONFIG_" ++ X ++ lit "=" ++ [quote] ++ V ++ [quote])
  = Some [(2%nat, [quote] ++ V ++ [quote]); (1%nat, lit "CONFIG_" ++ X)].
Proof.
  intros Hne HX HV Hno. rewrite re_string_unfold.
  apply run_name_complete; auto.
  - by apply string_tail_complete.
  - intros R1 R2 E H1 _. apply run_lit_fail.
    apply (no_later_equals ([quote] ++ V ++ [quote]) R1 R2); auto.
    rewrite !forallb_app, Hno. reflexivity.
Qed.

Lemma re_integer_complete_hex (dec : N -> bool) (X H : text) :
  X <> [] -> forallb nonspace X = true ->
  H <> [] -> forallb hexdigit H = true ->
  re_match (re_integer dec) (lit "CONFIG_" ++ X ++ lit "=" ++ lit "0x" ++ H)
  = Some [(2%nat, lit "0x" ++ H); (1%nat, lit "CONFIG_" ++ X)].
Proof.
  intros Hne HX HH Hhex. rewrite re_integer_unfold.
  apply run_name_complete; auto.
  - by apply integer_tail_complete_hex.
  - intros R1 R2 E H1 _. apply run_lit_fail.
    apply (no_later_equals (lit "0x" ++ H) R1 R2); auto.
    rewrite forallb_app. apply andb_true_iff. split; [reflexivity|].
    clear -Hhex. induction H as [|h H IH]; [reflexivity|].
    cbn [forallb] in *. apply andb_true_iff in Hhex as [Hh Hhex].
    rewrite (IH Hhex), andb_true_r.
    destruct (h =? 61)%N eqn:E; [|reflexivity].
    apply N.eqb_eq in E. by subst h.
Qed.

Lemma ascii_digits_no_equals (V : text) :
  forallb (in_range 48 57) V = true ->
  forallb (fun c => negb (c =? 61)%N) V = true.
Proof.
  induction V as [|v V IH]; [reflexivity|]. cbn [forallb].
  intros H. apply andb_true_iff in H as [Hv HV]. rewrite (IH HV), andb_true_r.
  destruct (v =? 61)%N eqn:E; [|reflexivity].
  apply N.eqb_eq in E. by subst v.
Qed.

Lemma ascii_digits_no_0x (V : text) :
  forallb (in_range 48 57) V = true -> strip_prefix (lit "0x") V = None.
Proof.
  change (lit "0x") with [48%N; 120%N].
  destruct V as [|d [|x V]]; cbn [forallb strip_prefix]; intros H.
  - reflexivity.
  - by destruct (48 =? d)%N.
  - destruct (48 =? d)%N; [|reflexivity].
    destruct (120 =? x)%N eqn:E; [|reflexivity].
    apply N.eqb_eq in E. subst x. by rewrite andb_false_r in H.
Qed.

Lemma forallb_impl (p q : N -> bool) (l : text) :
  (forall c, p c = true -> q c = true) ->
  forallb p l = true -> forallb q l = true.
Proof.
  intros Hpq. rewrite !forallb_forall. auto.
Qed.

Lemma re_integer_complete_dec (dec : N -> bool) (X V : text) :
  (forall c, in_range 48 57 c = true -> dec c = true) ->
  X <> [] -> forallb nonspace X = true ->
  V <> [] -> forallb (in_range 48 57) V = true ->
  re_match (re_integer dec) (lit "CONFIG_" ++ X ++ lit "=" ++ V)
  = Some [(2%nat, V); (1%nat, lit "CONFIG_" ++ X)].
Proof.
  intros Hdec Hne HX HVne HV. rewrite re_integer_unfold.
  apply run_name_complete; auto.
  - apply integer_tail_complete_dec; auto.
    + by apply (forallb_impl (in_range 48 57)).
    + by apply ascii_digits_no_0x.
  - intros R1 R2 E H1 _. apply run_lit_fail.
    apply (no_later_equals V R1 R2); auto.
    by apply ascii_digits_no_equals.
Qed.


(** *** No match *)

Lemma forallb_last (p : N -> bool) (l : text) (c : N) :
  forallb p l = true -> last l = Some c -> p c = true.
Proof.
  intros Hp Hl. rewrite forallb_forall in Hp. apply Hp.
  apply list_elem_of_In. apply last_Some in Hl as [l' ->]. set_solver.
Qed.

Lemma ending_excluded (A L e : text) (c d : N) :
  last L = Some d -> e = [] \/ e = [newline] ->
  last (A ++ L ++ e) = Some c -> c <> newline -> c = d.
Proof.
  intros HL He Hc Hnl.
  destruct (sound_ending A L e d HL He) as [H | H]; congruence.
Qed.

Lemma re_yes_fail (s : text) (c : N) :
  last s = Some c -> c <> 121%N -> c <> newline -> re_match re_yes s = None.
Proof.
  intros Hl Hc Hnl. destruct (re_match re_yes s) as [m|] eqn:E; [|reflexivity].
  apply re_yes_sound in E. destruct E as (X & e & -> & He & _).
  rewrite app_assoc in Hl.
  by pose proof (ending_excluded _ (lit "=y") e c 121%N eq_refl He Hl Hnl).
Qed.

Lemma re_no_fail (s : text) (c : N) :
  last s = Some c -> c <> 110%N -> c <> newline -> re_match re_no s = None.
Proof.
  intros Hl Hc Hnl. destruct (re_match re_no s) as [m|] eqn:E; [|reflexivity].
  apply re_no_sound in E. destruct E as (X & e & -> & He & _).
  rewrite app_assoc in Hl.
  by pose proof (ending_excluded _ (lit "=n") e c 110%N eq_refl He Hl Hnl).
Qed.

Lemma re_string_fail (s : text) (c : N) :
  last s = Some c -> c <> quote -> c <> newline -> re_match re_string s = None.
Proof.
  intros Hl Hc Hnl. destruct (re_match re_string s) as [m|] eqn:E; [|reflexivity].
  apply re_string_sound in E. destruct E as (X & V & e & -> & He & _).
  rewrite !app_assoc in Hl. rewrite <- (app_assoc _ [quote] e) in Hl.
  by pose proof (ending_excluded _ [quote] e c quote eq_refl He Hl Hnl).
Qed.

Lemma re_integer_fail (dec : N -> bool) (s : text) (c : N) :
  last s = Some c -> hexdigit c = false -> dec c = false -> c <> newline ->
  re_match (re_integer dec) s = None.
Proof.
  intros Hl Hh Hd Hnl.
  destruct (re_match (re_integer dec) s) as [m|] eqn:E; [|reflexivity].
  apply re_integer_sound in E.
  destruct E as (X & V & e & -> & He & _ & _ & HV & _).
  assert (exists v, last V = Some v /\ (hexdigit v = true \/ dec v = true))
    as (v & Hv & Hpv).
  { destruct HV as [(H & -> & Hne & HH) | [Hne HV]].
    - destruct (last H) as [v|] eqn:Ev.
      + exists v. split; [by apply last_lit|]. left. by apply (forallb_last _ H).
      + apply last_None in Ev. done.
    - destruct (last V) as [v|] eqn:Ev.
      + exists v. split; [reflexivity|]. right. by apply (forallb_last _ V).
      + apply last_None in Ev. done. }
  rewrite !app_assoc in Hl. rewrite <- (app_assoc _ V e) in Hl.
  pose proof (ending_excluded _ V e c v Hv He Hl Hnl) as ->.
  destruct Hpv; congruence.
Qed.

(** *** The loop body *)

Lemma rstrip_keep (L ws : text) (c : N) :
  last L = Some c -> isspace c = false -> forallb isspace ws = true ->
  rstrip (L ++ ws) = L.
Proof.
  intros Hl Hc Hws. rewrite rstrip_app_space by exact Hws.
  apply last_Some in Hl as [l ->]. by apply rstrip_ends_nonspace.
Qed.

Lemma rstrip_last (s : text) (c : N) :
  last (rstrip s) = Some c -> isspace c = false.
Proof.
  destruct (rstrip_shape s) as [-> | (l & d & -> & Hd)]; [discriminate|].
  rewrite last_snoc. by intros [= <-].
Qed.

Lemma convert_line_plain (dec : N -> bool) (line0 L : text) :
  rstrip line0 = L -> L <> [] -> startswith L (lit "#") = false ->
  convert_line dec line0
  = match re_match re_yes L with
    | Some m => Some (lit "#define " ++ group m 1 ++ lit " 1" ++ [newline])
    | None =>
    match re_match re_no L with
    | Some m => Some (lit "/* " ++ group m 1 ++ lit " is not set */" ++ [newline])
    | None =>
    match re_match re_string L with
    | Some m =>
        Some (lit "#define " ++ group m 1 ++ lit " " ++ group m 2 ++ [newline])
    | None =>
    match re_match (re_integer dec) L with
    | Some m =>
        Some (lit "#define " ++ group m 1 ++ lit " " ++ group m 2 ++ [newline])
    | None => None
    end end end end.
Proof.
  intros Hr Hne Hs. unfold convert_line. rewrite Hr.
  destruct L as [|c L]; [done|]. by rewrite Hs.
Qed.

Lemma convert_line_comment (dec : N -> bool) (line0 L : text) :
  rstrip line0 = L -> startswith L (lit "#") = true ->
  convert_line dec line0
  = match re_match re_not_set L with
    | Some m => Some (lit "/* " ++ group m 1 ++ lit " is not set */" ++ [newline])
    | None => None
    end.
Proof.
  intros Hr Hs. unfold convert_line. rewrite Hr.
  destruct L as [|c L]; [discriminate|]. by rewrite Hs.
Qed.

End ConfigFacts.

Import config2autoconf ConfigFacts.

(** ** [config2autoconf.py]: what each line becomes *)

(** X18: for every name [CONFIG_X] with a non-empty [X] free of whitespace,
    the line [CONFIG_X=y] becomes [#define CONFIG_X 1], and the lines
    [CONFIG_X=n] and [# CONFIG_X is not set] both become the comment
    [/* CONFIG_X is not set */]; whitespace after the line is ignored. *)
Theorem convert_boolean_option (dec : N -> bool) (X ws : text) :
  X <> [] -> forallb nonspace X = true -> forallb isspace ws = true ->
  convert_line dec ((lit "CONFIG_" ++ X ++ lit "=y") ++ ws)
    = Some (lit "#define CONFIG_" ++ X ++ lit " 1" ++ [newline])
  /\ convert_line dec ((lit "CONFIG_" ++ X ++ lit "=n") ++ ws)
     = Some (lit "/* CONFIG_" ++ X ++ lit " is not set */" ++ [newline])
  /\ convert_line dec ((lit "# CONFIG_" ++ X ++ lit " is not set") ++ ws)
     = Some (lit "/* CONFIG_" ++ X ++ lit " is not set */" ++ [newline]).
Proof.
  intros Hne HX Hws. split; [|split].
  - rewrite (convert_line_plain dec _ (lit "CONFIG_" ++ X ++ lit "=y")).
    + by rewrite re_yes_complete.
    + apply (rstrip_keep _ _ 121%N); auto.
      rewrite app_assoc. by apply last_lit.
    + discriminate.
    + reflexivity.
  - rewrite (convert_line_plain dec _ (lit "CONFIG_" ++ X ++ lit "=n")).
    + rewrite (re_yes_fail _ 110%N); [| |discriminate|discriminate].
      * by rewrite re_no_complete.
      * rewrite app_assoc. by apply last_lit.
    + apply (rstrip_keep _ _ 110%N); auto.
      rewrite app_assoc. by apply last_lit.
    + discriminate.
    + reflexivity.
  - rewrite (convert_line_comment dec _
               (lit "# " ++ lit "CONFIG_" ++ X ++ lit " is not set")).
    + by rewrite re_not_set_complete.
    + apply (rstrip_keep _ _ 116%N); auto.
      change (lit "# CONFIG_" ++ X ++ lit " is not set")
        with (lit "# " ++ lit "CONFIG_" ++ X ++ lit " is not set").
      rewrite !app_assoc. by apply last_lit.
    + reflexivity.
Qed.

Lemma convert_boolean_option_witness :
  convert_line ascii_decimal ((lit "CONFIG_" ++ lit "FOO" ++ lit "=y") ++ [32; 10]%N)
    = Some (lit "#define CONFIG_" ++ lit "FOO" ++ lit " 1" ++ [newline])
  /\ convert_line ascii_decimal ((lit "CONFIG_" ++ lit "FOO" ++ lit "=n") ++ [32; 10]%N)
     = Some (lit "/* CONFIG_" ++ lit "FOO" ++ lit " is not set */" ++ [newline])
  /\ convert_line ascii_decimal
       ((lit "# CONFIG_" ++ lit "FOO" ++ lit " is not set") ++ [32; 10]%N)
     = Some (lit "/* CONFIG_" ++ lit "FOO" ++ lit " is not set */" ++ [newline]).
Proof.
  apply (convert_boolean_option ascii_decimal (lit "FOO") [32; 10]%N).
  - vm_compute. discriminate.
  - reflexivity.
  - reflexivity.
Defined.

Lemma re_not_set_fail (s : text) (c : N) :
  last s = Some c -> c <> 116%N -> c <> newline -> re_match re_not_set s = None.
Proof.
  intros Hl Hc Hnl. destruct (re_match re_not_set s) as [m|] eqn:E; [|reflexivity].
  apply re_not_set_sound in E. destruct E as (X & e & -> & He & _).
  rewrite !app_assoc in Hl. rewrite <- (app_assoc _ (lit " is not set") e) in Hl.
  by pose proof (ending_excluded _ (lit " is not set") e c 116%N eq_refl He Hl Hnl).
Qed.

Lemma last_nonempty (A V : text) :
  V <> [] -> exists v, last V = Some v /\ last (A ++ V) = Some v.
Proof.
  intros HV. destruct (last V) as [v|] eqn:E.
  - exists v. split; [reflexivity|]. by apply last_lit.
  - by apply last_None in E.
Qed.

Lemma hexdigit_not_space (c : N) : hexdigit c = true -> isspace c = false.
Proof.
  intros H. assert (48 <= c <= 102)%N as Hr.
  { unfold hexdigit, in_range in H.
    apply orb_true_iff in H as [H|H]; [apply orb_true_iff in H as [H|H]|];
      apply andb_true_iff in H as [H1 H2]; apply N.leb_le in H1, H2; lia. }
  unfold isspace, in_range.
  repeat match goal with
         | |- context [(?a <=? ?b)%N] =>
             first [ replace (a <=? b)%N with false
                       by (symmetry; apply N.leb_gt; lia)
                   | replace (a <=? b)%N with true
                       by (symmetry; apply N.leb_le; lia) ]
         end.
  repeat match goal with
         | |- context [(?a =? ?b)%N] =>
             replace (a =? b)%N with false by (symmetry; apply N.eqb_neq; lia)
         end.
  reflexivity.
Qed.

Lemma ascii_digit_hexdigit (c : N) : in_range 48 57 c = true -> hexdigit c = true.
Proof. unfold hexdigit. by intros ->. Qed.

(** X19: an integer value is copied as it is: [CONFIG_X=0x] followed by
    hexadecimal digits, and [CONFIG_X=] followed by ASCII decimal digits
    (which the class [\d] contains), become [#define CONFIG_X] and the
    value. *)
Theorem convert_integer_option (dec : N -> bool) (X V ws : text) :
  X <> [] -> forallb nonspace X = true -> V <> [] ->
  forallb isspace ws = true ->
  (forallb hexdigit V = true ->
   convert_line dec ((lit "CONFIG_" ++ X ++ lit "=0x" ++ V) ++ ws)
   = Some (lit "#define CONFIG_" ++ X ++ lit " 0x" ++ V ++ [newline]))
  /\ ((forall c, in_range 48 57 c = true -> dec c = true) ->
      forallb (in_range 48 57) V = true ->
      convert_line dec ((lit "CONFIG_" ++ X ++ lit "=" ++ V) ++ ws)
      = Some (lit "#define CONFIG_" ++ X ++ lit " " ++ V ++ [newline])).
Proof.
  intros Hne HX HVne Hws. split.
  - intros HV.
    destruct (last_nonempty (lit "CONFIG_" ++ X ++ lit "=0x") V HVne)
      as (v & Hv & Hl).
    rewrite <- !app_assoc in Hl.
    pose proof (forallb_last _ _ _ HV Hv) as Hhex.
    rewrite (convert_line_plain dec _ (lit "CONFIG_" ++ X ++ lit "=0x" ++ V)).
    + rewrite (re_yes_fail _ v), (re_no_fail _ v), (re_string_fail _ v);
        try exact Hl; try (intros ->; discriminate).
      change (lit "=0x" ++ V) with (lit "=" ++ lit "0x" ++ V).
      by rewrite re_integer_complete_hex.
    + apply (rstrip_keep _ _ v); auto. by apply hexdigit_not_space.
    + discriminate.
    + reflexivity.
  - intros Hdec HV.
    destruct (last_nonempty (lit "CONFIG_" ++ X ++ lit "=") V HVne)
      as (v & Hv & Hl).
    rewrite <- !app_assoc in Hl.
    pose proof (forallb_last _ _ _ HV Hv) as Hdig.
    apply ascii_digit_hexdigit in Hdig as Hhex.
    rewrite (convert_line_plain dec _ (lit "CONFIG_" ++ X ++ lit "=" ++ V)).
    + rewrite (re_yes_fail _ v), (re_no_fail _ v), (re_string_fail _ v);
        try exact Hl; try (intros ->; discriminate).
      by rewrite re_integer_complete_dec.
    + apply (rstrip_keep _ _ v); auto. by apply hexdigit_not_space.
    + discriminate.
    + reflexivity.
Qed.

Lemma convert_integer_option_witness :
  convert_line ascii_decimal
    ((lit "CONFIG_" ++ lit "BASE" ++ lit "=0x" ++ lit "4A0") ++ [10%N])
  = Some (lit "#define CONFIG_" ++ lit "BASE" ++ lit " 0x" ++ lit "4A0" ++ [newline])
  /\ convert_line ascii_decimal
       ((lit "CONFIG_" ++ lit "BASE" ++ lit "=" ++ lit "640") ++ [10%N])
     = Some (lit "#define CONFIG_" ++ lit "BASE" ++ lit " " ++ lit "640" ++ [newline]).
Proof.
  split.
  - apply (proj1 (convert_integer_option ascii_decimal (lit "BASE") (lit "4A0")
                    [10%N] ltac:(discriminate) eq_refl ltac:(discriminate)
                    eq_refl)).
    reflexivity.
  - apply (proj2 (convert_integer_option ascii_decimal (lit "BASE") (lit "640")
                    [10%N] ltac:(discriminate) eq_refl ltac:(discriminate)
                    eq_refl)).
    + intros c H. exact H.
    + reflexivity.
Defined.

(** X20: a string value is copied with its quotes: [CONFIG_X="V"], where
    [V] has no [=], becomes [#define CONFIG_X "V"]. *)
Theorem convert_string_option (dec : N -> bool) (X V ws : text) :
  X <> [] -> forallb nonspace X = true ->
  forallb dot V = true -> forallb (fun c => negb (c =? 61)%N) V = true ->
  forallb isspace ws = true ->
  convert_line dec ((lit "CONFIG_" ++ X ++ lit "=" ++ [quote] ++ V ++ [quote]) ++ ws)
  = Some (lit "#define CONFIG_" ++ X ++ lit " " ++ [quote] ++ V ++ [quote]
            ++ [newline]).
Proof.
  intros Hne HX HV Hno Hws.
  assert (last (lit "CONFIG_" ++ X ++ lit "=" ++ [quote] ++ V ++ [quote])
          = Some quote) as Hl.
  { rewrite !app_assoc. apply last_snoc. }
  rewrite (convert_line_plain dec _
             (lit "CONFIG_" ++ X ++ lit "=" ++ [quote] ++ V ++ [quote])).
  - rewrite (re_yes_fail _ quote), (re_no_fail _ quote);
      try exact Hl; try discriminate.
    rewrite re_string_complete by auto. cbn [group find fst snd Nat.eqb].
    by rewrite <- !app_assoc.
  - by apply (rstrip_keep _ _ quote).
  - discriminate.
  - reflexivity.
Qed.

Lemma convert_string_option_witness :
  convert_line ascii_decimal
    ((lit "CONFIG_" ++ lit "NAME" ++ lit "=" ++ [quote] ++ lit "r528 dsp" ++ [quote])
       ++ [10%N])
  = Some (lit "#define CONFIG_" ++ lit "NAME" ++ lit " " ++ [quote]
            ++ lit "r528 dsp" ++ [quote] ++ [newline]).
Proof.
  apply (convert_string_option ascii_decimal (lit "NAME") (lit "r528 dsp") [10%N]).
  - discriminate.
  - reflexivity.
  - reflexivity.
  - reflexivity.
  - reflexivity.
Defined.

(** X21: lines that are dropped without a word.  A comment that does not end
    in [t] gives nothing; a line that is no comment and ends (before its
    trailing whitespace) in a character that is not [y], [n], a quote, a
    hexadecimal digit or a decimal digit gives nothing: so a tristate
    [CONFIG_X=m] leaves no trace in the header. *)
Theorem convert_line_dropped (dec : N -> bool) (line : text) (c : N) :
  last (rstrip line) = Some c ->
  (startswith (rstrip line) (lit "#") = true -> c <> 116%N ->
   convert_line dec line = None)
  /\ (startswith (rstrip line) (lit "#") = false ->
      c <> 121%N -> c <> 110%N -> c <> quote ->
      hexdigit c = false -> dec c = false ->
      convert_line dec line = None).
Proof.
  intros Hl. pose proof (rstrip_last _ _ Hl) as Hsp.
  assert (c <> newline) as Hnl by (intros ->; discriminate).
  split.
  - intros Hs Hc. rewrite (convert_line_comment dec line (rstrip line)); auto.
    by rewrite (re_not_set_fail _ c).
  - intros Hs Hy Hn Hq Hh Hd.
    rewrite (convert_line_plain dec line (rstrip line)); auto.
    + by rewrite (re_yes_fail _ c), (re_no_fail _ c), (re_string_fail _ c),
        (re_integer_fail dec _ c).
    + intros E. by rewrite E in Hl.
Qed.

Lemma convert_line_dropped_witness :
  convert_line ascii_decimal (lit "# Automatically generated" ++ [10%N]) = None
  /\ convert_line ascii_decimal (lit "CONFIG_FOO=m" ++ [10%N]) = None.
Proof.
  split.
  - apply (proj1 (convert_line_dropped ascii_decimal
                    (lit "# Automatically generated" ++ [10%N]) 100%N eq_refl)).
    + reflexivity.
    + discriminate.
  - apply (proj2 (convert_line_dropped ascii_decimal
                    (lit "CONFIG_FOO=m" ++ [10%N]) 109%N eq_refl)).
    + reflexivity.
    + discriminate.
    + discriminate.
    + discriminate.
    + reflexivity.
    + reflexivity.
Defined.

Lemma rstrip_exact_end (line A e : text) :
  rstrip line = A ++ e -> e = [] \/ e = [newline] -> rstrip line = A.
Proof.
  intros E [-> | ->]; [by rewrite app_nil_r in E|].
  assert (last (rstrip line) = Some newline) as Hl.
  { rewrite E. apply last_snoc. }
  apply rstrip_last in Hl. discriminate.
Qed.

Lemma convert_line_cases (dec : N -> bool) (line out : text) :
  convert_line dec line = Some out ->
  exists X, X <> [] /\ forallb nonspace X = true /\
    ((rstrip line = lit "# CONFIG_" ++ X ++ lit " is not set"
      /\ out = lit "/* CONFIG_" ++ X ++ lit " is not set */" ++ [newline])
     \/ (rstrip line = lit "CONFIG_" ++ X ++ lit "=y"
         /\ out = lit "#define CONFIG_" ++ X ++ lit " 1" ++ [newline])
     \/ (rstrip line = lit "CONFIG_" ++ X ++ lit "=n"
         /\ out = lit "/* CONFIG_" ++ X ++ lit " is not set */" ++ [newline])
     \/ (exists V, rstrip line = lit "CONFIG_" ++ X ++ lit "=" ++ V
           /\ out = lit "#define CONFIG_" ++ X ++ lit " " ++ V ++ [newline]
           /\ ((exists S, V = [quote] ++ S ++ [quote] /\ forallb dot S = true)
               \/ (exists H, V = lit "0x" ++ H /\ H <> []
                             /\ forallb hexdigit H = true)
               \/ (V <> [] /\ forallb dec V = true)))).
Proof.
  unfold convert_line. destruct (rstrip line) as [|c0 L0] eqn:EL; [discriminate|].
  rewrite <- EL. destruct (startswith (rstrip line) (lit "#")).
  - destruct (re_match re_not_set (rstrip line)) as [m|] eqn:E; [|discriminate].
    apply re_not_set_sound in E. destruct E as (X & e & E & He & Hne & HX & ->).
    intros [= <-]. exists X. split; [exact Hne|]. split; [exact HX|]. left.
    split; [|reflexivity].
    apply (rstrip_exact_end line _ e); [|exact He].
    rewrite E. by rewrite <- !app_assoc.
  - destruct (re_match re_yes (rstrip line)) as [m|] eqn:E.
    { apply re_yes_sound in E. destruct E as (X & e & E & He & Hne & HX & ->).
      intros [= <-]. exists X. split; [exact Hne|]. split; [exact HX|].
      right; left. split; [|reflexivity].
      apply (rstrip_exact_end line _ e); [|exact He].
      rewrite E. by rewrite <- !app_assoc. }
    clear E. destruct (re_match re_no (rstrip line)) as [m|] eqn:E.
    { apply re_no_sound in E. destruct E as (X & e & E & He & Hne & HX & ->).
      intros [= <-]. exists X. split; [exact Hne|]. split; [exact HX|].
      right; right; left. split; [|reflexivity].
      apply (rstrip_exact_end line _ e); [|exact He].
      rewrite E. by rewrite <- !app_assoc. }
    clear E. destruct (re_match re_string (rstrip line)) as [m|] eqn:E.
    { apply re_string_sound in E.
      destruct E as (X & S & e & E & He & Hne & HX & HS & ->).
      intros [= <-]. exists X. split; [exact Hne|]. split; [exact HX|].
      right; right; right. exists ([quote] ++ S ++ [quote]).
      split; [|split; [reflexivity|]].
      - apply (rstrip_exact_end line _ e); [|exact He].
        rewrite E. by rewrite <- !app_assoc.
      - left. by exists S. }
    clear E. destruct (re_match (re_integer dec) (rstrip line)) as [m|] eqn:E;
      [|discriminate].
    apply re_integer_sound in E.
    destruct E as (X & V & e & E & He & Hne & HX & HV & ->).
    intros [= <-]. exists X. split; [exact Hne|]. split; [exact HX|].
    right; right; right. exists V. split; [|split; [reflexivity|]].
    + apply (rstrip_exact_end line _ e); [|exact He].
      rewrite E. by rewrite <- !app_assoc.
    + right. exact HV.
Qed.

(** X22: whatever is written for a line has one of three forms, and the
    line, without its trailing whitespace, has the matching one: a
    comment [/* CONFIG_X is not set */] for [# CONFIG_X is not set] or
    [CONFIG_X=n], [#define CONFIG_X 1] for [CONFIG_X=y], and
    [#define CONFIG_X V] for [CONFIG_X=V] with [V] a quoted string, a
    hexadecimal literal or decimal digits.  The name always starts with
    [CONFIG_], is never empty and has no whitespace. *)
Theorem convert_line_shape (dec : N -> bool) (line out : text) :
  convert_line dec line = Some out ->
  exists X, X <> [] /\ forallb nonspace X = true /\
    ((out = lit "/* CONFIG_" ++ X ++ lit " is not set */" ++ [newline]
      /\ (rstrip line = lit "# CONFIG_" ++ X ++ lit " is not set"
          \/ rstrip line = lit "CONFIG_" ++ X ++ lit "=n"))
     \/ (out = lit "#define CONFIG_" ++ X ++ lit " 1" ++ [newline]
         /\ rstrip line = lit "CONFIG_" ++ X ++ lit "=y")
     \/ (exists V, out = lit "#define CONFIG_" ++ X ++ lit " " ++ V ++ [newline]
           /\ rstrip line = lit "CONFIG_" ++ X ++ lit "=" ++ V
           /\ ((exists S, V = [quote] ++ S ++ [quote] /\ forallb dot S = true)
               \/ (exists H, V = lit "0x" ++ H /\ H <> []
                             /\ forallb hexdigit H = true)
               \/ (V <> [] /\ forallb dec V = true)))).
Proof.
  intros H. apply convert_line_cases in H.
  destruct H as (X & Hne & HX & H). exists X. split; [exact Hne|].
  split; [exact HX|].
  destruct H as [[H1 H2] | [[H1 H2] | [[H1 H2] | (V & H1 & H2 & H3)]]].
  - left. split; [exact H2|]. by left.
  - right; left. by split.
  - left. split; [exact H2|]. by right.
  - right; right. by exists V.
Qed.

Lemma convert_line_shape_witness :
  exists X, X <> [] /\ forallb nonspace X = true /\
    ((lit "#define CONFIG_HZ 100" ++ [newline]
      = lit "/* CONFIG_" ++ X ++ lit " is not set */" ++ [newline]
      /\ (rstrip (lit "CONFIG_HZ=100" ++ [13; 10]%N)
          = lit "# CONFIG_" ++ X ++ lit " is not set"
          \/ rstrip (lit "CONFIG_HZ=100" ++ [13; 10]%N)
             = lit "CONFIG_" ++ X ++ lit "=n"))
     \/ (lit "#define CONFIG_HZ 100" ++ [newline]
         = lit "#define CONFIG_" ++ X ++ lit " 1" ++ [newline]
         /\ rstrip (lit "CONFIG_HZ=100" ++ [13; 10]%N)
            = lit "CONFIG_" ++ X ++ lit "=y")
     \/ (exists V, lit "#define CONFIG_HZ 100" ++ [newline]
                   = lit "#define CONFIG_" ++ X ++ lit " " ++ V ++ [newline]
           /\ rstrip (lit "CONFIG_HZ=100" ++ [13; 10]%N)
              = lit "CONFIG_" ++ X ++ lit "=" ++ V
           /\ ((exists S, V = [quote] ++ S ++ [quote] /\ forallb dot S = true)
               \/ (exists H, V = lit "0x" ++ H /\ H <> []
                             /\ forallb hexdigit H = true)
               \/ (V <> [] /\ forallb ascii_decimal V = true)))).
Proof.
  apply (convert_line_shape ascii_decimal (lit "CONFIG_HZ=100" ++ [13; 10]%N)).
  reflexivity.
Defined.

Lemma rstrip_head (c : N) (l : text) :
  rstrip (c :: l) = [] \/ exists r, rstrip (c :: l) = c :: r.
Proof.
  cbn [rstrip]. destruct (rstrip l) as [|d r].
  - destruct (isspace c); [by left | right; by exists []].
  - right. by exists (d :: r).
Qed.

(** X23: whitespace at the end of a line, the line terminator included, is
    ignored, and a line of whitespace only gives nothing; whitespace at
    the start of a line is not ignored: an indented line gives nothing. *)
Theorem convert_line_whitespace (dec : N -> bool) (line ws : text) (c : N) :
  forallb isspace ws = true -> isspace c = true ->
  convert_line dec (line ++ ws) = convert_line dec line
  /\ convert_line dec ws = None
  /\ convert_line dec (c :: line) = None.
Proof.
  intros Hws Hc. split; [|split].
  - unfold convert_line. by rewrite rstrip_app_space.
  - unfold convert_line. by rewrite rstrip_all_space.
  - destruct (convert_line dec (c :: line)) as [out|] eqn:E; [|reflexivity].
    apply convert_line_cases in E. destruct E as (X & _ & _ & E).
    destruct (rstrip_head c line) as [R | [r R]]; rewrite R in E;
      destruct E as [[E _] | [[E _] | [[E _] | (V & E & _)]]];
      try discriminate E; injection E as -> _; discriminate Hc.
Qed.

Lemma convert_line_whitespace_witness :
  convert_line ascii_decimal (lit "CONFIG_FOO=y" ++ [32; 9; 13; 10]%N)
  = convert_line ascii_decimal (lit "CONFIG_FOO=y")
  /\ convert_line ascii_decimal [32; 9; 13; 10]%N = None
  /\ convert_line ascii_decimal (32%N :: lit "CONFIG_FOO=y") = None.
Proof.
  apply (convert_line_whitespace ascii_decimal (lit "CONFIG_FOO=y")
           [32; 9; 13; 10]%N 32%N).
  - reflexivity.
  - reflexivity.
Defined.

(** ** [config2autoconf.py]: the whole run *)

Lemma land_shiftl_low (a b k : N) :
  (b < 2 ^ k)%N -> N.land (N.shiftl a k) b = 0%N.
Proof.
  intros Hb. apply N.bits_inj. intros n.
  rewrite N.land_spec, N.bits_0.
  destruct (N.lt_ge_cases n k) as [Hn | Hn].
  - by rewrite N.shiftl_spec_low.
  - rewrite andb_false_iff. right.
    destruct (N.eq_dec b 0%N) as [-> | Hb0]; [apply N.bits_0|].
    apply N.bits_above_log2. apply N.log2_lt_pow2; [lia|].
    eapply N.lt_le_trans; [exact Hb|]. apply N.pow_le_mono_r; lia.
Qed.

Lemma lor_shiftl_add (a b k : N) :
  (b < 2 ^ k)%N -> N.lor (N.shiftl a k) b = (a * 2 ^ k + b)%N.
Proof.
  intros Hb. pose proof (land_shiftl_low a b k Hb) as H.
  by rewrite <- N.lxor_lor, <- N.add_nocarry_lxor, N.shiftl_mul_pow2.
Qed.

Lemma byte_bound (b : byte) : (Byte.to_N b < 256)%N.
Proof. pose proof (Byte.to_N_bounded b). lia. Qed.

Lemma tail6_mod (b : byte) : tail6 b = (Byte.to_N b mod 64)%N.
Proof. unfold tail6. change 0x3F%N with (N.ones 6). by rewrite N.land_ones. Qed.

Lemma in_range_spec (lo hi n : N) :
  in_range lo hi n = true <-> (lo <= n <= hi)%N.
Proof.
  unfold in_range. rewrite andb_true_iff, !N.leb_le. tauto.
Qed.

Ltac mod_lia := zify; Z.quot_rem_to_equations; lia.

Lemma scalar_spec (c : N) :
  scalar c = true <-> (c < 0x110000 /\ ~ (0xD800 <= c <= 0xDFFF))%N.
Proof.
  unfold scalar. rewrite andb_true_iff, negb_true_iff, N.ltb_lt.
  rewrite <- not_true_iff_false, in_range_spec. tauto.
Qed.

Lemma decode2_scalar (n0 : N) (b1 : byte) :
  in_range 0xC2 0xDF n0 = true ->
  scalar (N.lor (N.shiftl (N.land n0 0x1F) 6) (tail6 b1)) = true.
Proof.
  rewrite in_range_spec. intros H0. pose proof (byte_bound b1).
  rewrite tail6_mod. change 0x1F%N with (N.ones 5). rewrite N.land_ones.
  rewrite lor_shiftl_add by (change (2 ^ 6)%N with 64%N; mod_lia).
  apply scalar_spec. change (2 ^ 5)%N with 32%N. change (2 ^ 6)%N with 64%N.
  mod_lia.
Qed.

Lemma decode3_scalar (n0 : N) (b1 b2 : byte) :
  in_range 0xE0 0xEF n0 = true ->
  in_range (if (n0 =? 0xE0)%N then 0xA0%N else 0x80%N)
           (if (n0 =? 0xED)%N then 0x9F%N else 0xBF%N) (Byte.to_N b1) = true ->
  scalar (N.lor (N.shiftl (N.land n0 0x0F) 12)
            (N.lor (N.shiftl (tail6 b1) 6) (tail6 b2))) = true.
Proof.
  rewrite !in_range_spec. intros H0 H1.
  pose proof (byte_bound b1). pose proof (byte_bound b2).
  rewrite !tail6_mod. change 0x0F%N with (N.ones 4). rewrite N.land_ones.
  rewrite (lor_shiftl_add _ _ 6) by (change (2 ^ 6)%N with 64%N; mod_lia).
  rewrite lor_shiftl_add
    by (change (2 ^ 6)%N with 64%N; change (2 ^ 12)%N with 4096%N; mod_lia).
  apply scalar_spec.
  change (2 ^ 4)%N with 16%N. change (2 ^ 6)%N with 64%N.
  change (2 ^ 12)%N with 4096%N.
  destruct (N.eqb_spec n0 0xE0); destruct (N.eqb_spec n0 0xED); mod_lia.
Qed.

Lemma decode4_scalar (n0 : N) (b1 b2 b3 : byte) :
  in_range 0xF0 0xF4 n0 = true ->
  in_range (if (n0 =? 0xF0)%N then 0x90%N else 0x80%N)
           (if (n0 =? 0xF4)%N then 0x8F%N else 0xBF%N) (Byte.to_N b1) = true ->
  scalar (N.lor (N.shiftl (N.land n0 0x07) 18)
            (N.lor (N.shiftl (tail6 b1) 12)
               (N.lor (N.shiftl (tail6 b2) 6) (tail6 b3)))) = true.
Proof.
  rewrite !in_range_spec. intros H0 H1.
  pose proof (byte_bound b1). pose proof (byte_bound b2).
  pose proof (byte_bound b3).
  rewrite !tail6_mod. change 0x07%N with (N.ones 3). rewrite N.land_ones.
  rewrite (lor_shiftl_add _ _ 6) by (change (2 ^ 6)%N with 64%N; mod_lia).
  rewrite (lor_shiftl_add _ _ 12)
    by (change (2 ^ 6)%N with 64%N; change (2 ^ 12)%N with 4096%N; mod_lia).
  rewrite lor_shiftl_add
    by (change (2 ^ 6)%N with 64%N; change (2 ^ 12)%N with 4096%N;
        change (2 ^ 18)%N with 262144%N; mod_lia).
  apply scalar_spec.
  change (2 ^ 3)%N with 8%N. change (2 ^ 6)%N with 64%N.
  change (2 ^ 12)%N with 4096%N. change (2 ^ 18)%N with 262144%N.
  destruct (N.eqb_spec n0 0xF0); destruct (N.eqb_spec n0 0xF4); mod_lia.
Qed.

Lemma fmap_cons_Some (c : N) (o : option text) (t : text) :
  cons c <$> o = Some t -> exists t', o = Some t' /\ t = c :: t'.
Proof. destruct o as [t'|]; [|discriminate]. intros [= <-]. by exists t'. Qed.

Lemma utf8_decode_scalar_le (n : nat) (bs : bytes) (t : text) :
  (length bs <= n)%nat -> utf8_decode bs = Some t -> forallb scalar t = true.
Proof.
  revert bs t. induction n as [|n IH]; intros bs t Hn.
  - destruct bs; [|cbn in Hn; lia]. by intros [= <-].
  - destruct bs as [|b0 r0]; [by intros [= <-]|].
    cbn [length] in Hn. cbn [utf8_decode]. cbv zeta.
    destruct (N.ltb_spec (Byte.to_N b0) 0x80) as [Hlt | _].
    { intros H. apply fmap_cons_Some in H as (t' & H & ->).
      cbn [forallb]. rewrite (IH r0 t') by (auto; lia).
      rewrite andb_true_r. apply scalar_spec. lia. }
    destruct (in_range 0xC2 0xDF (Byte.to_N b0)) eqn:E2.
    { destruct r0 as [|b1 r1]; [discriminate|].
      destruct (in_range 0x80 0xBF (Byte.to_N b1)); [|discriminate].
      intros H. apply fmap_cons_Some in H as (t' & H & ->).
      cbn [forallb length] in *. rewrite (IH r1 t') by (auto; lia).
      by rewrite decode2_scalar. }
    destruct (in_range 0xE0 0xEF (Byte.to_N b0)) eqn:E3.
    { destruct r0 as [|b1 [|b2 r2]]; [discriminate..|].
      match goal with
      | |- (if ?a && ?b then _ else _) = _ -> _ =>
          destruct a eqn:Ea; [|discriminate]; destruct b; [|discriminate]
      end.
      cbn [andb]. intros H. apply fmap_cons_Some in H as (t' & H & ->).
      cbn [forallb length] in *. rewrite (IH r2 t') by (auto; lia).
      by rewrite decode3_scalar. }
    destruct (in_range 0xF0 0xF4 (Byte.to_N b0)) eqn:E4; [|discriminate].
    destruct r0 as [|b1 [|b2 [|b3 r3]]]; [discriminate..|].
    match goal with
    | |- (if ?a && ?b && ?c then _ else _) = _ -> _ =>
        destruct a eqn:Ea; [|discriminate]; destruct b; [|discriminate];
        destruct c; [|discriminate]
    end.
    cbn [andb]. intros H. apply fmap_cons_Some in H as (t' & H & ->).
    cbn [forallb length] in *. rewrite (IH r3 t') by (auto; lia).
    by rewrite decode4_scalar.
Qed.

Lemma utf8_decode_scalar (bs : bytes) (t : text) :
  utf8_decode bs = Some t -> forallb scalar t = true.
Proof. by apply (utf8_decode_scalar_le (length bs)). Qed.

Lemma utf8_encode_char_scalar (c : N) :
  scalar c = true -> exists b, utf8_encode_char c = Some b.
Proof.
  intros H. apply andb_true_iff in H as [H1 H2].
  apply negb_true_iff in H2. unfold utf8_encode_char. rewrite H1, H2.
  repeat match goal with
         | |- context [if ?b then _ else _] => destruct b
         end; eauto.
Qed.

Lemma utf8_encode_scalar (t : text) :
  forallb scalar t = true -> exists b, utf8_encode t = Some b.
Proof.
  induction t as [|c t IH]; [by exists []|].
  cbn [forallb utf8_encode]. intros H. apply andb_true_iff in H as [Hc Ht].
  destruct (utf8_encode_char_scalar c Hc) as [b ->].
  destruct (IH Ht) as [bs ->]. eauto.
Qed.

Lemma utf8_encode_app (a b : text) :
  utf8_encode (a ++ b)
  = match utf8_encode a, utf8_encode b with
    | Some x, Some y => Some (x ++ y)
    | _, _ => None
    end.
Proof.
  induction a as [|c a IH]; cbn [app utf8_encode].
  - by destruct (utf8_encode b).
  - rewrite IH. destruct (utf8_encode_char c) as [x|]; [|reflexivity].
    destruct (utf8_encode a) as [y|]; [|reflexivity].
    destruct (utf8_encode b) as [z|]; [|reflexivity].
    by rewrite app_assoc.
Qed.

Lemma write_all_scalar (ws : list text) :
  forallb (forallb scalar) ws = true ->
  exists out, write_all ws = (out, Returned)
              /\ utf8_encode (concat ws) = Some out.
Proof.
  induction ws as [|t ws IH]; [by exists []|].
  cbn [forallb write_all concat]. intros H.
  apply andb_true_iff in H as [Ht Hws].
  destruct (utf8_encode_scalar t Ht) as [b Hb].
  destruct (IH Hws) as (bs & Hw & He).
  exists (b ++ bs). by rewrite utf8_encode_app, Hb, Hw, He.
Qed.

Lemma universal_newlines_scalar_le (n : nat) (t : text) :
  (length t <= n)%nat -> forallb scalar t = true ->
  forallb scalar (universal_newlines t) = true.
Proof.
  revert t. induction n as [|n IH]; intros t Hn.
  - destruct t; [reflexivity | cbn in Hn; lia].
  - destruct t as [|c rest]; [reflexivity|].
    cbn [length forallb universal_newlines] in *. intros H.
    apply andb_true_iff in H as [Hc Hr].
    destruct (c =? 13)%N.
    + destruct rest as [|c' rest']; [reflexivity|].
      cbn [length forallb] in *. apply andb_true_iff in Hr as [Hc' Hr'].
      destruct (c' =? 10)%N; cbn [forallb].
      * rewrite IH by (auto; lia). reflexivity.
      * rewrite (IH (c' :: rest')); [reflexivity | cbn; lia |].
        cbn [forallb]. by rewrite Hc', Hr'.
    + cbn [forallb]. rewrite Hc. apply IH; [lia | exact Hr].
Qed.

Lemma forallb_rev (p : N -> bool) (l : text) :
  forallb p (rev l) = forallb p l.
Proof.
  induction l as [|c l IH]; [reflexivity|].
  cbn [rev forallb]. rewrite forallb_app, IH. cbn [forallb].
  rewrite andb_true_r. apply andb_comm.
Qed.

Lemma readlines_from_scalar (t current : text) :
  forallb scalar current = true -> forallb scalar t = true ->
  forallb (forallb scalar) (readlines_from current t) = true.
Proof.
  revert current. induction t as [|c rest IH]; intros current Hcur.
  - intros _. cbn [readlines_from]. destruct current; [reflexivity|].
    cbn [forallb]. by rewrite forallb_rev, Hcur.
  - cbn [forallb readlines_from]. intros H. apply andb_true_iff in H as [Hc Hr].
    destruct (c =? newline)%N.
    + cbn [forallb]. rewrite (forallb_rev _ (c :: current)). cbn [forallb].
      rewrite Hc, Hcur. by apply IH.
    + apply IH; [|exact Hr]. cbn [forallb]. by rewrite Hc, Hcur.
Qed.

Lemma rstrip_forallb (p : N -> bool) (s : text) :
  forallb p s = true -> forallb p (rstrip s) = true.
Proof.
  induction s as [|c s IH]; [reflexivity|].
  cbn [forallb rstrip]. intros H. apply andb_true_iff in H as [Hc Hs].
  specialize (IH Hs). destruct (rstrip s) as [|d r].
  - destruct (isspace c); [reflexivity|]. cbn [forallb]. by rewrite Hc.
  - cbn [forallb] in *. by rewrite Hc, IH.
Qed.

Lemma convert_line_scalar (dec : N -> bool) (line out : text) :
  forallb scalar line = true -> convert_line dec line = Some out ->
  forallb scalar out = true.
Proof.
  intros Hl H. apply (rstrip_forallb scalar) in Hl.
  apply convert_line_cases in H. destruct H as (X & _ & _ & H).
  destruct H as [[E ->] | [[E ->] | [[E ->] | (V & E & -> & _)]]];
    rewrite E in Hl; rewrite !forallb_app in *;
    repeat match goal with
           | H : _ && _ = true |- _ => apply andb_true_iff in H as [? ?]
           end;
    repeat (apply andb_true_iff; split); auto.
Qed.

Lemma omap_convert_line_scalar (dec : N -> bool) (lines : list text) :
  forallb (forallb scalar) lines = true ->
  forallb (forallb scalar) (omap (convert_line dec) lines) = true.
Proof.
  induction lines as [|l lines IH]; [reflexivity|].
  cbn [forallb]. intros H. apply andb_true_iff in H as [Hl Hls].
  cbn [omap list_omap].
  destruct (convert_line dec l) as [out|] eqn:E; [|by apply IH].
  cbn [forallb]. rewrite (convert_line_scalar dec l out Hl E). by apply IH.
Qed.

Lemma writes_scalar (dec : N -> bool) (lines : list text) :
  forallb (forallb scalar) lines = true ->
  forallb (forallb scalar) (writes dec lines) = true.
Proof.
  intros H. unfold writes. rewrite !forallb_app.
  by rewrite omap_convert_line_scalar.
Qed.

Lemma config_to_autoconf_decoded (dec : N -> bool)
    (read_refused write_refused : string -> option os_error)
    (config_path out_path : string)
    (fs : gmap string bytes) (raw : bytes) (t : text) :
  fs !! config_path = Some raw -> read_refused config_path = None ->
  utf8_decode raw = Some t -> write_refused out_path = None ->
  exists out,
    config_to_autoconf dec read_refused write_refused config_path out_path fs
    = (<[out_path := out]> fs, Returned)
    /\ utf8_encode (concat (writes dec (readlines (universal_newlines t))))
       = Some out.
Proof.
  intros Hf Hr Hd Hw. unfold config_to_autoconf. rewrite Hf, Hr, Hd, Hw.
  apply utf8_decode_scalar in Hd.
  apply (universal_newlines_scalar_le (length t)) in Hd; [|lia].
  apply (readlines_from_scalar _ [] eq_refl) in Hd.
  apply (writes_scalar dec) in Hd.
  destruct (write_all_scalar _ Hd) as (out & Hwa & He).
  exists out. unfold readlines. by rewrite Hwa.
Qed.

(** X24: when the configuration file is there, can be opened and is valid
    UTF-8, and the output path can be opened for writing, the script
    finishes: nothing it writes can fail to encode.  The output file then
    holds the header, the converted lines in their order and the footer,
    and no other file has changed; this also holds when the output path is
    the configuration's own path, which is read before it is
    overwritten. *)
Theorem config_to_autoconf_returns (dec : N -> bool)
    (read_refused write_refused : string -> option os_error)
    (config_path out_path : string) (fs : gmap string bytes)
    (raw : bytes) (t : text) :
  fs !! config_path = Some raw -> read_refused config_path = None ->
  utf8_decode raw = Some t -> write_refused out_path = None ->
  exists out,
    config_to_autoconf dec read_refused write_refused config_path out_path fs
    = (<[out_path := out]> fs, Returned)
    /\ utf8_encode
         (concat header
          ++ concat (omap (convert_line dec) (readlines (universal_newlines t)))
          ++ footer)
       = Some out.
Proof.
  intros Hf Hr Hd Hw.
  destruct (config_to_autoconf_decoded dec read_refused write_refused
              config_path out_path fs raw t Hf Hr Hd Hw) as (out & H & He).
  exists out. split; [exact H|].
  unfold writes in He. rewrite !concat_app in He. cbn [concat] in He.
  by rewrite app_nil_r in He.
Qed.

(** X25: the script raises in four cases only: the configuration file is
    missing ([FileNotFoundError]); it is there but [open] refuses it; it
    is not valid UTF-8 ([UnicodeDecodeError]); or the output path cannot
    be opened for writing, with the [OSError] of that [open], for
    instance [FileNotFoundError] when its directory is missing.  It never
    raises [UnicodeEncodeError].  In all four cases the file system is
    left as it was: the output file is neither created nor truncated. *)
Theorem config_to_autoconf_raises (dec : N -> bool)
    (read_refused write_refused : string -> option os_error)
    (config_path out_path : string) (fs fs' : gmap string bytes) (e : error) :
  config_to_autoconf dec read_refused write_refused config_path out_path fs
    = (fs', Raised e) ->
  fs' = fs
  /\ ((fs !! config_path = None /\ e = FileNotFoundError config_path)
      \/ (exists raw kind,
            fs !! config_path = Some raw
            /\ read_refused config_path = Some kind
            /\ e = OSError kind config_path)
      \/ (exists raw,
            fs !! config_path = Some raw /\ read_refused config_path = None
            /\ utf8_decode raw = None /\ e = UnicodeDecodeError)
      \/ (exists raw t kind,
            fs !! config_path = Some raw /\ read_refused config_path = None
            /\ utf8_decode raw = Some t
            /\ write_refused out_path = Some kind
            /\ e = OSError kind out_path)).
Proof.
  destruct (fs !! config_path) as [raw|] eqn:Hf.
  - destruct (read_refused config_path) as [kind|] eqn:Hr.
    { unfold config_to_autoconf. rewrite Hf, Hr. intros [= <- <-].
      split; [reflexivity|]. right; left. by exists raw, kind. }
    destruct (utf8_decode raw) as [t|] eqn:Hd.
    + destruct (write_refused out_path) as [kind|] eqn:Hw.
      { unfold config_to_autoconf. rewrite Hf, Hr, Hd, Hw. intros [= <- <-].
        split; [reflexivity|]. right; right; right. by exists raw, t, kind. }
      destruct (config_to_autoconf_decoded dec read_refused write_refused
                  config_path out_path fs raw t Hf Hr Hd Hw) as (out & -> & _).
      discriminate.
    + unfold config_to_autoconf. rewrite Hf, Hr, Hd. intros [= <- <-].
      split; [reflexivity|]. right; right; left. by exists raw.
  - unfold config_to_autoconf. rewrite Hf. intros [= <- <-].
    split; [reflexivity|]. by left.
Qed.

Lemma config_to_autoconf_returns_witness :
  exists out,
    config_to_autoconf ascii_decimal nothing_refused nodir_missing
      "dsp.config" "autoconf.h" sample_fs
    = (<["autoconf.h"%string := out]> sample_fs, Returned)
    /\ utf8_encode
         (concat header
          ++ concat (omap (convert_line ascii_decimal)
                       (readlines (universal_newlines sample_config_text)))
          ++ footer)
       = Some out.
Proof.
  apply (config_to_autoconf_returns ascii_decimal nothing_refused nodir_missing
           "dsp.config" "autoconf.h" sample_fs sample_config sample_config_text).
  - reflexivity.
  - reflexivity.
  - reflexivity.
  - reflexivity.
Defined.

Lemma config_to_autoconf_raises_witness :
  config_to_autoconf ascii_decimal nothing_refused nodir_missing
    "dsp.config" "nodir/autoconf.h" sample_fs
  = (sample_fs, Raised (FileNotFoundError "nodir/autoconf.h"))
  /\ exists raw t kind,
       sample_fs !! "dsp.config"%string = Some raw
       /\ utf8_decode raw = Some t
       /\ nodir_missing "nodir/autoconf.h" = Some kind
       /\ FileNotFoundError "nodir/autoconf.h" = OSError kind "nodir/autoconf.h".
Proof.
  assert (Hrun : config_to_autoconf ascii_decimal nothing_refused nodir_missing
                   "dsp.config" "nodir/autoconf.h" sample_fs
                 = (sample_fs, Raised (FileNotFoundError "nodir/autoconf.h")))
    by reflexivity.
  split; [exact Hrun|].
  destruct (config_to_autoconf_raises ascii_decimal nothing_refused nodir_missing
              "dsp.config" "nodir/autoconf.h" sample_fs sample_fs
              (FileNotFoundError "nodir/autoconf.h") Hrun)
    as [_ [[_ He] | [(raw & kind & _ & Hr & _) | [(raw & _ & _ & _ & He)
         | (raw & t & kind & Hf & _ & Hd & Hw & He)]]]].
  - unfold FileNotFoundError in He. discriminate He.
  - unfold nothing_refused in Hr. discriminate Hr.
  - unfold FileNotFoundError in He. discriminate He.
  - exists raw, t, kind. repeat split; assumption.
Defined.
